(** * RAST corridor planning: a shallow embedding of the replanning pipeline

    The development follows the C++ sources of the repository:

    - [Planner] embeds [RAST_corridor_planning/src/multi_planning.cpp]
      (velocity differentiator, corridor optimisation routine, planning
      timer callback);
    - [BaselinePlanner] embeds [plan_manager/src/baseline.cpp]
      (search, corridor generation, optimisation, deconfliction);
    - [FiniteStateMachine] embeds [plan_manager/src/plan_manager.cpp]
      (the supervisor);
    - [FakeParticleRiskVoxel] embeds
      [plan_env/src/fake_particle_risk_voxel.cpp] (occupancy queries);
    - [RiskVoxel] embeds the inline functions of
      [plan_env/include/plan_env/risk_voxel.h];
    - [Visualizer] embeds the colour maps of
      [traj_utils/include/traj_utils/visualizer.hpp];
    - [PlannerNode] embeds the constructor, the map index and the
      subscriber callbacks of [multi_planning.cpp];
    - [FakeMapUpdate] embeds the inflation kernel, the obstacle insertion
      and the ground-truth callback of [fake_particle_risk_voxel.cpp];
    - [PlanManagerNode] embeds [run] and [TriggerCallback] of
      [plan_manager.cpp] and the order in which the callbacks run;
    - [TestDspMapNode] embeds the point filter of
      [plan_env/src/test_dsp_map_node.cpp].

    Conventions.  C++ [double] and [float] values are modelled as
    rationals ([Q]); rounding is not modelled.  C++ [int] values are
    modelled as [Z].  Calls into code that is not part of the embedded
    files (solver, graph search, ROS) are modelled as interfaces whose
    replies are supplied by the caller of the model, and the calls a
    routine makes are recorded in a trace. *)

From Stdlib Require Import String ZArith QArith Qabs Qround List Bool Lia Lqa.
Import ListNotations.

Local Open Scope Z_scope.

(** ** Shared data *)

(** [Eigen::Vector3d] / [Eigen::Vector3f]. *)
Record Vector3d : Type := mkVector3d { vec_x : Q; vec_y : Q; vec_z : Q }.

Definition Vector3d_Zero : Vector3d := mkVector3d 0 0 0.

Definition vec_add (a b : Vector3d) : Vector3d :=
  mkVector3d (vec_x a + vec_x b) (vec_y a + vec_y b) (vec_z a + vec_z b).

Definition vec_sub (a b : Vector3d) : Vector3d :=
  mkVector3d (vec_x a - vec_x b) (vec_y a - vec_y b) (vec_z a - vec_z b).

(** [Eigen::Vector3i]. *)
Record Vector3i : Type := mkVector3i { ivec_x : Z; ivec_y : Z; ivec_z : Z }.

Definition ivec_add (a b : Vector3i) : Vector3i :=
  mkVector3i (ivec_x a + ivec_x b) (ivec_y a + ivec_y b) (ivec_z a + ivec_z b).

(** [Eigen::Matrix3d] used as three rows (position, velocity, acceleration). *)
Record Matrix3d : Type := mkMatrix3d { row0 : Vector3d; row1 : Vector3d; row2 : Vector3d }.

(** [fabs(x) < y] and friends as booleans on rationals. *)
Definition Qltb (a b : Q) : bool := if Qlt_le_dec a b then true else false.
Definition Qgtb (a b : Q) : bool := Qltb b a.

(** How a C++ routine with a result of type [A] can end: by a [return],
    by reaching the closing brace of a non-void function without a
    [return] (the value handed to the caller is then unspecified), or by
    an exception leaving the routine. *)
Inductive Exn : Type :=
| ExInt (e : Z)            (* [throw 42;]  caught by [catch (int e)] *)
| ExOther (what : string)  (* any other exception type *).

Inductive Completion (A : Type) : Type :=
| Returned (a : A)
| FellOffEnd
| Propagated (e : Exn).
Arguments Returned {A} a.
Arguments FellOffEnd {A}.
Arguments Propagated {A} e.

(** * multi_planning.cpp *)

Module Planner.

(** The fields of [PlannerConfig] read by the embedded routines. *)
Record PlannerConfig : Type := mkPlannerConfig {
  max_differentiated_current_a : Q;
  max_vel_optimization : Q;
  max_acc_optimization : Q;
  delta_corridor : Q;
  factors : list Q;
  a_star_search_time_step : Q;
  expand_safety_distance : Q;
  goal_x : Q;
  goal_y : Q;
  goal_z : Q
}.

(** [geometry_msgs::TwistStamped]: only [twist.linear] is read. *)
Record TwistStamped : Type := mkTwistStamped { twist_linear : Vector3d }.

(** The odometry part of the [Planner] object. *)
Record Odom : Type := mkOdom {
  _odom_pos : Vector3d;
  _odom_vel : Vector3d;
  _odom_acc : Vector3d;
  _prev_t : Q;
  _prev_vx : Q;
  _prev_vy : Q;
  _prev_vz : Q
}.

(** [if (fabs(a) < 0.2) a = 0.0;] *)
Definition dead_zone (a : Q) : Q :=
  if Qltb (Qabs a) (2 # 10) then 0 else a.

(** The clipping [for] loop body of [VelCallback]. *)
Definition clip_acc (m a : Q) : Q :=
  if Qltb a (- m) then - m
  else if Qgtb a m then m
  else a.

(** The [else] branch of [VelCallback]: first difference, dead zone, clip. *)
Definition differentiate (cfg : PlannerConfig) (s : Odom) (now : Q) : Vector3d :=
  let dt := (now - _prev_t s)%Q in
  let a0 := ((vec_x (_odom_vel s) - _prev_vx s) / dt)%Q in
  let a1 := ((vec_y (_odom_vel s) - _prev_vy s) / dt)%Q in
  let a2 := ((vec_z (_odom_vel s) - _prev_vz s) / dt)%Q in
  let m := max_differentiated_current_a cfg in
  mkVector3d (clip_acc m (dead_zone a0)) (clip_acc m (dead_zone a1))
             (clip_acc m (dead_zone a2)).

(** [Planner::VelCallback].  [now_diff] and [now_end] are the two readings
    of [ros::Time::now().toSec()] the routine takes.  The flag
    [is_vel_initialized] is a local variable initialised to [true] at
    every call, as in the source. *)
Definition VelCallback (cfg : PlannerConfig) (s : Odom) (msg : TwistStamped)
    (now_diff now_end : Q) : Odom :=
  let s1 := mkOdom (_odom_pos s) (twist_linear msg) (_odom_acc s)
                   (_prev_t s) (_prev_vx s) (_prev_vy s) (_prev_vz s) in
  let is_vel_initialized := true in
  let s2 :=
    if is_vel_initialized then
      (* is_vel_initialized = false; *)
      s1
    else
      mkOdom (_odom_pos s1) (_odom_vel s1) (differentiate cfg s1 now_diff)
             (_prev_t s1) (_prev_vx s1) (_prev_vy s1) (_prev_vz s1) in
  mkOdom (_odom_pos s2) (_odom_vel s2) (_odom_acc s2)
         now_end (vec_x (_odom_vel s2)) (vec_y (_odom_vel s2)) (vec_z (_odom_vel s2)).

(** The differentiator as the specification words it: on a sample after
    the first, each component is the first difference, dead-zoned and
    clipped.  Used only to compare with [VelCallback]. *)
Definition differentiator_spec (cfg : PlannerConfig) (prev_v : Vector3d) (prev_t : Q)
    (v : Vector3d) (t : Q) : Vector3d :=
  let m := max_differentiated_current_a cfg in
  let d (x px : Q) := clip_acc m (dead_zone ((x - px) / (t - prev_t))%Q) in
  mkVector3d (d (vec_x v) (vec_x prev_v)) (d (vec_y v) (vec_y prev_v))
             (d (vec_z v) (vec_z prev_v)).

(** *** The corridor optimiser and the graph search

    [traj_opt::CorridorMiniSnap], [decomp_utils] and the A* planner are
    used by this file but defined elsewhere; they are interfaces here. *)

(** [decomp_ros_msgs::DynPolyhedron] and [DynPolyhedronArray]. *)
Record DynPolyhedron : Type := mkDynPolyhedron {
  duration : Q;
  points : list Vector3d;
  normals : list Vector3d
}.

Record DynPolyhedronArray : Type := mkDynPolyhedronArray {
  start_pos : Vector3d; start_vel : Vector3d; start_acc : Vector3d;
  end_pos : Vector3d; end_vel : Vector3d; end_acc : Vector3d;
  dyn_polyhedrons : list DynPolyhedron
}.

(** What a call into the solver does: it answers, or it throws. *)
Inductive SolverReply : Type :=
| Solved (is_solved : bool)
| Throws (e : Exn).

(** The methods of [traj_opt::CorridorMiniSnap] called by the planner.
    [Opt] is the state of the optimiser object, [Traj] the trajectory
    type, [Polys] the corridor representation produced by
    [decomp_utils::dynPolyArrayToVector]. *)
Class CorridorMiniSnap (Opt Traj Polys : Type) : Type := {
  reset : Opt -> Matrix3d -> Matrix3d -> list Q -> Polys -> Opt;
  optimize : Opt -> list Q -> Q -> SolverReply * Opt;
  reOptimize : Opt -> SolverReply * Opt;
  isCorridorSatisfied : Opt -> Traj -> Q -> Q -> Q -> bool * Opt;
  getTrajectory : Opt -> Traj
}.

(** The four [decomp_utils] conversions applied to the corridor message. *)
Class DecompUtils (Polys : Type) : Type := {
  dynPolyArrayToVector : DynPolyhedronArray -> Polys;
  dynPolyArrayToTimeAlloc : DynPolyhedronArray -> list Q;
  dynPolyArrayToInitPos : DynPolyhedronArray -> Matrix3d;
  dynPolyArrayToEndPos : DynPolyhedronArray -> Matrix3d
}.

(** Search nodes: [Node(t, x, y, z, vx, vy, vz)]. *)
Record Node : Type := mkNode {
  node_t : Q;
  node_x : Q; node_y : Q; node_z : Q;
  node_vx : Q; node_vy : Q; node_vz : Q
}.

(** [Corridor]: the surfaces of its envelope, each a point and a normal. *)
Record Corridor : Type := mkCorridor { surfaces : list (Vector3d * Vector3d) }.

(** The members of [_astar_planner] used by [TrajTimerCallback], and
    [atan2] from the C library.  [search] stands for the call
    [search(start, end, t0, safety, ref_angle, risk, out)] against the
    risk tensor of the cycle and yields [out]; [findCorridors] yields the
    corridors built from the searched nodes. *)
Class AstarPlanner : Type := {
  v_max_xy : Q;
  v_max_z : Q;
  time_step_node : Q;
  time_step_trajectory : Q;
  search : Vector3d -> Node -> Node -> Q -> Q -> Q -> list Node;
  findCorridors : list Node -> Z -> list Corridor;
  atan2 : Q -> Q -> Q
}.

(** Calls and messages recorded while a routine runs, oldest first. *)
Inductive Event : Type :=
| EvReset
| EvOptimize (reply : SolverReply)
| EvGetTrajectory
| EvIsCorridorSatisfied (satisfied : bool)
| EvReOptimize (reply : SolverReply)
| EvRosError (text : string)
| EvRosWarn (text : string)
| EvSearch (found : nat)
| EvVisualizeAstarPath (pts : list Vector3d) (id : Z) (clear_old : bool)
| EvVisualizeCorridors (n : nat) (clear_old : bool)
| EvFindCorridors (stride : Z)
| EvPublishCorridor (msg : DynPolyhedronArray)
| EvOptimizationInCorridors.

Section Routines.

Context {Opt Traj Polys : Type}.
Context {solver : CorridorMiniSnap Opt Traj Polys}.
Context {decomp : DecompUtils Polys}.
Context {astar : AstarPlanner}.

Variable cfg : PlannerConfig.

(** The result of a routine: how it ended, the optimiser object, the
    stored trajectory [_traj], and the calls made. *)
Definition Run (A : Type) : Type := (Completion A * Opt * Traj * list Event)%type.

Definition add_events {A : Type} (evs : list Event) (r : option (Run A)) : option (Run A) :=
  match r with
  | Some (c, o, tr, evs') => Some (c, o, tr, evs ++ evs')
  | None => None
  end.

(** The [while] loop of [OptimizationInCorridors]:

    [while (!isCorridorSatisfied(...) && i++ < I) { ... }]

    [i++ < I] is evaluated only when the corridor test failed.  [fuel]
    bounds the number of loop bodies the model may run; [None] means the
    fuel ran out. *)
Fixpoint tighten (fuel : nat) (I i : Z) (o : Opt) (traj : Traj) : option (Run bool) :=
  let '(sat, o1) := isCorridorSatisfied o traj (max_vel_optimization cfg)
                      (max_acc_optimization cfg) (delta_corridor cfg) in
  if sat then Some (FellOffEnd, o1, traj, [EvIsCorridorSatisfied true])
  else if i <? I then
    match fuel with
    | O => None
    | S fuel' =>
        let '(reply, o2) := reOptimize o1 in
        let called := [EvIsCorridorSatisfied false; EvReOptimize reply] in
        match reply with
        | Throws (ExInt _) =>
            Some (Returned false, o2, traj, called ++ [EvRosError "Optimizer crashed!"])
        | Throws e => Some (Propagated e, o2, traj, called)
        | Solved true =>
            add_events (called ++ [EvGetTrajectory])
                       (tighten fuel' I (i + 1) o2 (getTrajectory o2))
        | Solved false =>
            Some (Returned false, o2, traj,
                  called ++ [EvRosError "No solution found for these corridors!"])
        end
    end
  else Some (FellOffEnd, o1, traj, [EvIsCorridorSatisfied false]).

(** [Planner::OptimizationInCorridors].  The source has no [return] after
    the loop: leaving the loop ends the routine at its closing brace. *)
Definition OptimizationInCorridors (o : Opt) (traj : Traj)
    (msg : DynPolyhedronArray) (c_start : Vector3d) : option (Run bool) :=
  let corridors := dynPolyArrayToVector msg in
  let time_alloc := dynPolyArrayToTimeAlloc msg in
  let init_state := dynPolyArrayToInitPos msg in
  let finl_state := dynPolyArrayToEndPos msg in
  let o0 := reset o init_state finl_state time_alloc corridors in
  let '(reply, o1) := optimize o0 (factors cfg) (delta_corridor cfg) in
  let called := [EvReset; EvOptimize reply] in
  match reply with
  | Throws (ExInt _) =>
      Some (Returned false, o1, traj, called ++ [EvRosError "Optimizer crashed!"])
  | Throws e => Some (Propagated e, o1, traj, called)
  | Solved false =>
      Some (Returned false, o1, traj,
            called ++ [EvRosError "No solution found for these corridors!"])
  | Solved true =>
      let I := 10 in
      let i := 0 in
      add_events (called ++ [EvGetTrajectory])
                 (tighten (Z.to_nat I) I i o1 (getTrajectory o1))
  end.

(** The members of the [Planner] object used by [TrajTimerCallback]. *)
Record State : Type := mkState {
  odom : Odom;
  _is_future_risk_updated : bool;
  _map_center : Vector3d;
  _ref_direction_angle : Q;
  _is_rviz_center_locked : bool;
  _traj_optimizer : Opt;
  _traj : Traj
}.

(** [if (fabs(v) > vmax) v = vmax * v / fabs(v);] *)
Definition truncate_velocity (vmax v : Q) : Q :=
  if Qgtb (Qabs v) vmax then (vmax * v / Qabs v)%Q else v.

(** [(int)(x)] on a rational: truncation toward zero. *)
Definition Qtrunc (x : Q) : Z := Z.quot (Qnum x) (Z.pos (Qden x)).

Definition node_pos (n : Node) : Vector3d := mkVector3d (node_x n) (node_y n) (node_z n).

(** The points shown for one search node. *)
Definition shown_point (locked : bool) (center : Vector3d) (p : Vector3d) : Vector3d :=
  if locked then p else vec_add p center.

(** The inner [for (int j = 1; j < point_num_one_piece; ++j)] loop: the
    samples of the constant-acceleration piece from [node1] to [node2]. *)
Definition restore_piece (locked : bool) (center : Vector3d) (node1 node2 : Node)
  : list Vector3d :=
  let ax := ((node_vx node2 - node_vx node1) / time_step_node)%Q in
  let ay := ((node_vy node2 - node_vy node1) / time_step_node)%Q in
  let az := ((node_vz node2 - node_vz node1) / time_step_node)%Q in
  let point_num_one_piece := Qtrunc (time_step_node / time_step_trajectory) in
  map (fun j : nat =>
         let t := (inject_Z (Z.of_nat j) * time_step_trajectory)%Q in
         let p := mkVector3d
                    (node_x node1 + node_vx node1 * t + (1 # 2) * ax * t * t)%Q
                    (node_y node1 + node_vy node1 * t + (1 # 2) * ay * t * t)%Q
                    (node_z node1 + node_vz node1 * t + (1 # 2) * az * t * t)%Q in
         shown_point locked center p)
      (seq 1 (Z.to_nat point_num_one_piece - 1)).

(** The outer [for (int i = 0; i < astar_rst.size() - 1; ++i)] loop. *)
Fixpoint restore_trajectory (locked : bool) (center : Vector3d) (rst : list Node)
  : list Vector3d :=
  match rst with
  | node1 :: ((node2 :: _) as rest) =>
      restore_piece locked center node1 node2 ++ restore_trajectory locked center rest
  | _ => []
  end.

Definition corridor_to_msg (c : Corridor) : DynPolyhedron :=
  mkDynPolyhedron (a_star_search_time_step cfg) (map fst (surfaces c)) (map snd (surfaces c)).

(** The corridor message built in part P3 of [TrajTimerCallback]. *)
Definition make_corridor_msg (first last : Node) (a_start : Vector3d)
    (corridors : list Corridor) : DynPolyhedronArray :=
  mkDynPolyhedronArray
    (node_pos first) (mkVector3d (node_vx first) (node_vy first) (node_vz first)) a_start
    (node_pos last) (mkVector3d (node_vx last) (node_vy last) (node_vz last))
    (mkVector3d 0 0 0)
    (map corridor_to_msg corridors).

(** [points[1].y() - points[0].y()] etc. for the reference direction. *)
Definition direction_angle (pts : list Vector3d) (old : Q) : Q :=
  match pts with
  | p0 :: p1 :: _ => atan2 (vec_y p1 - vec_y p0)%Q (vec_x p1 - vec_x p0)%Q
  | _ => old
  end.

Definition set_planner (s : State) (angle : Q) (o : Opt) (traj : Traj) : State :=
  mkState (odom s) (_is_future_risk_updated s) (_map_center s) angle
          (_is_rviz_center_locked s) o traj.

(** The start node of the search: odometry relative to the map centre,
    with the velocity truncated to the search limits. *)
Definition make_start_node (s : State) : Node :=
  let c_start := _map_center s in
  let p_start := vec_sub (_odom_pos (odom s)) c_start in
  let v_start := _odom_vel (odom s) in
  (* truncate the initial velocity *)
  let v_start := mkVector3d (truncate_velocity v_max_xy (vec_x v_start))
                            (truncate_velocity v_max_xy (vec_y v_start))
                            (truncate_velocity v_max_z (vec_z v_start)) in
  mkNode 0 (vec_x p_start) (vec_y p_start) (vec_z p_start)
         (vec_x v_start) (vec_y v_start) (vec_z v_start).

Definition make_end_node (s : State) : Node :=
  let c_start := _map_center s in
  mkNode 0 (goal_x cfg - vec_x c_start)%Q (goal_y cfg - vec_y c_start)%Q
         (goal_z cfg - vec_z c_start)%Q 0 0 0.

(** [astar_rst] after the call of [_astar_planner.search]. *)
Definition astar_result (s : State) : list Node :=
  let astar_start_time := 0%Q in
  search (_map_center s) (make_start_node s) (make_end_node s) astar_start_time
         (expand_safety_distance cfg) (_ref_direction_angle s).

(** [Planner::TrajTimerCallback].  [unspecified] is the value the caller
    reads from [OptimizationInCorridors] when that routine ended without
    a [return]; it only decides whether a warning is logged. *)
Definition TrajTimerCallback (s : State) (unspecified : bool)
  : option (Completion unit * State * list Event) :=
  if negb (_is_future_risk_updated s) then
    Some (Returned tt, s, [EvRosWarn "Time interval between two plannings"])
  else
    let c_start := _map_center s in
    let a_start := _odom_acc (odom s) in
    let start_node := make_start_node s in
    let astar_rst := astar_result s in
    let size := Z.of_nat (length astar_rst) in
    if (size <=? 1) || (size >=? 10) then
      Some (Returned tt, s,
            [EvRosWarn "Time interval between two plannings";
             EvSearch (length astar_rst);
             EvRosWarn "A* planning failed!";
             EvVisualizeAstarPath [] 0 true;
             EvVisualizeAstarPath [] 1 true;
             EvVisualizeCorridors 0 true])
    else
      (* at least two nodes are generated to build a corridor *)
      let locked := _is_rviz_center_locked s in
      let pts := map (fun p => shown_point locked (_map_center s) (node_pos p)) astar_rst in
      let angle := direction_angle pts (_ref_direction_angle s) in
      let shown := restore_trajectory locked (_map_center s) astar_rst in
      let corridors := findCorridors astar_rst 2 in
      let first := hd start_node astar_rst in
      let last := List.last astar_rst start_node in
      let corridor_msg := make_corridor_msg first last a_start corridors in
      let before :=
        [EvRosWarn "Time interval between two plannings";
         EvSearch (length astar_rst);
         EvVisualizeAstarPath pts 0 false;
         EvVisualizeAstarPath shown 1 false;
         EvFindCorridors 2;
         EvPublishCorridor corridor_msg;
         EvVisualizeCorridors (length corridors) locked;
         EvOptimizationInCorridors] in
      match OptimizationInCorridors (_traj_optimizer s) (_traj s) corridor_msg c_start with
      | None => None
      | Some (Propagated e, o, traj, evs) =>
          Some (Propagated e, set_planner s angle o traj, before ++ evs)
      | Some (Returned is_trajectory_optimized, o, traj, evs) =>
          Some (Returned tt, set_planner s angle o traj,
                before ++ evs ++
                (if is_trajectory_optimized then [] else [EvRosWarn "Optimization failed!!"]))
      | Some (FellOffEnd, o, traj, evs) =>
          Some (Returned tt, set_planner s angle o traj,
                before ++ evs ++
                (if unspecified then [] else [EvRosWarn "Optimization failed!!"]))
      end.

End Routines.

End Planner.

(** * baseline.cpp *)

Module BaselinePlanner.

(** The fields of [BaselineParameters] read by [plan]. *)
Record BaselineParameters : Type := mkBaselineParameters {
  a_star_search_time_step : Q;
  opt_max_vel : Q;
  opt_max_acc : Q
}.

(** [RiskHybridAstar]: [A] is the state of the search object.  [NO_PATH]
    is the enumerator of [ASTAR_RET] the planner compares with. *)
Class RiskHybridAstar (A : Type) : Type := {
  NO_PATH : Z;
  astar_reset : A -> A;
  astar_search : A -> Vector3d -> Vector3d -> Vector3d -> Vector3d -> Vector3d -> bool -> Z * A;
  getPath : A -> Q -> list Vector3d
}.

(** [MADER], the deconfliction object.  Both checks may change its state. *)
Class MADER (M Traj : Type) : Type := {
  mader_getObstaclePoints : M -> Q -> list Vector3d;
  isSafeAfterOpt : M -> Traj -> bool * M;
  isSafeAfterChk : M -> bool * M
}.

(** [traj_opt::BezierOpt]. *)
Class BezierOpt (B Traj HPoly : Type) : Type := {
  new_BezierOpt : B;
  setup : B -> Matrix3d -> Matrix3d -> list Q -> list HPoly -> Q -> Q -> B;
  optimize : B -> bool * B;
  getOptBezier : B -> Traj
}.

(** [RiskVoxel::getObstaclePoints] on the map object and
    [sfc_gen::convexCover]. *)
Class Corridors (Mp HPoly : Type) : Type := {
  map_getObstaclePoints : Mp -> list Vector3d;
  convexCover : list Vector3d -> list Vector3d -> Vector3d -> Vector3d -> Q -> Q -> list HPoly
}.

(** Calls and messages recorded while [plan] runs, oldest first. *)
Inductive Event : Type :=
| EvSearch (flag : bool) (rst : Z)   (* [search(..., flag)] and its return code *)
| EvRosWarn (text : string)
| EvRosError (text : string)
| EvVisualizeAstarPath (path : list Vector3d)
| EvVisualizeObstaclePoints (pc : list Vector3d)
| EvConvexCover (route pc : list Vector3d) (lower_corner higher_corner : Vector3d)
| EvVisualizePolytope (n : nat)
| EvVisualizeStartGoal (p : Vector3d)
| EvSetup (init_state final_state : Matrix3d) (time_alloc : list Q) (n_polys : nat)
| EvOptimize (ok : bool)
| EvIsSafeAfterOpt (safe : bool)
| EvIsSafeAfterChk (safe : bool)
| EvVisualizeBezierCurve
| EvVisualizeControlPoints.

Section Plan.

Context {A M B Mp Traj HPoly : Type}.
Context {astar : RiskHybridAstar A}.
Context {mader : MADER M Traj}.
Context {bezier : BezierOpt B Traj HPoly}.
Context {corridors : Corridors Mp HPoly}.

Variable cfg_ : BaselineParameters.

(** The members of the [BaselinePlanner] object. *)
Record Planner : Type := mkPlanner {
  odom_pos_ : Vector3d;
  odom_vel_ : Vector3d;
  odom_acc_ : Vector3d;
  goal_pos_ : Vector3d;
  a_star_ : A;
  map_ : Mp;
  collision_avoider_ : M;
  traj_optimizer_ : B;
  traj_ : Traj;
  traj_start_time_ : Q
}.

Definition with_objects (p : Planner) (a : A) (m : M) (b : B) (t : Traj) (t0 : Q) : Planner :=
  mkPlanner (odom_pos_ p) (odom_vel_ p) (odom_acc_ p) (goal_pos_ p) a (map_ p) m b t t0.

(** Accessors of [baseline.h] used by the supervisor. *)
Definition setGoal (p : Planner) (g : Vector3d) : Planner :=
  mkPlanner (odom_pos_ p) (odom_vel_ p) (odom_acc_ p) g (a_star_ p) (map_ p)
            (collision_avoider_ p) (traj_optimizer_ p) (traj_ p) (traj_start_time_ p).
Definition getPos (p : Planner) : Vector3d := odom_pos_ p.
Definition getTrajStartTime (p : Planner) : Q := traj_start_time_ p.
Definition getTrajectory (p : Planner) : Traj := traj_ p.

(** [if (route.size() > 4) route.erase(route.begin() + 4, route.end());] *)
Definition truncate_route (route : list Vector3d) : list Vector3d :=
  if (4 <? length route)%nat then firstn 4 route else route.

(** The two calls of [search] at the head of [plan]: a second search,
    after a [reset], when the first returned code 0. *)
Definition search_twice (p : Planner) : Z * A * list Event :=
  let zero := mkVector3d 0 0 0 in
  let a0 := astar_reset (a_star_ p) in
  let '(rst, a1) :=
    astar_search a0 (odom_pos_ p) (odom_vel_ p) (odom_acc_ p) (goal_pos_ p) zero true in
  if rst =? 0 then
    let a2 := astar_reset a1 in
    let '(rst', a3) :=
      astar_search a2 (odom_pos_ p) (odom_vel_ p) (odom_acc_ p) (goal_pos_ p) zero false in
    (rst', a3, [EvSearch true rst; EvSearch false rst'])
  else (rst, a1, [EvSearch true rst]).

(** [route[route.size() - 1]]; indexing an empty vector is undefined. *)
Definition local_goal_of (route : list Vector3d) : option Vector3d :=
  nth_error route (length route - 1).

(** [BaselinePlanner::plan].  [now] is the reading of [ros::Time::now()]
    stored as trajectory start time.  [None] stands for the undefined
    behaviour of indexing an empty route. *)
Definition plan (p : Planner) (now : Q) : option (bool * Planner * list Event) :=
  let '(rst, a, evs_search) := search_twice p in
  if rst =? NO_PATH then
    Some (false,
          with_objects p a (collision_avoider_ p) (traj_optimizer_ p) (traj_ p)
                       (traj_start_time_ p),
          evs_search ++ [EvRosWarn "No path found!"])
  else
    let step := a_star_search_time_step cfg_ in
    (* Safety Corridor Generation *)
    let route := truncate_route (getPath a step) in
    let pc := map_getObstaclePoints (map_ p)
              ++ mader_getObstaclePoints (collision_avoider_ p)
                   (step * inject_Z (Z.of_nat (length route) - 1))%Q in
    let lower_corner := vec_add (mkVector3d (-5) (-5) (-1)) (odom_pos_ p) in
    let higher_corner := vec_add (mkVector3d 5 5 3) (odom_pos_ p) in
    let hPolys := convexCover route pc lower_corner higher_corner 7 1 in
    (* Trajectory Optimization *)
    match local_goal_of route with
    | None => None
    | Some local_goal =>
        let time_alloc := repeat step (length hPolys) in
        let init_state := mkMatrix3d (odom_pos_ p) (odom_vel_ p) (odom_acc_ p) in
        let final_state := mkMatrix3d local_goal (mkVector3d 0 0 0) (mkVector3d 0 0 0) in
        let b0 := setup new_BezierOpt init_state final_state time_alloc hPolys
                        (opt_max_vel cfg_) (opt_max_acc cfg_) in
        let '(solved, b1) := optimize b0 in
        let evs_opt :=
          evs_search ++
          [EvVisualizeAstarPath (getPath a (1 # 10));
           EvVisualizeObstaclePoints pc;
           EvConvexCover route pc lower_corner higher_corner;
           EvVisualizePolytope (length hPolys);
           EvVisualizeStartGoal (odom_pos_ p);
           EvVisualizeStartGoal local_goal;
           EvSetup init_state final_state time_alloc (length hPolys);
           EvOptimize solved] in
        if negb solved then
          Some (false,
                with_objects p a (collision_avoider_ p) b1 (traj_ p) (traj_start_time_ p),
                evs_opt ++ [EvRosError "Trajectory optimization failed!"])
        else
          let traj := getOptBezier b1 in
          (* Trajectory Deconfliction *)
          let '(safe_opt, m1) := isSafeAfterOpt (collision_avoider_ p) traj in
          if negb safe_opt then
            Some (false, with_objects p a m1 b1 traj (traj_start_time_ p),
                  evs_opt ++ [EvIsSafeAfterOpt false;
                              EvRosError "Trajectory collides after optimization!"])
          else
            let '(safe_chk, m2) := isSafeAfterChk m1 in
            if negb safe_chk then
              Some (false, with_objects p a m2 b1 traj (traj_start_time_ p),
                    evs_opt ++ [EvIsSafeAfterOpt true; EvIsSafeAfterChk false;
                                EvRosError "Trajectory commited while checking!"])
            else
              Some (true, with_objects p a m2 b1 traj now,
                    evs_opt ++ [EvIsSafeAfterOpt true; EvIsSafeAfterChk true;
                                EvVisualizeBezierCurve; EvVisualizeControlPoints])
    end.

End Plan.

End BaselinePlanner.

(** * plan_manager.cpp *)

Module FiniteStateMachine.

Import BaselinePlanner.

(** [FSM_STATUS], in the order of the table of names in [FSMPrintState]. *)
Inductive FSM_STATUS : Type :=
| INIT | WAIT_TARGET | NEW_PLAN | REPLAN | EXEC_TRAJ | EMERGENCY_REPLAN | GOAL_REACHED | EXIT.

Definition FSM_STATUS_eqb (a b : FSM_STATUS) : bool :=
  match a, b with
  | INIT, INIT | WAIT_TARGET, WAIT_TARGET | NEW_PLAN, NEW_PLAN | REPLAN, REPLAN
  | EXEC_TRAJ, EXEC_TRAJ | EMERGENCY_REPLAN, EMERGENCY_REPLAN
  | GOAL_REACHED, GOAL_REACHED | EXIT, EXIT => true
  | _, _ => false
  end.

(** The [fsm/...] parameters. *)
Record FSMParameters : Type := mkFSMParameters {
  goal_tolerance : Q;
  replan_tolerance : Q;
  replan_duration : Q
}.

(** What the supervisor observes during one timer tick: the clock, and the
    replies of its member functions [isInputLost], [checkTimeLapse] and
    [isGoalReached], which are declared in [plan_manager.h]. *)
Record Tick : Type := mkTick {
  now : Q;
  isInputLost : bool;
  checkTimeLapse : Q -> bool;
  isGoalReached : Vector3d -> bool
}.

Section Supervisor.

Context {A M B Mp Traj HPoly : Type}.
Context {astar : RiskHybridAstar A}.
Context {mader : MADER M Traj}.
Context {bezier : BezierOpt B Traj HPoly}.
Context {corridors : Corridors Mp HPoly}.

Variable planner_cfg : BaselineParameters.
Variable _cfgs : FSMParameters.

Local Abbreviation Planner := (@Planner A M B Mp Traj).

(** [traj_utils::BezierTraj]: the header fields and the trajectory whose
    order, durations and control points fill the message. *)
Record TrajMsg : Type := mkTrajMsg {
  drone_id : Z;
  traj_id : Z;
  start_time : Q;
  pub_time : Q;
  msg_traj : Traj
}.

(** Messages and calls recorded during a tick, oldest first. *)
Inductive FsmEvent : Type :=
| EvPlanner (e : Event)
| EvTrajPub (msg : TrajMsg)             (* [_traj_pub.publish(msg)] *)
| EvBroadcastTrajPub (msg : TrajMsg)    (* [_broadcast_traj_pub.publish(msg)] *)
| EvFsmWarn (text : string).

(** The members of the [FiniteStateMachine] object. *)
Record FSM : Type := mkFSM {
  _status : FSM_STATUS;
  _is_goal_received : bool;
  _is_exec_triggered : bool;
  _waypoints : list Vector3d;
  _goal : Vector3d;
  _traj_idx : Z;
  _prev_plan_time : Q;
  _traj_start_time : Q;
  _drone_id : Z;
  _planner : Planner
}.

(** [FiniteStateMachine::FSMChangeState] (the printing is not modelled). *)
Definition FSMChangeState (f : FSM) (new_state : FSM_STATUS) : FSM :=
  mkFSM new_state (_is_goal_received f) (_is_exec_triggered f) (_waypoints f) (_goal f)
        (_traj_idx f) (_prev_plan_time f) (_traj_start_time f) (_drone_id f) (_planner f).

(** [bool FiniteStateMachine::isTrajectorySafe() { return true; }] *)
Definition isTrajectorySafe (f : FSM) : bool := true.

(** [FiniteStateMachine::publishTrajectory]. *)
Definition publishTrajectory (f : FSM) (tk : Tick) : FSM * list FsmEvent :=
  let idx := _traj_idx f + 1 in
  let msg := mkTrajMsg (_drone_id f) idx (_traj_start_time f) (now tk)
                       (getTrajectory (_planner f)) in
  (mkFSM (_status f) (_is_goal_received f) (_is_exec_triggered f) (_waypoints f) (_goal f)
         idx (_prev_plan_time f) (_traj_start_time f) (_drone_id f) (_planner f),
   [EvTrajPub msg; EvBroadcastTrajPub msg]).

(** The [EXEC_TRAJ] case after [bool is_safe = isTrajectorySafe();] when
    the input is not lost. *)
Definition exec_traj_body (is_safe : bool) (f : FSM) (tk : Tick) : FSM :=
  let f1 := if checkTimeLapse tk (replan_duration _cfgs)
            then FSMChangeState f REPLAN else f in
  if isGoalReached tk (getPos (_planner f1))
  then FSMChangeState f1 GOAL_REACHED else f1.

(** The [REPLAN] case when the input is not lost. *)
Definition replan_body (f : FSM) (tk : Tick) : option (FSM * list FsmEvent) :=
  let pl := setGoal (_planner f) (_goal f) in
  match plan planner_cfg pl (now tk) with
  | None => None
  | Some (is_success, pl', evs) =>
      let f1 := mkFSM (_status f) (_is_goal_received f) (_is_exec_triggered f) (_waypoints f)
                      (_goal f) (_traj_idx f) (_prev_plan_time f) (_traj_start_time f)
                      (_drone_id f) pl' in
      let is_finished := isGoalReached tk (getPos pl') in
      if is_success && negb is_finished then
        let f2 := mkFSM (_status f1) (_is_goal_received f1) (_is_exec_triggered f1)
                        (_waypoints f1) (_goal f1) (_traj_idx f1) (now tk)
                        (getTrajStartTime pl') (_drone_id f1) pl' in
        let '(f3, pub) := publishTrajectory f2 tk in
        Some (FSMChangeState f3 EXEC_TRAJ, map EvPlanner evs ++ pub)
      else if is_finished then
        Some (FSMChangeState f1 GOAL_REACHED, map EvPlanner evs)
      else
        Some (f1, map EvPlanner evs ++ [EvFsmWarn "[FSM] Replanning failed"])
  end.

(** [FiniteStateMachine::FSMCallback]: one tick of the supervisor. *)
Definition FSMCallback (f : FSM) (tk : Tick) : option (FSM * list FsmEvent) :=
  match _status f with
  | INIT => Some (FSMChangeState f WAIT_TARGET, [])
  | WAIT_TARGET =>
      if negb (isInputLost tk) && _is_goal_received f
      then Some (FSMChangeState f REPLAN, [])
      else Some (f, [])
  | NEW_PLAN =>
      if isInputLost tk then Some (FSMChangeState f WAIT_TARGET, [])
      else
        let is_success := false in
        let _ := checkTimeLapse tk 1 in
        let is_safe := true in
        let '(f1, pub) := if is_success && is_safe then publishTrajectory f tk else (f, []) in
        if _is_exec_triggered f1 then Some (FSMChangeState f1 EXEC_TRAJ, pub)
        else Some (f1, pub)
  | EXEC_TRAJ =>
      if isInputLost tk then Some (FSMChangeState f WAIT_TARGET, [])
      else
        let is_safe := isTrajectorySafe f in
        Some (exec_traj_body is_safe f tk, [])
  | REPLAN =>
      if isInputLost tk then Some (FSMChangeState f WAIT_TARGET, [])
      else replan_body f tk
  | GOAL_REACHED =>
      let f1 := mkFSM (_status f) false false (tl (_waypoints f)) (_goal f) (_traj_idx f)
                      (_prev_plan_time f) (_traj_start_time f) (_drone_id f) (_planner f) in
      Some (FSMChangeState f1 WAIT_TARGET, [])
  | EXIT => Some (f, [])
  | EMERGENCY_REPLAN =>
      (* default: "[FSM] Invalid FSM state" *)
      Some (f, [])
  end.

End Supervisor.

End FiniteStateMachine.

(** * fake_particle_risk_voxel.cpp *)

Module FakeParticleRiskVoxel.

(** The map constants and the integer-index helpers of the map base
    class.  They are declared in headers outside the embedded file, so
    the queries are stated for any choice of them. *)
Class MapBase : Type := {
  PREDICTION_TIMES : Z;
  VOXEL_NUM : Z;
  getVoxelRelIndex : Vector3d -> Vector3i;
  isInRange : Vector3i -> bool;
  getVoxelIndex : Vector3i -> Z
}.

(** The members of the map object read by the occupancy queries.
    [risk_maps_] is the array [float risk_maps_[VOXEL_NUM][PREDICTION_TIMES]];
    only its cells inside these bounds exist. *)
Record Map : Type := mkMap {
  pose_ : Vector3d;
  time_resolution_ : Q;
  risk_threshold_ : Q;
  inflate_kernel_ : list Vector3i;
  risk_maps_ : Z -> Z -> Q
}.

(** The result of a query: a value, or a read of [risk_maps_] outside the
    array (undefined behaviour in C++), with the offending indices. *)
Inductive Access (A : Type) : Type :=
| Value (a : A)
| OutOfBounds (idx t : Z).
Arguments Value {A} a.
Arguments OutOfBounds {A} idx t.

Section Queries.

Context {base : MapBase}.

(** [risk_maps_[idx][t]] *)
Definition read_risk (m : Map) (idx t : Z) : option Q :=
  if (0 <=? idx) && (idx <? VOXEL_NUM) && (0 <=? t) && (t <? PREDICTION_TIMES)
  then Some (risk_maps_ m idx t) else None.

(** The [for (auto &ego_i : inflate_kernel_)] loop of the int overload. *)
Fixpoint sum_kernel (m : Map) (pos_i : Vector3i) (t : Z) (kernel : list Vector3i)
    (sum_risk : Q) : Access Z :=
  match kernel with
  | [] => Value 0
  | ego_i :: rest =>
      let p := ivec_add pos_i ego_i in
      if negb (isInRange p) then sum_kernel m pos_i t rest sum_risk
      else
        let idx := getVoxelIndex p in
        match read_risk m idx t with
        | None => OutOfBounds idx t
        | Some r =>
            let sum_risk' := (sum_risk + r)%Q in
            if Qgtb sum_risk' (risk_threshold_ m) then Value 1 (* collision *)
            else sum_kernel m pos_i t rest sum_risk'
        end
  end.

(** [int getClearOcccupancy(const Eigen::Vector3d &pos, int t) const]:
    0 free, 1 occupied, -1 out of bound. *)
Definition getClearOcccupancy_t (m : Map) (pos : Vector3d) (t : Z) : Access Z :=
  let pos_f := vec_sub pos (pose_ m) in
  let pos_i := getVoxelRelIndex pos_f in
  if negb (isInRange pos_i) then Value (-1)
  else sum_kernel m pos_i t (inflate_kernel_ m) 0.

(** [int getClearOcccupancy(const Eigen::Vector3d &pos) const] *)
Definition getClearOcccupancy (m : Map) (pos : Vector3d) : Access Z :=
  getClearOcccupancy_t m pos 0.

(** The two slice indices computed at the head of the double overload:
    [tc] from [ceil], [tf] from [floor], each replaced by
    [PREDICTION_TIMES] when larger. *)
Definition slice_indices (m : Map) (dt : Q) : Z * Z :=
  let tc := Qceiling (dt / time_resolution_ m) in
  let tc := if tc >? PREDICTION_TIMES then PREDICTION_TIMES else tc in
  let tf := Qfloor (dt / time_resolution_ m) in
  let tf := if tf >? PREDICTION_TIMES then PREDICTION_TIMES else tf in
  (tc, tf).

(** [int getClearOcccupancy(const Eigen::Vector3d &pos, double dt) const] *)
Definition getClearOcccupancy_dt (m : Map) (pos : Vector3d) (dt : Q) : Access Z :=
  let '(tc, tf) := slice_indices m dt in
  match getClearOcccupancy_t m pos tc with
  | OutOfBounds idx t => OutOfBounds idx t
  | Value ret0 =>
      match getClearOcccupancy_t m pos tf with
      | OutOfBounds idx t => OutOfBounds idx t
      | Value ret1 =>
          if (ret0 =? -1) || (ret1 =? -1) then Value (-1)
          else if (ret0 =? 0) && (ret1 =? 0) then Value 0
          else Value 1
      end
  end.

End Queries.

End FakeParticleRiskVoxel.

(** * risk_voxel.h *)

Module RiskVoxel.

(** The map dimensions in voxels, macros of the map header. *)
Class MapSize : Type := {
  MAP_LENGTH_VOXEL_NUM : Z;
  MAP_WIDTH_VOXEL_NUM : Z;
  MAP_HEIGHT_VOXEL_NUM : Z
}.

(** The members of [RiskVoxel] read by its inline utilities. *)
Record Fields : Type := mkFields {
  pose_ : Vector3d;
  resolution_ : Q;
  local_update_range_x_ : Q;
  local_update_range_y_ : Q;
  local_update_range_z_ : Q
}.

Section Utilities.

Context {size : MapSize}.

(** [inline bool RiskVoxel::isInRange(const Eigen::Vector3f &p)] *)
Definition isInRange (m : Fields) (p : Vector3d) : bool :=
  Qgtb (vec_x p) (- local_update_range_x_ m) && Qltb (vec_x p) (local_update_range_x_ m) &&
  Qgtb (vec_y p) (- local_update_range_y_ m) && Qltb (vec_y p) (local_update_range_y_ m) &&
  Qgtb (vec_z p) (- local_update_range_z_ m) && Qltb (vec_z p) (local_update_range_z_ m).

(** [inline int RiskVoxel::getVoxelIndex(const Eigen::Vector3f &pos)]:
    the quotients are converted to [int], that is truncated.  The sum and
    the quotient are exact here; in [float] a position within a rounding
    step of a voxel face can fall into the neighbouring voxel. *)
Definition getVoxelIndex (m : Fields) (pos : Vector3d) : Z :=
  let x := Planner.Qtrunc ((vec_x pos + local_update_range_x_ m) / resolution_ m) in
  let y := Planner.Qtrunc ((vec_y pos + local_update_range_y_ m) / resolution_ m) in
  let z := Planner.Qtrunc ((vec_z pos + local_update_range_z_ m) / resolution_ m) in
  z * MAP_LENGTH_VOXEL_NUM * MAP_WIDTH_VOXEL_NUM + y * MAP_LENGTH_VOXEL_NUM + x.

(** [inline Eigen::Vector3f RiskVoxel::getVoxelPosition(int index)]:
    [%] and [/] on [int] are [Z.rem] and [Z.quot]. *)
Definition getVoxelPosition (m : Fields) (index : Z) : Vector3d :=
  let x := Z.rem index MAP_LENGTH_VOXEL_NUM in
  let y := Z.rem (Z.quot index MAP_LENGTH_VOXEL_NUM) MAP_WIDTH_VOXEL_NUM in
  let z := Z.quot index (MAP_LENGTH_VOXEL_NUM * MAP_WIDTH_VOXEL_NUM) in
  vec_add (mkVector3d (inject_Z x * resolution_ m - local_update_range_x_ m)
                      (inject_Z y * resolution_ m - local_update_range_y_ m)
                      (inject_Z z * resolution_ m - local_update_range_z_ m))
          (pose_ m).

End Utilities.

End RiskVoxel.

(** * visualizer.hpp *)

Module Visualizer.

(** [jetColorMap]: [switch (static_cast<int>(floor(s)))] on [s = a * 4]. *)
Definition jetColorMap (a : Q) : Vector3d :=
  let s := (a * 4)%Q in
  match Qfloor s with
  | 0 => mkVector3d 0 0 s
  | 1 => mkVector3d 0 (s - 1) 1
  | 2 => mkVector3d (s - 2) 1 (3 - s)
  | 3 => mkVector3d 1 (4 - s) 0
  | _ => mkVector3d 1 0 0
  end.

(** [hotColorMap]: the same on [s = a * 3]. *)
Definition hotColorMap (a : Q) : Vector3d :=
  let s := (a * 3)%Q in
  match Qfloor s with
  | 0 => mkVector3d s 0 0
  | 1 => mkVector3d 1 (s - 1) 0
  | 2 => mkVector3d 1 1 (s - 2)
  | _ => mkVector3d 1 0 0
  end.

End Visualizer.

(** * multi_planning.cpp: the map index and the ingress callbacks *)

Module PlannerNode.

Import Planner.

(** The macros of the map header used by the planner node. *)
Class MapMacros : Type := {
  MAP_LENGTH_VOXEL_NUM : Z;
  MAP_WIDTH_VOXEL_NUM : Z;
  MAP_HEIGHT_VOXEL_NUM : Z;
  VOXEL_RESOLUTION : Q;
  VOXEL_NUM : Z;
  RISK_MAP_NUMBER : Z
}.

(** The map members set in the constructor. *)
Record MapLimits : Type := mkMapLimits {
  _map_z_limit : Z;
  _map_y_limit : Z;
  _map_x_limit : Z;
  _map_size : Z;
  _map_half_length : Q;
  _map_half_width : Q;
  _map_half_height : Q
}.

Section Index.

Context {macros : MapMacros}.

(** The [MAP] block of [Planner::Planner]. *)
Definition constructor_map : MapLimits :=
  {| _map_z_limit := MAP_WIDTH_VOXEL_NUM * MAP_LENGTH_VOXEL_NUM;
     _map_y_limit := MAP_LENGTH_VOXEL_NUM;
     _map_x_limit := 1;
     _map_size := MAP_HEIGHT_VOXEL_NUM * MAP_WIDTH_VOXEL_NUM * MAP_LENGTH_VOXEL_NUM;
     _map_half_length := inject_Z MAP_LENGTH_VOXEL_NUM * VOXEL_RESOLUTION / 2;
     _map_half_width := inject_Z MAP_WIDTH_VOXEL_NUM * VOXEL_RESOLUTION / 2;
     _map_half_height := inject_Z MAP_HEIGHT_VOXEL_NUM * VOXEL_RESOLUTION / 2 |}.

(** The three voxel coordinates computed at the head of
    [getPointSpatialIndexInMap]. *)
Definition spatial_coordinates (lim : MapLimits) (p c : Vector3d) : Z * Z * Z :=
  (Qtrunc ((vec_x p - vec_x c + _map_half_length lim) / VOXEL_RESOLUTION),
   Qtrunc ((vec_y p - vec_y c + _map_half_width lim) / VOXEL_RESOLUTION),
   Qtrunc ((vec_z p - vec_z c + _map_half_height lim) / VOXEL_RESOLUTION)).

(** [int Planner::getPointSpatialIndexInMap(p, c)] *)
Definition getPointSpatialIndexInMap (lim : MapLimits) (p c : Vector3d) : Z :=
  let '(x, y, z) := spatial_coordinates lim p c in
  let idx := z * _map_z_limit lim + y * _map_y_limit lim + x * _map_x_limit lim in
  if (idx >=? 0) && (idx <? _map_size lim) then idx else -1.

End Index.

(** [Eigen::Quaternionf]. *)
Record Quaternion : Type := mkQuaternion { quat_x : Q; quat_y : Q; quat_z : Q; quat_w : Q }.

(** [geometry_msgs::PoseStamped]: position and orientation of the pose. *)
Record PoseStamped : Type := mkPoseStamped {
  pose_position : Vector3d;
  pose_orientation : Quaternion
}.

(** [std_msgs::Float32MultiArray]: the data and the strides of the
    dimensions of the layout. *)
Record Float32MultiArray : Type := mkFloat32MultiArray {
  data : list Q;
  layout_dim_stride : list Z
}.

(** [for (int i = 0; i < n; ++i)] *)
Definition count_up (n : Z) : list Z := map Z.of_nat (seq 0 (Z.to_nat n)).

Section Callbacks.

Context {macros : MapMacros}.
Context {Opt Traj Polys : Type}.
Context {solver : CorridorMiniSnap Opt Traj Polys}.
Context {decomp : DecompUtils Polys}.
Context {astar : AstarPlanner}.

Variable cfg : PlannerConfig.

(** The [Planner] object: the members used by the planning routines
    ([core]) and the other members written by the constructor and the
    ingress callbacks. *)
Record Object : Type := mkObject {
  core : @State Opt Traj;
  _odom_att : Quaternion;
  _future_risk : Z -> Z -> Q;
  limits : MapLimits;
  _is_future_risk_locked : bool;
  _is_safety_mode_enabled : bool;
  _is_odom_received : bool;
  _is_trajectory_initialized : bool;
  _is_state_locked : bool
}.

Definition with_core (o : Object) (c : @State Opt Traj) : Object :=
  mkObject c (_odom_att o) (_future_risk o) (limits o) (_is_future_risk_locked o)
           (_is_safety_mode_enabled o) (_is_odom_received o)
           (_is_trajectory_initialized o) (_is_state_locked o).

Definition with_odom (c : @State Opt Traj) (od : Odom) : @State Opt Traj :=
  mkState od (_is_future_risk_updated c) (_map_center c) (_ref_direction_angle c)
          (_is_rviz_center_locked c) (_traj_optimizer c) (_traj c).

(** [Planner::Planner].  [memory] holds the content of the members the
    constructor does not assign; [is_rviz_map_center_locked] is the
    configuration entry of that name and [fresh] the optimiser created by
    [new traj_opt::CorridorMiniSnap()]. *)
Definition Planner_new (is_rviz_map_center_locked : bool) (fresh : Opt) (memory : Object)
  : Object :=
  let od := odom (core memory) in
  let od' := mkOdom (_odom_pos od) (_odom_vel od) (_odom_acc od) (_prev_t od) 0 0 0 in
  let c := mkState od' false (_map_center (core memory)) 100 is_rviz_map_center_locked
                   fresh (_traj (core memory)) in
  mkObject c (_odom_att memory) (_future_risk memory) constructor_map
           false false false false false.

(** [risk_msg->data[k]]: [None] outside the vector. *)
Definition read_data (msg : Float32MultiArray) (k : Z) : option Q :=
  if k <? 0 then None else nth_error (data msg) (Z.to_nat k).

(** [risk_msg->data[i * risk_msg->layout.dim[0].stride + j]] *)
Definition read_cell (msg : Float32MultiArray) (i j : Z) : option Q :=
  match nth_error (layout_dim_stride msg) 0 with
  | None => None
  | Some stride => read_data msg (i * stride + j)
  end.

(** The inner loop of [FutureRiskCallback], over [j]. *)
Fixpoint copy_row (msg : Float32MultiArray) (i : Z) (js : list Z) (fr : Z -> Z -> Q)
  : option (Z -> Z -> Q) :=
  match js with
  | [] => Some fr
  | j :: js' =>
      match read_cell msg i j with
      | None => None
      | Some v =>
          copy_row msg i js' (fun a b => if (a =? i) && (b =? j) then v else fr a b)
      end
  end.

(** The outer loop, over [i]. *)
Fixpoint copy_rows (msg : Float32MultiArray) (rows js : list Z) (fr : Z -> Z -> Q)
  : option (Z -> Z -> Q) :=
  match rows with
  | [] => Some fr
  | i :: rows' =>
      match copy_row msg i js fr with
      | None => None
      | Some fr' => copy_rows msg rows' js fr'
      end
  end.

(** [Planner::FutureRiskCallback].  [None] is a read outside the message. *)
Definition FutureRiskCallback (o : Object) (msg : Float32MultiArray) : option Object :=
  match copy_rows msg (count_up VOXEL_NUM) (count_up RISK_MAP_NUMBER) (_future_risk o) with
  | None => None
  | Some fr =>
      match read_data msg (VOXEL_NUM * RISK_MAP_NUMBER),
            read_data msg (VOXEL_NUM * RISK_MAP_NUMBER + 1),
            read_data msg (VOXEL_NUM * RISK_MAP_NUMBER + 2) with
      | Some cx, Some cy, Some cz =>
          let c := core o in
          let c' := mkState (odom c) (_is_future_risk_updated c) (mkVector3d cx cy cz)
                            (_ref_direction_angle c) (_is_rviz_center_locked c)
                            (_traj_optimizer c) (_traj c) in
          Some (mkObject c' (_odom_att o) fr (limits o)
                         true (* _is_future_risk_locked = true; *)
                         (_is_safety_mode_enabled o) (_is_odom_received o)
                         (_is_trajectory_initialized o) (_is_state_locked o))
      | _, _, _ => None
      end
  end.

(** [Planner::PoseCallback]; the rotated attitude computed at its end is
    a local value that is not stored. *)
Definition PoseCallback (o : Object) (msg : PoseStamped) : Object :=
  let o1 :=
    if negb (_is_state_locked o) then
      let c := core o in
      let od := odom c in
      let od' := mkOdom (pose_position msg) (_odom_vel od) (_odom_acc od)
                        (_prev_t od) (_prev_vx od) (_prev_vy od) (_prev_vz od) in
      mkObject (with_odom c od') (pose_orientation msg) (_future_risk o) (limits o)
               (_is_future_risk_locked o) (_is_safety_mode_enabled o)
               true (_is_trajectory_initialized o) true
    else o in
  mkObject (core o1) (_odom_att o1) (_future_risk o1) (limits o1)
           (_is_future_risk_locked o1) (_is_safety_mode_enabled o1)
           (_is_odom_received o1) (_is_trajectory_initialized o1) false.

(** What the node can receive. *)
Inductive Input : Type :=
| RiskMessage (msg : Float32MultiArray)
| PoseMessage (msg : PoseStamped)
| VelocityMessage (msg : TwistStamped) (now_diff now_end : Q)
| TimerEvent (unspecified : bool).

(** One callback.  [None]: the callback read outside a message, or an
    exception left the timer callback. *)
Definition dispatch (o : Object) (input : Input) : option (Object * list Event) :=
  match input with
  | RiskMessage msg =>
      match FutureRiskCallback o msg with
      | Some o' => Some (o', [])
      | None => None
      end
  | PoseMessage msg => Some (PoseCallback o msg, [])
  | VelocityMessage msg now_diff now_end =>
      Some (with_core o (with_odom (core o)
                           (VelCallback cfg (odom (core o)) msg now_diff now_end)), [])
  | TimerEvent unspecified =>
      match TrajTimerCallback cfg (core o) unspecified with
      | Some (Returned _, c, evs) => Some (with_core o c, evs)
      | _ => None
      end
  end.

(** The callbacks run one after the other, in the order of arrival. *)
Fixpoint spin (o : Object) (inputs : list Input) : option (Object * list Event) :=
  match inputs with
  | [] => Some (o, [])
  | input :: rest =>
      match dispatch o input with
      | None => None
      | Some (o1, evs1) =>
          match spin o1 rest with
          | None => None
          | Some (o2, evs2) => Some (o2, evs1 ++ evs2)
          end
      end
  end.

End Callbacks.

End PlannerNode.

(** * fake_particle_risk_voxel.cpp: kernel, obstacle insertion, ground truth *)

Module FakeMapUpdate.

Import FakeParticleRiskVoxel.

(** The [Eigen::Vector3f] overloads of the map base class used when
    points are written into the map; like the integer overloads they are
    declared outside the embedded file. *)
Class PointHelpers : Type := {
  isInRange_f : Vector3d -> bool;
  getVoxelIndex_f : Vector3d -> Z
}.

(** [for (int k = lo; k <= hi; k++)] *)
Definition int_range (lo hi : Z) : list Z :=
  map (fun k : nat => lo + Z.of_nat k) (seq 0 (Z.to_nat (hi - lo + 1))).

(** The three nested loops of [init] that fill [inflate_kernel_], for
    [inf_step_ = s]. *)
Definition kernel_loops (s : Z) : list Vector3i :=
  flat_map (fun x =>
    flat_map (fun y =>
      map (fun z => mkVector3i x y z) (int_range (- s) s))
      (int_range (- s) s))
    (int_range (- s) s).

(** The initialisation of the kernel in [init], for [inf_step_ = s]:

    [inflate_kernel_.reserve((2 * s + 1) * (2 * s + 1) * (2 * s + 1));]

    followed by the loops.  The argument of [reserve] is an [int]; a
    negative one converts to a size beyond [max_size()] and [reserve]
    throws [std::length_error], which nothing in [init] catches. *)
Definition init_kernel (s : Z) : Completion (list Vector3i) :=
  let n := (2 * s + 1) * (2 * s + 1) * (2 * s + 1) in
  if n <? 0 then Propagated (ExOther "std::length_error")
  else Returned (kernel_loops s).

(** [inf_step_ = clearance_ / resolution_;] converted to [int]. *)
Definition inf_step (clearance resolution : Q) : Z :=
  Planner.Qtrunc (clearance / resolution).

Section Update.

Context {base : MapBase}.
Context {helpers : PointHelpers}.

Definition with_risk_maps (m : Map) (r : Z -> Z -> Q) : Map :=
  mkMap (pose_ m) (time_resolution_ m) (risk_threshold_ m) (inflate_kernel_ m) r.

(** [risk_maps_[index][t] = v;] with the bounds of the array. *)
Definition write_risk (m : Map) (index t : Z) (v : Q) : option Map :=
  if (0 <=? index) && (index <? VOXEL_NUM) && (0 <=? t) && (t <? PREDICTION_TIMES)
  then Some (with_risk_maps m
               (fun i k => if (i =? index) && (k =? t) then v else risk_maps_ m i k))
  else None.

(** [FakeParticleRiskVoxel::addObstaclesToRiskMap].  [None] is a write
    outside [risk_maps_]. *)
Fixpoint addObstaclesToRiskMap (m : Map) (pts : list Vector3d) (t_index : Z) : option Map :=
  match pts with
  | [] => Some m
  | pt :: rest =>
      if negb (isInRange_f pt) then addObstaclesToRiskMap m rest t_index
      else
        match write_risk m (getVoxelIndex_f pt) t_index 1 with
        | None => None
        | Some m' => addObstaclesToRiskMap m' rest t_index
        end
  end.

End Update.

(** [visualization_msgs::Marker], the fields read by the callback. *)
Record Marker : Type := mkMarker {
  marker_id : Z;
  marker_type : Z;
  marker_position : Vector3d;
  marker_orientation : Q * Q * Q * Q;   (* w, x, y, z *)
  marker_scale_x : Q;
  marker_points : list Vector3d
}.

(** An element of [gt_cylinders_]. *)
Record Cylinder : Type := mkCylinder {
  cyl_type : Z;
  cyl_x : Q; cyl_y : Q; cyl_z : Q;
  cyl_w : Q; cyl_h : Q;
  cyl_vx : Q; cyl_vy : Q;
  cyl_qw : Q; cyl_qx : Q; cyl_qy : Q; cyl_qz : Q
}.

(** The element [resize(n)] creates. *)
Definition empty_cylinder : Cylinder := mkCylinder 0 0 0 0 0 0 0 0 0 0 0 0.

(** The twelve assignments of the loop body, from marker [mk] whose
    first two points are [p0] and [p1]. *)
Definition cylinder_of (mk : Marker) (p0 p1 : Vector3d) : Cylinder :=
  let '(qw, qx, qy, qz) := marker_orientation mk in
  mkCylinder (marker_type mk)
             (vec_x (marker_position mk)) (vec_y (marker_position mk))
             (vec_z (marker_position mk))
             (marker_scale_x mk) (vec_z p0)
             (vec_x p1 - vec_x p0)%Q (vec_y p1 - vec_y p0)%Q
             qw qx qy qz.

(** [v[i] = c] on a vector: [None] outside its bounds. *)
Fixpoint set_nth {T : Type} (l : list T) (i : nat) (c : T) : option (list T) :=
  match l, i with
  | [], _ => None
  | _ :: rest, O => Some (c :: rest)
  | x :: rest, S i' =>
      match set_nth rest i' c with
      | Some rest' => Some (x :: rest')
      | None => None
      end
  end.

(** The loop over the markers.  [None] is an access outside
    [gt_cylinders_] or outside the points of a marker. *)
Fixpoint store_markers (cyls : list Cylinder) (markers : list Marker)
  : option (list Cylinder) :=
  match markers with
  | [] => Some cyls
  | mk :: rest =>
      match marker_points mk with
      | p0 :: p1 :: _ =>
          if marker_id mk <? 0 then None
          else
            match set_nth cyls (Z.to_nat (marker_id mk)) (cylinder_of mk p0 p1) with
            | Some cyls' => store_markers cyls' rest
            | None => None
            end
      | _ => None
      end
  end.

(** [FakeParticleRiskVoxel::groundTruthStateCallback]: the new value of
    [gt_cylinders_]. *)
Definition groundTruthStateCallback (markers : list Marker) : option (list Cylinder) :=
  let n := length markers in
  store_markers (repeat empty_cylinder n) markers.

End FakeMapUpdate.

(** * plan_manager.cpp: start-up, the trigger and the event loop *)

Module PlanManagerNode.

Import BaselinePlanner FiniteStateMachine.

Section Node.

Context {A M B Mp Traj HPoly : Type}.
Context {astar : RiskHybridAstar A}.
Context {mader : MADER M Traj}.
Context {bezier : BezierOpt B Traj HPoly}.
Context {corridors : Corridors Mp HPoly}.

Variable planner_cfg : BaselineParameters.
Variable _cfgs : FSMParameters.

Local Abbreviation Planner := (@Planner A M B Mp Traj).
Local Abbreviation FSM := (@FSM A M B Mp Traj).
Local Abbreviation FsmEvent := (@FsmEvent Traj).

(** [FiniteStateMachine::run].  [memory] is the object before the call,
    [drone_id] and [goal] are the values read from the parameter server,
    [planner] is the planner object after [init]. *)
Definition run (memory : FSM) (drone_id : Z) (goal : Vector3d) (planner : Planner) : FSM :=
  mkFSM INIT false false (_waypoints memory ++ [goal]) goal 0
        (_prev_plan_time memory) (_traj_start_time memory) drone_id planner.

Definition with_goal (f : FSM) (received triggered : bool) (waypoints : list Vector3d)
    (goal : Vector3d) : FSM :=
  mkFSM (_status f) received triggered waypoints goal (_traj_idx f) (_prev_plan_time f)
        (_traj_start_time f) (_drone_id f) (_planner f).

(** [FiniteStateMachine::TriggerCallback]; [position] is
    [msg->pose.position]. *)
Definition TriggerCallback (f : FSM) (position : Vector3d) : FSM * list FsmEvent :=
  if _is_exec_triggered f then (f, [])
  else
    let f1 := with_goal f (_is_goal_received f) true (_waypoints f) (_goal f) in
    let f2 :=
      if negb (_is_goal_received f1) then
        match _waypoints f1 with
        | [] =>
            let goal := mkVector3d (vec_x position) (vec_y position) 1 in
            with_goal f1 true true (_waypoints f1 ++ [goal]) goal
        | front :: _ => with_goal f1 true true (_waypoints f1) front
        end
      else f1 in
    (f2, [EvFsmWarn "[FSM] trigger received"]).

(** What the node receives after [run]: the 10 Hz timer and messages on
    [/traj_start_trigger]. *)
Inductive Input : Type :=
| TimerEvent (tk : Tick)
| TriggerMessage (position : Vector3d).

Definition dispatch (f : FSM) (input : Input) : option (FSM * list FsmEvent) :=
  match input with
  | TimerEvent tk => FSMCallback planner_cfg _cfgs f tk
  | TriggerMessage position => Some (TriggerCallback f position)
  end.

(** The callbacks run one after the other, in the order of arrival. *)
Fixpoint spin (f : FSM) (inputs : list Input) : option (FSM * list FsmEvent) :=
  match inputs with
  | [] => Some (f, [])
  | input :: rest =>
      match dispatch f input with
      | None => None
      | Some (f1, evs1) =>
          match spin f1 rest with
          | None => None
          | Some (f2, evs2) => Some (f2, evs1 ++ evs2)
          end
      end
  end.

End Node.

End PlanManagerNode.

(** * test_dsp_map_node.cpp *)

Module TestDspMapNode.

(** [inRange]. *)
Definition inRange (p : Vector3d) : bool :=
  Qgtb (vec_x p) 0 && Qltb (vec_x p) (65 # 10)
  && Qgtb (vec_y p) 0 && Qltb (vec_y p) (65 # 10)
  && Qgtb (vec_z p) 0 && Qltb (vec_z p) (65 # 10).

(** [float valid_clouds_[5000 * 3]]: a write outside the array has no
    defined result. *)
Definition VALID_CLOUDS_SIZE : Z := 5000 * 3.

Definition store (valid_clouds_ : Z -> Q) (i : Z) (v : Q) : option (Z -> Q) :=
  if (0 <=? i) && (i <? VALID_CLOUDS_SIZE)
  then Some (fun j => if j =? i then v else valid_clouds_ j)
  else None.

Section Callback.

(** [R * p] for [R = q.toRotationMatrix()]. *)
Variable R : Vector3d -> Vector3d.

(** The loop of [cloudOdomCallback] over the points of [cloud_filtered]
    that are left, with the [break] at 5000 valid points. *)
Fixpoint filter_loop (points : list Vector3d) (valid_clouds_ : Z -> Q) (n_valid : Z)
  : option ((Z -> Q) * Z) :=
  match points with
  | [] => Some (valid_clouds_, n_valid)
  | p :: rest =>
      let p_w := R p in
      if inRange p_w then
        match store valid_clouds_ (n_valid * 3 + 0) (vec_x p_w) with
        | None => None
        | Some b0 =>
            match store b0 (n_valid * 3 + 1) (vec_y p_w) with
            | None => None
            | Some b1 =>
                match store b1 (n_valid * 3 + 2) (vec_z p_w) with
                | None => None
                | Some b2 =>
                    let n_valid := n_valid + 1 in
                    if n_valid >=? 5000 then Some (b2, n_valid)
                    else filter_loop rest b2 n_valid
                end
            end
        end
      else filter_loop rest valid_clouds_ n_valid
  end.

(** [cloudOdomCallback] up to the call of [dsp_map_->update]: the buffer
    and the number of valid points handed to the map. *)
Definition cloudOdomCallback (cloud_filtered : list Vector3d) (valid_clouds_ : Z -> Q)
  : option ((Z -> Q) * Z) :=
  filter_loop cloud_filtered valid_clouds_ 0.

End Callback.

End TestDspMapNode.

(** * Concrete scenarios

    Small instances of the interfaces, used to run the models. *)

Module Scenarios.

Import Planner.

(** A solver whose first call answers [first], whose later calls answer
    [again], and which reports the corridor satisfied once
    [satisfied_after] re-optimisations were made.  The optimiser state
    counts the re-optimisations; the trajectory is that count. *)
Definition stub_solver (first again : SolverReply) (satisfied_after : nat)
  : CorridorMiniSnap nat nat unit :=
  {| reset := fun _ _ _ _ _ => O;
     optimize := fun o _ _ => (first, o);
     reOptimize := fun o => (again, S o);
     isCorridorSatisfied := fun o _ _ _ _ => (Nat.leb satisfied_after o, o);
     getTrajectory := fun o => o |}.

Definition stub_decomp : DecompUtils unit :=
  {| dynPolyArrayToVector := fun _ => tt;
     dynPolyArrayToTimeAlloc := fun msg => map duration (dyn_polyhedrons msg);
     dynPolyArrayToInitPos := fun msg => mkMatrix3d (start_pos msg) (start_vel msg) (start_acc msg);
     dynPolyArrayToEndPos := fun msg => mkMatrix3d (end_pos msg) (end_vel msg) (end_acc msg) |}.

(** A search that always yields [path], one corridor per node pair. *)
Definition stub_astar (path : list Node) : AstarPlanner :=
  {| v_max_xy := 2;
     v_max_z := 1;
     time_step_node := 4 # 10;
     time_step_trajectory := 1 # 10;
     search := fun _ _ _ _ _ _ => path;
     findCorridors := fun nodes _ => map (fun _ => mkCorridor []) (tl nodes);
     atan2 := fun _ _ => 0%Q |}.

Definition demo_cfg : PlannerConfig :=
  {| max_differentiated_current_a := 5;
     max_vel_optimization := 2;
     max_acc_optimization := 3;
     delta_corridor := 1 # 10;
     factors := [1%Q; 1%Q];
     a_star_search_time_step := 4 # 10;
     expand_safety_distance := 1 # 4;
     goal_x := 5; goal_y := 0; goal_z := 1 |}.

(** The odometry members as the constructor leaves them. *)
Definition odom0 : Odom :=
  mkOdom Vector3d_Zero Vector3d_Zero Vector3d_Zero 0 0 0 0.

(** A hovering sample at t = 1 s, then 1 m/s along x at t = 2 s. *)
Definition vel_msg1 : TwistStamped := mkTwistStamped (mkVector3d 0 0 0).
Definition vel_msg2 : TwistStamped := mkTwistStamped (mkVector3d 1 0 0).

(** A straight path of [n] nodes, one metre apart. *)
Definition line_path (n : nat) : list Node :=
  map (fun k => mkNode 0 (inject_Z (Z.of_nat k)) 0 1 0 0 0) (seq 0 n).

Definition demo_state (o : nat) : @State nat nat :=
  mkState odom0 true Vector3d_Zero 100 false o O.

(** A corridor message with two polytopes of 0.4 s each. *)
Definition demo_corridor_msg : DynPolyhedronArray :=
  mkDynPolyhedronArray Vector3d_Zero Vector3d_Zero Vector3d_Zero
    (mkVector3d 2 0 0) Vector3d_Zero Vector3d_Zero
    [mkDynPolyhedron (4 # 10) [] []; mkDynPolyhedron (4 # 10) [] []].

(** The solver never reaches the corridor but always finds a solution. *)
Definition never_satisfied : CorridorMiniSnap nat nat unit :=
  stub_solver (Solved true) (Solved true) 100.

(** The solver throws something that is not an [int] at the first call. *)
Definition throws_runtime_error : CorridorMiniSnap nat nat unit :=
  stub_solver (Throws (ExOther "std::runtime_error")) (Solved true) 0.

(** *** Plan manager *)

Import BaselinePlanner.

(** A search that answers [code1], then [code2] when asked again, and
    whose path is [route] whatever the sampling step.  The value of
    [NO_PATH] is the one used in these scenarios. *)
Definition stub_search (code1 code2 : Z) (route : list Vector3d) : RiskHybridAstar unit :=
  {| NO_PATH := -1;
     astar_reset := fun a => a;
     astar_search := fun a _ _ _ _ _ (first : bool) => (if first then code1 else code2, a);
     getPath := fun _ _ => route |}.

Definition stub_mader (safe_opt safe_chk : bool) : MADER unit nat :=
  {| mader_getObstaclePoints := fun _ _ => [];
     isSafeAfterOpt := fun m _ => (safe_opt, m);
     isSafeAfterChk := fun m => (safe_chk, m) |}.

Definition stub_bezier (solved : bool) : BezierOpt unit nat unit :=
  {| new_BezierOpt := tt;
     setup := fun b _ _ _ _ _ _ => b;
     optimize := fun b => (solved, b);
     getOptBezier := fun _ => 7%nat |}.

Definition stub_corridors : Corridors unit unit :=
  {| map_getObstaclePoints := fun _ => [];
     convexCover := fun route _ _ _ _ _ => map (fun _ => tt) (tl route) |}.

Definition demo_params : BaselineParameters :=
  {| BaselinePlanner.a_star_search_time_step := 4 # 10; opt_max_vel := 3; opt_max_acc := 4 |}.

(** Six way points along x, one metre apart, at 1 m height. *)
Definition demo_route : list Vector3d :=
  map (fun k => mkVector3d (inject_Z (Z.of_nat k)) 0 1) (seq 0 6).

Definition demo_planner : @BaselinePlanner.Planner unit unit unit unit nat :=
  mkPlanner (mkVector3d 0 0 1) Vector3d_Zero Vector3d_Zero (mkVector3d 5 0 1)
            tt tt tt tt 0%nat 0.

Import FiniteStateMachine.

Definition demo_fsm_params : FSMParameters :=
  {| goal_tolerance := 1; replan_tolerance := 1; replan_duration := 1 # 10 |}.

Definition demo_fsm (st : FSM_STATUS) : @FSM unit unit unit unit nat :=
  mkFSM st true true [mkVector3d 5 0 1] (mkVector3d 5 0 1) 0 0 0 0 demo_planner.

(** A tick during which the inputs are present, the replan period has
    not elapsed and the goal is not reached. *)
Definition quiet_tick : Tick :=
  {| now := 3; isInputLost := false; checkTimeLapse := fun _ => false;
     isGoalReached := fun _ => false |}.

(** *** Risk map *)

Import FakeParticleRiskVoxel.

(** A map of 2 x 2 x 2 voxels of 1 m with 3 time slices.  The integer
    helpers follow the layout of [risk_voxel.h]: the relative index of a
    point is its offset from the lower corner divided by the resolution,
    and the linear index is [z * 4 + y * 2 + x]. *)
Definition small_grid : MapBase :=
  {| PREDICTION_TIMES := 3;
     VOXEL_NUM := 8;
     getVoxelRelIndex := fun p =>
       mkVector3i (Qfloor (vec_x p + 1)) (Qfloor (vec_y p + 1)) (Qfloor (vec_z p + 1));
     isInRange := fun p =>
       (0 <=? ivec_x p) && (ivec_x p <? 2) && (0 <=? ivec_y p) && (ivec_y p <? 2)
       && (0 <=? ivec_z p) && (ivec_z p <? 2);
     getVoxelIndex := fun p => ivec_z p * 4 + ivec_y p * 2 + ivec_x p |}.

(** Slices 0.2 s apart; voxel 0 is occupied in slice 1 only; the kernel
    is the voxel itself. *)
Definition small_map : Map :=
  {| pose_ := Vector3d_Zero;
     time_resolution_ := 2 # 10;
     risk_threshold_ := 1 # 2;
     inflate_kernel_ := [mkVector3i 0 0 0];
     risk_maps_ := fun idx t => if (idx =? 0) && (t =? 1) then 1%Q else 0%Q |}.

(** A point of voxel 0 and a point outside the map. *)
Definition inside_point : Vector3d := mkVector3d (- (1 # 2)) (- (1 # 2)) (- (1 # 2)).
Definition outside_point : Vector3d := mkVector3d 5 0 0.

End Scenarios.

(** * More concrete scenarios *)

Module MoreScenarios.

(** A [RiskVoxel] grid of 4 x 4 x 2 voxels of 0.5 m centred at
    (10, 20, 1): ranges of 1 m, 1 m and 0.5 m. *)
Definition grid_4_4_2 : RiskVoxel.MapSize :=
  {| RiskVoxel.MAP_LENGTH_VOXEL_NUM := 4;
     RiskVoxel.MAP_WIDTH_VOXEL_NUM := 4;
     RiskVoxel.MAP_HEIGHT_VOXEL_NUM := 2 |}.

Definition voxel_fields : RiskVoxel.Fields :=
  RiskVoxel.mkFields (mkVector3d 10 20 1) (1 # 2) 1 1 (1 # 2).

(** The planner's map: 4 x 3 x 2 voxels of 0.5 m, three risk slices. *)
Definition planner_macros : PlannerNode.MapMacros :=
  {| PlannerNode.MAP_LENGTH_VOXEL_NUM := 4;
     PlannerNode.MAP_WIDTH_VOXEL_NUM := 3;
     PlannerNode.MAP_HEIGHT_VOXEL_NUM := 2;
     PlannerNode.VOXEL_RESOLUTION := 1 # 2;
     PlannerNode.VOXEL_NUM := 24;
     PlannerNode.RISK_MAP_NUMBER := 3 |}.

(** The point overloads for the small grid: through the voxel offset. *)
Definition small_grid_points : FakeMapUpdate.PointHelpers :=
  {| FakeMapUpdate.isInRange_f := fun p =>
       @FakeParticleRiskVoxel.isInRange Scenarios.small_grid
         (@FakeParticleRiskVoxel.getVoxelRelIndex Scenarios.small_grid p);
     FakeMapUpdate.getVoxelIndex_f := fun p =>
       @FakeParticleRiskVoxel.getVoxelIndex Scenarios.small_grid
         (@FakeParticleRiskVoxel.getVoxelRelIndex Scenarios.small_grid p) |}.

(** Two ground-truth markers: a cylinder (type 3) with id 1 and a ring
    (type 2) with id 0. *)
Definition demo_markers : list FakeMapUpdate.Marker :=
  [FakeMapUpdate.mkMarker 1 3 (mkVector3d 2 3 0) (1, 0, 0, 0)%Q (3 # 10)
     [mkVector3d 0 0 2; mkVector3d 1 0 2];
   FakeMapUpdate.mkMarker 0 2 (mkVector3d 5 5 1) (1, 0, 0, 0)%Q 2
     [mkVector3d 0 0 0; mkVector3d 0 (1 # 2) 0]].

(** A planner whose odometry velocity is (5, -3, 0.5). *)
Definition fast_state : @Planner.State nat nat :=
  Planner.mkState
    (Planner.mkOdom Vector3d_Zero (mkVector3d 5 (- 3) (1 # 2)) Vector3d_Zero 0 0 0 0)
    true Vector3d_Zero 100 false O O.

(** A planner map of two voxels with two risk slices, and a risk message
    for it: four cells with stride 2, then the map centre (7, 8, 9). *)
Definition tiny_macros : PlannerNode.MapMacros :=
  {| PlannerNode.MAP_LENGTH_VOXEL_NUM := 2;
     PlannerNode.MAP_WIDTH_VOXEL_NUM := 1;
     PlannerNode.MAP_HEIGHT_VOXEL_NUM := 1;
     PlannerNode.VOXEL_RESOLUTION := 1 # 2;
     PlannerNode.VOXEL_NUM := 2;
     PlannerNode.RISK_MAP_NUMBER := 2 |}.

Definition tiny_risk_message : PlannerNode.Float32MultiArray :=
  PlannerNode.mkFloat32MultiArray
    [0%Q; (1 # 2)%Q; (1 # 4)%Q; 1%Q; 7%Q; 8%Q; 9%Q] [2; 1].

(** The memory the planner object is constructed in. *)
Definition raw_object : @PlannerNode.Object nat nat :=
  PlannerNode.mkObject (Scenarios.demo_state 0) (PlannerNode.mkQuaternion 0 0 0 1)
    (fun _ _ => 0%Q) (@PlannerNode.constructor_map tiny_macros)
    true true true true true.

(** A risk message, a pose, a velocity and two timer events. *)
Definition demo_inputs : list PlannerNode.Input :=
  [PlannerNode.RiskMessage tiny_risk_message;
   PlannerNode.PoseMessage
     (PlannerNode.mkPoseStamped (mkVector3d 1 2 3) (PlannerNode.mkQuaternion 0 0 0 1));
   PlannerNode.VelocityMessage Scenarios.vel_msg2 1 1;
   PlannerNode.TimerEvent true;
   PlannerNode.TimerEvent false].

(** *** Plan manager *)

(** The supervisor object before [run]: the queue of way points is
    empty. *)
Definition raw_fsm : @FiniteStateMachine.FSM unit unit unit unit nat :=
  FiniteStateMachine.mkFSM FiniteStateMachine.EXIT true true [] (mkVector3d 9 9 9) 5 0 0 0
    Scenarios.demo_planner.

(** A tick during which the input is lost, one at which the replan period
    has elapsed, and one at which the goal is reached. *)
Definition lost_tick : FiniteStateMachine.Tick :=
  {| FiniteStateMachine.now := 4; FiniteStateMachine.isInputLost := true;
     FiniteStateMachine.checkTimeLapse := fun _ => true;
     FiniteStateMachine.isGoalReached := fun _ => false |}.

Definition replan_tick : FiniteStateMachine.Tick :=
  {| FiniteStateMachine.now := 5; FiniteStateMachine.isInputLost := false;
     FiniteStateMachine.checkTimeLapse := fun _ => true;
     FiniteStateMachine.isGoalReached := fun _ => false |}.

Definition arrival_tick : FiniteStateMachine.Tick :=
  {| FiniteStateMachine.now := 6; FiniteStateMachine.isInputLost := false;
     FiniteStateMachine.checkTimeLapse := fun _ => false;
     FiniteStateMachine.isGoalReached := fun _ => true |}.

(** A flight towards the goal: the supervisor starts, is triggered with a
    clicked position, plans and publishes, replans and publishes again. *)
Definition outbound_inputs : list PlanManagerNode.Input :=
  [PlanManagerNode.TimerEvent Scenarios.quiet_tick;
   PlanManagerNode.TriggerMessage (mkVector3d 8 8 8);
   PlanManagerNode.TimerEvent Scenarios.quiet_tick;
   PlanManagerNode.TimerEvent Scenarios.quiet_tick;
   PlanManagerNode.TimerEvent replan_tick;
   PlanManagerNode.TimerEvent Scenarios.quiet_tick].

(** The same flight, followed by the tick at which the goal is reached. *)
Definition mission_inputs : list PlanManagerNode.Input :=
  outbound_inputs ++ [PlanManagerNode.TimerEvent arrival_tick].

End MoreScenarios.

(** * Predicates on traces and states

    Used to state the properties below. *)

Section TraceFunctions.

Import Planner.

Definition is_reoptimize (e : Event) : bool :=
  match e with EvReOptimize _ => true | _ => false end.

(** Number of calls of [reOptimize] in a trace. *)
Definition count_reoptimize (evs : list Event) : nat :=
  length (filter is_reoptimize evs).

(** Every call of [reOptimize] comes directly after a corridor test that
    answered [false].  [unsat] tells whether the previous event was such a
    test. *)
Fixpoint reoptimize_guarded (unsat : bool) (evs : list Event) : bool :=
  match evs with
  | [] => true
  | EvReOptimize _ :: rest => unsat && reoptimize_guarded false rest
  | EvIsCorridorSatisfied b :: rest => reoptimize_guarded (negb b) rest
  | _ :: rest => reoptimize_guarded false rest
  end.

(** The last event of a trace. *)
Definition last_event (evs : list Event) : Event := last evs EvReset.

(** The trace reports a solver call that threw an [int] or answered
    "not solved". *)
Definition solver_failed (evs : list Event) : Prop :=
  (exists e, In (EvOptimize (Throws (ExInt e))) evs) \/
  (exists e, In (EvReOptimize (Throws (ExInt e))) evs) \/
  In (EvOptimize (Solved false)) evs \/
  In (EvReOptimize (Solved false)) evs.

(** The solver call that threw [e] is in the trace. *)
Definition solver_threw (e : Exn) (evs : list Event) : Prop :=
  In (EvOptimize (Throws e)) evs \/ In (EvReOptimize (Throws e)) evs.

End TraceFunctions.

(** What one run of the loop guarantees, started with counter [i]:
    [c] is how the routine ends, [evs] the calls made by the loop. *)
Record loop_run (I i : Z) (c : Completion bool) (evs : list Planner.Event) : Prop := mk_loop_run {
  run_count : Z.of_nat (count_reoptimize evs) <= I - i;
  run_guarded : reoptimize_guarded false evs = true;
  run_nonempty : evs <> [];
  run_no_optimize : forall reply, ~ In (Planner.EvOptimize reply) evs;
  run_capped :
    last_event evs = Planner.EvIsCorridorSatisfied false ->
    c = FellOffEnd /\ Z.of_nat (count_reoptimize evs) = I - i;
  run_satisfied : last_event evs = Planner.EvIsCorridorSatisfied true -> c = FellOffEnd;
  run_never_true : forall b, c = Returned b -> b = false;
  run_failed : solver_failed evs <-> c = Returned false;
  run_escape : forall e,
    c = Propagated e <-> ((exists w, e = ExOther w) /\ solver_threw e evs)
}.

(** What one call of the routine guarantees. *)
Record routine_run (c : Completion bool) (evs : list Planner.Event) : Prop := mk_routine_run {
  opt_called : exists reply, In (Planner.EvOptimize reply) evs;
  opt_count : (count_reoptimize evs <= 10)%nat;
  opt_guarded : reoptimize_guarded false evs = true;
  opt_capped :
    last_event evs = Planner.EvIsCorridorSatisfied false ->
    c = FellOffEnd /\ count_reoptimize evs = 10%nat;
  opt_satisfied : last_event evs = Planner.EvIsCorridorSatisfied true -> c = FellOffEnd;
  opt_never_true : forall b, c = Returned b -> b = false;
  opt_failed : solver_failed evs <-> c = Returned false;
  opt_escape : forall e,
    c = Propagated e <-> ((exists w, e = ExOther w) /\ solver_threw e evs)
}.

(** The outputs of a cycle that failed in the search: log lines, the
    record of the search itself, and the calls that clear the displayed
    path and corridors. *)
Definition failure_output (e : Planner.Event) : bool :=
  match e with
  | Planner.EvRosWarn _ | Planner.EvSearch _ => true
  | Planner.EvVisualizeAstarPath [] _ true => true
  | Planner.EvVisualizeCorridors O true => true
  | _ => false
  end.

Definition is_search (e : BaselinePlanner.Event) : Prop :=
  exists b r, e = BaselinePlanner.EvSearch b r.

Section Successor.

Import BaselinePlanner FiniteStateMachine.

Context {A M B Mp Traj : Type}.
Variable _cfgs : FSMParameters.

(** The successor of [EXEC_TRAJ] as the code computes it. *)
Definition exec_traj_successor (f : @FSM A M B Mp Traj) (tk : Tick) : FSM_STATUS :=
  if isInputLost tk then WAIT_TARGET
  else if isGoalReached tk (getPos (_planner f)) then GOAL_REACHED
  else if checkTimeLapse tk (replan_duration _cfgs) then REPLAN
  else EXEC_TRAJ.

End Successor.

(** A colour whose three components lie between 0 and 1. *)
Definition in_unit_cube (c : Vector3d) : Prop :=
  (0 <= vec_x c <= 1)%Q /\ (0 <= vec_y c <= 1)%Q /\ (0 <= vec_z c <= 1)%Q.

(** The update range of a [RiskVoxel] map fits its voxel grid: positive
    resolution and dimensions, and twice each range is at most the
    extent of the grid along that axis. *)
Definition range_fits_grid {size : RiskVoxel.MapSize} (m : RiskVoxel.Fields) : Prop :=
  (0 < RiskVoxel.resolution_ m)%Q /\
  0 < RiskVoxel.MAP_LENGTH_VOXEL_NUM /\
  0 < RiskVoxel.MAP_WIDTH_VOXEL_NUM /\
  0 < RiskVoxel.MAP_HEIGHT_VOXEL_NUM /\
  (2 * RiskVoxel.local_update_range_x_ m
   <= inject_Z RiskVoxel.MAP_LENGTH_VOXEL_NUM * RiskVoxel.resolution_ m)%Q /\
  (2 * RiskVoxel.local_update_range_y_ m
   <= inject_Z RiskVoxel.MAP_WIDTH_VOXEL_NUM * RiskVoxel.resolution_ m)%Q /\
  (2 * RiskVoxel.local_update_range_z_ m
   <= inject_Z RiskVoxel.MAP_HEIGHT_VOXEL_NUM * RiskVoxel.resolution_ m)%Q.

(** [lo <= p < lo + res] on each axis: [p] lies in the voxel of size
    [res] whose lower corner is [lo]. *)
Definition in_voxel (lo : Vector3d) (res : Q) (p : Vector3d) : Prop :=
  (vec_x lo <= vec_x p < vec_x lo + res)%Q /\
  (vec_y lo <= vec_y p < vec_y lo + res)%Q /\
  (vec_z lo <= vec_z p < vec_z lo + res)%Q.

(** [p] lies in the box of the planner's map centred at [c]. *)
Definition in_map_box (lim : PlannerNode.MapLimits) (c p : Vector3d) : Prop :=
  (vec_x c - PlannerNode._map_half_length lim <= vec_x p
   < vec_x c + PlannerNode._map_half_length lim)%Q /\
  (vec_y c - PlannerNode._map_half_width lim <= vec_y p
   < vec_y c + PlannerNode._map_half_width lim)%Q /\
  (vec_z c - PlannerNode._map_half_height lim <= vec_z p
   < vec_z c + PlannerNode._map_half_height lim)%Q.

(** The total risk, at slice [t], of the kernel cells around [pos_i]
    that lie in range. *)
Fixpoint kernel_risk {base : FakeParticleRiskVoxel.MapBase}
    (m : FakeParticleRiskVoxel.Map) (pos_i : Vector3i) (t : Z) (kernel : list Vector3i) : Q :=
  match kernel with
  | [] => 0
  | ego_i :: rest =>
      let p := ivec_add pos_i ego_i in
      if FakeParticleRiskVoxel.isInRange p
      then (FakeParticleRiskVoxel.risk_maps_ m (FakeParticleRiskVoxel.getVoxelIndex p) t
            + kernel_risk m pos_i t rest)%Q
      else kernel_risk m pos_i t rest
  end.

(** Every kernel cell around [pos_i] that is in range has its index
    inside the voxel array and a nonnegative risk at slice [t]. *)
Definition cells_readable {base : FakeParticleRiskVoxel.MapBase}
    (m : FakeParticleRiskVoxel.Map) (pos_i : Vector3i) (t : Z) (kernel : list Vector3i) : Prop :=
  forall ego_i, In ego_i kernel ->
    FakeParticleRiskVoxel.isInRange (ivec_add pos_i ego_i) = true ->
    0 <= FakeParticleRiskVoxel.getVoxelIndex (ivec_add pos_i ego_i)
      < FakeParticleRiskVoxel.VOXEL_NUM /\
    (0 <= FakeParticleRiskVoxel.risk_maps_ m
            (FakeParticleRiskVoxel.getVoxelIndex (ivec_add pos_i ego_i)) t)%Q.

(** Some point of [pts] is in range and falls into voxel [i]. *)
Definition hits {helpers : FakeMapUpdate.PointHelpers} (pts : list Vector3d) (i : Z) : bool :=
  existsb (fun pt => FakeMapUpdate.isInRange_f pt && (FakeMapUpdate.getVoxelIndex_f pt =? i))
          pts.

(** A marker the ground-truth loop cannot store in a vector of [n]
    cylinders. *)
Definition bad_marker (n : nat) (mk : FakeMapUpdate.Marker) : Prop :=
  FakeMapUpdate.marker_id mk < 0 \/ Z.of_nat n <= FakeMapUpdate.marker_id mk \/
  (length (FakeMapUpdate.marker_points mk) < 2)%nat.

(** A risk message the planner can copy: the layout has a first
    dimension, every cell [i * stride + j] of the tensor and the three
    trailing values of the map centre lie inside the data. *)
Definition message_fits {macros : PlannerNode.MapMacros}
    (msg : PlannerNode.Float32MultiArray) : Prop :=
  exists stride,
    nth_error (PlannerNode.layout_dim_stride msg) 0 = Some stride /\
    (forall i j, 0 <= i < PlannerNode.VOXEL_NUM -> 0 <= j < PlannerNode.RISK_MAP_NUMBER ->
                 0 <= i * stride + j < Z.of_nat (length (PlannerNode.data msg))) /\
    0 <= PlannerNode.VOXEL_NUM * PlannerNode.RISK_MAP_NUMBER /\
    PlannerNode.VOXEL_NUM * PlannerNode.RISK_MAP_NUMBER + 3
    <= Z.of_nat (length (PlannerNode.data msg)).

(** ** Predicates on the plan manager *)

(** The states the supervisor is in while it runs, and what they imply
    for the goal flag and the queue of way points. *)
Definition fsm_invariant {A M B Mp Traj : Type}
    (f : @FiniteStateMachine.FSM A M B Mp Traj) : Prop :=
  (FiniteStateMachine._status f = FiniteStateMachine.INIT \/
   FiniteStateMachine._status f = FiniteStateMachine.WAIT_TARGET \/
   FiniteStateMachine._status f = FiniteStateMachine.REPLAN \/
   FiniteStateMachine._status f = FiniteStateMachine.EXEC_TRAJ \/
   FiniteStateMachine._status f = FiniteStateMachine.GOAL_REACHED) /\
  (FiniteStateMachine._status f = FiniteStateMachine.REPLAN \/
   FiniteStateMachine._status f = FiniteStateMachine.EXEC_TRAJ \/
   FiniteStateMachine._status f = FiniteStateMachine.GOAL_REACHED ->
   FiniteStateMachine._is_goal_received f = true) /\
  (FiniteStateMachine._is_goal_received f = true ->
   hd_error (FiniteStateMachine._waypoints f) = Some (FiniteStateMachine._goal f)).

(** The [traj_id] of the messages sent on [trajectory], and of those sent
    on [/broadcast_traj], oldest first. *)
Definition published_ids {Traj : Type} (evs : list (@FiniteStateMachine.FsmEvent Traj))
  : list Z :=
  flat_map (fun e => match e with
                     | FiniteStateMachine.EvTrajPub msg => [FiniteStateMachine.traj_id msg]
                     | _ => []
                     end) evs.

Definition broadcast_ids {Traj : Type} (evs : list (@FiniteStateMachine.FsmEvent Traj))
  : list Z :=
  flat_map (fun e => match e with
                     | FiniteStateMachine.EvBroadcastTrajPub msg =>
                         [FiniteStateMachine.traj_id msg]
                     | _ => []
                     end) evs.

(** No timer tick of the list sees the goal reached. *)
Definition goal_never_reached (inputs : list PlanManagerNode.Input) : Prop :=
  forall tk, In (PlanManagerNode.TimerEvent tk) inputs ->
             forall p, FiniteStateMachine.isGoalReached tk p = false.

(** The calls of [search] in a trace of [plan], oldest first. *)
Definition searches (evs : list BaselinePlanner.Event) : list (bool * Z) :=
  flat_map (fun e => match e with
                     | BaselinePlanner.EvSearch flag rst => [(flag, rst)]
                     | _ => []
                     end) evs.

(** The points of a cloud that [cloudOdomCallback] keeps, were there no
    bound on their number. *)
Definition valid_points (R : Vector3d -> Vector3d) (cloud : list Vector3d) : list Vector3d :=
  filter TestDspMapNode.inRange (map R cloud).

(** * Properties of multi_planning.cpp *)

Section VelocityDifferentiator.

Import Planner.

(** [VelCallback] never writes [_odom_acc]: the flag is reset to [true]
    at every call, so the differentiating branch is never taken. *)
Lemma VelCallback_acc_unchanged (cfg : PlannerConfig) (s : Odom) (msg : TwistStamped)
    (now_diff now_end : Q) :
  _odom_acc (VelCallback cfg s msg now_diff now_end) = _odom_acc s.
Proof. reflexivity. Qed.

(** The persistent pair is refreshed at every call. *)
Lemma VelCallback_prev (cfg : PlannerConfig) (s : Odom) (msg : TwistStamped)
    (now_diff now_end : Q) :
  let s' := VelCallback cfg s msg now_diff now_end in
  _prev_t s' = now_end /\
  mkVector3d (_prev_vx s') (_prev_vy s') (_prev_vz s') = twist_linear msg /\
  _odom_vel s' = twist_linear msg.
Proof. destruct msg as [[x y z]]; repeat split. Qed.

(** C1 (evaluated on the code).  Two velocity samples, (0,0,0) at 1 s and
    (1,0,0) at 2 s, with a clipping bound of 5: the specified
    differentiator yields 1 m/s^2 along x for the second sample, while
    [VelCallback] leaves the stored acceleration at its old value 0. *)
Theorem VelCallback_second_sample_not_differentiated :
  let s1 := VelCallback Scenarios.demo_cfg Scenarios.odom0 Scenarios.vel_msg1 1 1 in
  let s2 := VelCallback Scenarios.demo_cfg s1 Scenarios.vel_msg2 2 2 in
  let expected :=
    differentiator_spec Scenarios.demo_cfg
      (mkVector3d (_prev_vx s1) (_prev_vy s1) (_prev_vz s1)) (_prev_t s1)
      (twist_linear Scenarios.vel_msg2) 2 in
  vec_x expected == 1 /\
  _odom_acc s2 = _odom_acc Scenarios.odom0 /\
  vec_x (_odom_acc s2) == 0 /\
  ~ vec_x (_odom_acc s2) == vec_x expected.
Proof.
  cbv zeta. repeat split.
  - intro H. vm_compute in H. discriminate H.
Qed.

End VelocityDifferentiator.

(** ** The corridor optimisation routine *)


Section OptimizationFacts.

Import Planner.

Context {Opt Traj Polys : Type}.
Context {solver : CorridorMiniSnap Opt Traj Polys}.
Context {decomp : DecompUtils Polys}.
Variable cfg : PlannerConfig.

Lemma last_event_app (pre : list Event) (e : Event) (evs : list Event) :
  last_event (pre ++ e :: evs) = last_event (e :: evs).
Proof.
  unfold last_event. induction pre as [|x pre IH]; [reflexivity|].
  simpl. destruct (pre ++ e :: evs) eqn:E; [destruct pre; discriminate|exact IH].
Qed.

Lemma count_reoptimize_app (a b : list Event) :
  count_reoptimize (a ++ b) = (count_reoptimize a + count_reoptimize b)%nat.
Proof. unfold count_reoptimize. rewrite filter_app, length_app. reflexivity. Qed.

Lemma last_event_cons (e e' : Event) (evs : list Event) :
  last_event (e :: e' :: evs) = last_event (e' :: evs).
Proof. reflexivity. Qed.

(** Discharges the obligations of [loop_run] on a trace written out in
    full. *)
Ltac closed_trace :=
  constructor; unfold solver_failed, solver_threw, count_reoptimize, last_event; simpl;
  try lia; try reflexivity; try discriminate;
  try (intros; intuition (try discriminate; try congruence; try lia); fail);
  try (intros; split; intros;
       repeat match goal with
              | H : _ /\ _ |- _ => destruct H
              | H : _ \/ _ |- _ => destruct H
              | H : exists _, _ |- _ => destruct H
              | H : False |- _ => destruct H
              | H : Returned _ = Returned _ |- _ => inversion H; clear H; subst
              | H : Propagated _ = Propagated _ |- _ => inversion H; clear H; subst
              | H : EvReOptimize _ = EvReOptimize _ |- _ => inversion H; clear H; subst
              end;
       try discriminate; try reflexivity; eauto 10; fail).

Lemma tighten_run (fuel : nat) :
  forall (I i : Z) (o : Opt) (traj : Traj),
    0 <= i <= I -> I - i <= Z.of_nat fuel ->
    exists c o' traj' evs,
      tighten cfg fuel I i o traj = Some (c, o', traj', evs) /\ loop_run I i c evs.
Proof.
  induction fuel as [|fuel IH]; intros I i o traj Hi Hfuel; simpl.
  - destruct (isCorridorSatisfied o traj _ _ _) as [sat o1].
    destruct sat; [solve [do 4 eexists; split; [reflexivity|closed_trace]]|].
    destruct (Z.ltb_spec i I); [lia|].
    solve [do 4 eexists; split; [reflexivity|closed_trace]].
  - destruct (isCorridorSatisfied o traj _ _ _) as [sat o1].
    destruct sat; [solve [do 4 eexists; split; [reflexivity|closed_trace]]|].
    destruct (Z.ltb_spec i I);
      [|solve [do 4 eexists; split; [reflexivity|closed_trace]]].
    destruct (reOptimize o1) as [reply o2].
    destruct reply as [[|]|[z|w]];
      try solve [do 4 eexists; split; [reflexivity|closed_trace]].
    destruct (IH I (i + 1) o2 (getTrajectory o2)) as (c & o' & traj' & evs & Hrun & Hspec);
      [lia|lia|].
    rewrite Hrun. simpl.
    do 4 eexists; split; [reflexivity|].
    destruct Hspec.
    destruct evs as [|e0 evs]; [congruence|].
    constructor.
    + change (EvIsCorridorSatisfied false :: EvReOptimize (Solved true)
                :: EvGetTrajectory :: e0 :: evs)
        with ([EvIsCorridorSatisfied false; EvReOptimize (Solved true); EvGetTrajectory]
                ++ e0 :: evs).
      rewrite count_reoptimize_app. change (count_reoptimize _) with 1%nat at 1. lia.
    + exact run_guarded0.
    + discriminate.
    + intros reply [H'|[H'|[H'|H']]]; try discriminate. exact (run_no_optimize0 reply H').
    + rewrite !last_event_cons. intros Hl. destruct (run_capped0 Hl) as [-> Hc].
      split; [reflexivity|].
      change (EvIsCorridorSatisfied false :: EvReOptimize (Solved true)
                :: EvGetTrajectory :: e0 :: evs)
        with ([EvIsCorridorSatisfied false; EvReOptimize (Solved true); EvGetTrajectory]
                ++ e0 :: evs).
      rewrite count_reoptimize_app. change (count_reoptimize _) with 1%nat at 1. lia.
    + rewrite !last_event_cons. exact run_satisfied0.
    + exact run_never_true0.
    + rewrite <- run_failed0. unfold solver_failed. simpl.
      split; intros H'; intuition (try discriminate);
        repeat match goal with
               | H : exists _, _ |- _ => destruct H
               | H : _ \/ _ |- _ => destruct H
               end; try discriminate; eauto 10.
    + intros e. rewrite run_escape0. unfold solver_threw. simpl.
      split; intros [Hw H']; (split; [exact Hw|]); intuition (try discriminate).
Qed.

Lemma OptimizationInCorridors_run (o : Opt) (traj : Traj) (msg : DynPolyhedronArray)
    (c_start : Vector3d) :
  exists c o' traj' evs,
    OptimizationInCorridors cfg o traj msg c_start = Some (c, o', traj', evs) /\
    routine_run c evs.
Proof.
  unfold OptimizationInCorridors.
  destruct (optimize _ _ _) as [reply o1].
  destruct reply as [[|]|[z|w]].
  2-4: do 4 eexists; split; [reflexivity|];
       constructor; unfold solver_failed, solver_threw, count_reoptimize, last_event; simpl;
       try lia; try reflexivity; try discriminate; eauto;
       try (intros; split; intros;
            repeat match goal with
                   | H : _ /\ _ |- _ => destruct H
                   | H : _ \/ _ |- _ => destruct H
                   | H : exists _, _ |- _ => destruct H
                   | H : False |- _ => destruct H
                   | H : Returned _ = Returned _ |- _ => inversion H; clear H; subst
                   | H : Propagated _ = Propagated _ |- _ => inversion H; clear H; subst
                   | H : EvOptimize _ = EvOptimize _ |- _ => inversion H; clear H; subst
                   end;
            try discriminate; try reflexivity; eauto 10; fail);
       try (intros b H; inversion H; reflexivity).
  destruct (tighten_run 10 10 0 o1 (getTrajectory o1)) as (c & o' & traj' & evs & Hrun & Hspec);
    [lia|simpl; lia|].
  change (Z.to_nat 10) with 10%nat. rewrite Hrun. simpl.
  do 4 eexists; split; [reflexivity|].
  destruct Hspec. destruct evs as [|e0 evs]; [congruence|].
  assert (Hcount : count_reoptimize
                     (EvReset :: EvOptimize (Solved true) :: EvGetTrajectory :: e0 :: evs)
                   = count_reoptimize (e0 :: evs)) by reflexivity.
  constructor.
  - exists (Solved true). simpl. auto.
  - rewrite Hcount. lia.
  - exact run_guarded0.
  - rewrite !last_event_cons, Hcount. intros Hl. destruct (run_capped0 Hl). split; [assumption|lia].
  - rewrite !last_event_cons. exact run_satisfied0.
  - exact run_never_true0.
  - rewrite <- run_failed0. unfold solver_failed. simpl.
    split; intros H'; intuition (try discriminate);
      repeat match goal with
             | H : exists _, _ |- _ => destruct H
             | H : _ \/ _ |- _ => destruct H
             end; try discriminate; eauto 10.
  - intros e. rewrite run_escape0. unfold solver_threw. simpl.
    split; intros [Hw H']; (split; [exact Hw|]); intuition (try discriminate).
Qed.

(** A run of the loop that ends at the closing brace made its last
    corridor test on the trajectory it keeps, and this trajectory is the
    one the loop started with or the one read after the last successful
    re-optimisation. *)
Lemma tighten_trajectory (fuel : nat) :
  forall (I i : Z) (o : Opt) (traj : Traj) (o' : Opt) (traj' : Traj) (evs : list Event),
    tighten cfg fuel I i o traj = Some (FellOffEnd, o', traj', evs) ->
    exists o_s b,
      isCorridorSatisfied o_s traj' (max_vel_optimization cfg) (max_acc_optimization cfg)
                          (delta_corridor cfg) = (b, o') /\
      last_event evs = EvIsCorridorSatisfied b /\
      ((count_reoptimize evs = 0%nat /\ o_s = o /\ traj' = traj) \/
       (exists o_b, reOptimize o_b = (Solved true, o_s) /\ traj' = getTrajectory o_s)).
Proof.
  induction fuel as [|fuel IH]; intros I i o traj o' traj' evs Hrun; simpl in Hrun.
  - destruct (isCorridorSatisfied o traj _ _ _) as [sat o1] eqn:Hsat.
    destruct sat.
    + inversion Hrun; subst. exists o, true. repeat split; auto.
    + destruct (i <? I); [discriminate|].
      inversion Hrun; subst. exists o, false. repeat split; auto.
  - destruct (isCorridorSatisfied o traj _ _ _) as [sat o1] eqn:Hsat.
    destruct sat.
    + inversion Hrun; subst. exists o, true. repeat split; auto.
    + destruct (i <? I).
      * destruct (reOptimize o1) as [reply o2] eqn:Hre.
        destruct reply as [[|]|[z|w]]; try discriminate.
        destruct (tighten cfg fuel I (i + 1) o2 (getTrajectory o2))
          as [[[[c2 o2'] traj2] evs2]|] eqn:Hrec; [|discriminate].
        simpl in Hrun. inversion Hrun; subst.
        destruct (IH _ _ _ _ _ _ _ Hrec) as (o_s & b & Htest & Hlast & Hfrom).
        exists o_s, b. split; [exact Htest|]. split.
        -- destruct evs2 as [|e0 evs2]; [discriminate Hlast|].
           rewrite !last_event_cons. exact Hlast.
        -- right. destruct Hfrom as [(_ & -> & ->)|Hfrom]; [|exact Hfrom].
           exists o1. auto.
      * inversion Hrun; subst. exists o, false. repeat split; auto.
Qed.

Lemma OptimizationInCorridors_trajectory (o : Opt) (traj : Traj) (msg : DynPolyhedronArray)
    (c_start : Vector3d) (o' : Opt) (traj' : Traj) (evs : list Event) :
  OptimizationInCorridors cfg o traj msg c_start = Some (FellOffEnd, o', traj', evs) ->
  exists o_s b,
    traj' = getTrajectory o_s /\
    isCorridorSatisfied o_s traj' (max_vel_optimization cfg) (max_acc_optimization cfg)
                        (delta_corridor cfg) = (b, o') /\
    last_event evs = EvIsCorridorSatisfied b /\
    ((count_reoptimize evs = 0%nat /\
      optimize (reset o (dynPolyArrayToInitPos msg) (dynPolyArrayToEndPos msg)
                      (dynPolyArrayToTimeAlloc msg) (dynPolyArrayToVector msg))
               (factors cfg) (delta_corridor cfg) = (Solved true, o_s)) \/
     (exists o_b, reOptimize o_b = (Solved true, o_s))).
Proof.
  unfold OptimizationInCorridors.
  destruct (optimize _ _ _) as [reply o1] eqn:Hopt.
  destruct reply as [[|]|[z|w]]; try discriminate.
  change (Z.to_nat 10) with 10%nat.
  destruct (tighten cfg 10 10 0 o1 (getTrajectory o1))
    as [[[[c2 o2'] traj2] evs2]|] eqn:Hrec; [|discriminate].
  simpl. intros Hrun. inversion Hrun; subst.
  destruct (tighten_trajectory _ _ _ _ _ _ _ _ Hrec) as (o_s & b & Htest & Hlast & Hfrom).
  exists o_s, b.
  assert (Hlast' : last_event (EvReset :: EvOptimize (Solved true) :: EvGetTrajectory :: evs2)
                   = EvIsCorridorSatisfied b).
  { destruct evs2 as [|e0 evs2]; [discriminate Hlast|].
    rewrite !last_event_cons. exact Hlast. }
  destruct Hfrom as [(Hcount & -> & ->)|(o_b & Hre & ->)].
  - split; [reflexivity|]. split; [exact Htest|]. split; [exact Hlast'|].
    left. split; [exact Hcount|reflexivity].
  - split; [reflexivity|]. split; [exact Htest|]. split; [exact Hlast'|].
    right. exists o_b. exact Hre.
Qed.


End OptimizationFacts.

(** ** The planning timer callback *)

Section TimerFacts.

Import Planner.

Context {Opt Traj Polys : Type}.
Context {solver : CorridorMiniSnap Opt Traj Polys}.
Context {decomp : DecompUtils Polys}.
Context {astar : AstarPlanner}.
Variable cfg : PlannerConfig.

Lemma TrajTimerCallback_searched (s : @State Opt Traj) (unspecified : bool) :
  _is_future_risk_updated s = true ->
  (2 <= length (astar_result cfg s) <= 9)%nat ->
  exists c o' traj' evs,
    OptimizationInCorridors cfg (_traj_optimizer s) (_traj s)
      (make_corridor_msg cfg (hd (make_start_node s) (astar_result cfg s))
         (last (astar_result cfg s) (make_start_node s)) (_odom_acc (odom s))
         (findCorridors (astar_result cfg s) 2))
      (_map_center s) = Some (c, o', traj', evs) /\
    routine_run c evs /\
    exists c' s' before after,
      TrajTimerCallback cfg s unspecified = Some (c', s', before ++ evs ++ after) /\
      In (EvFindCorridors 2) before /\ In EvOptimizationInCorridors before /\
      (exists msg, In (EvPublishCorridor msg) before) /\
      (forall e, ~ solver_threw e before) /\ (forall e, ~ solver_threw e after) /\
      (c' = Returned tt \/ exists e, c = Propagated e /\ c' = Propagated e).
Proof.
  intros Hflag Hn.
  edestruct (OptimizationInCorridors_run cfg) as (c & o' & traj' & evs & Hrun & Hspec).
  exists c, o', traj', evs. split; [exact Hrun|]. split; [exact Hspec|].
  unfold TrajTimerCallback. rewrite Hflag. simpl negb. cbv iota.
  cbv zeta.
  destruct (Z.leb_spec (Z.of_nat (length (astar_result cfg s))) 1); [lia|].
  destruct (Z.geb_spec (Z.of_nat (length (astar_result cfg s))) 10); [lia|].
  simpl orb. cbv iota.
  rewrite Hrun.
  destruct c as [b| |e].
  1-2: do 4 eexists; (split; [reflexivity|]);
    unfold solver_threw; simpl; repeat split; eauto 12;
    try (intros e' H'; intuition (try discriminate); fail);
    try (intros e' H'; destruct b; simpl in H'; intuition (try discriminate); fail);
    try (intros e' H'; destruct unspecified; simpl in H'; intuition (try discriminate); fail).
  eexists _, _, _, []. rewrite app_nil_r.
  split; [reflexivity|].
  unfold solver_threw; simpl; repeat split; eauto 12;
    intros e' H'; intuition (try discriminate).
Qed.


(** Solver calls of a trace that is the trace of the routine between two
    segments without solver calls. *)
Lemma solver_calls_middle (before mid after : list Event) :
  (forall reply, ~ In (EvOptimize reply) before /\ ~ In (EvReOptimize reply) before) ->
  (forall reply, ~ In (EvOptimize reply) after /\ ~ In (EvReOptimize reply) after) ->
  (forall e, solver_threw e (before ++ mid ++ after) <-> solver_threw e mid) /\
  (solver_failed (before ++ mid ++ after) <-> solver_failed mid).
Proof.
  intros Hb Ha.
  assert (Hopt : forall reply, In (EvOptimize reply) (before ++ mid ++ after)
                               <-> In (EvOptimize reply) mid).
  { intros reply. rewrite !in_app_iff.
    destruct (Hb reply) as [N1 _]. destruct (Ha reply) as [N2 _]. tauto. }
  assert (Hre : forall reply, In (EvReOptimize reply) (before ++ mid ++ after)
                              <-> In (EvReOptimize reply) mid).
  { intros reply. rewrite !in_app_iff.
    destruct (Hb reply) as [_ N1]. destruct (Ha reply) as [_ N2]. tauto. }
  split.
  - intros e. unfold solver_threw. rewrite Hopt, Hre. tauto.
  - unfold solver_failed. rewrite !Hopt, !Hre.
    split; intros [[e H]|[[e H]|[H|H]]];
      [left; exists e; apply Hopt; exact H
      |right; left; exists e; apply Hre; exact H
      |auto|auto
      |left; exists e; apply Hopt; exact H
      |right; left; exists e; apply Hre; exact H
      |auto|auto].
Qed.

(** The timer callback around the optimisation routine: what it returns
    and what it emits after the routine, for each way the routine ends. *)
Lemma TrajTimerCallback_after_routine (s : @State Opt Traj) (unspecified : bool) :
  _is_future_risk_updated s = true ->
  (2 <= length (astar_result cfg s) <= 9)%nat ->
  exists msg c o' traj' evs_opt before s',
    OptimizationInCorridors cfg (_traj_optimizer s) (_traj s) msg (_map_center s)
    = Some (c, o', traj', evs_opt) /\
    routine_run c evs_opt /\
    (forall reply, ~ In (EvOptimize reply) before /\ ~ In (EvReOptimize reply) before) /\
    TrajTimerCallback cfg s unspecified
    = Some (match c with Propagated e => Propagated e | _ => Returned tt end, s',
            before ++ evs_opt ++
            match c with
            | Returned b => if b then [] else [EvRosWarn "Optimization failed!!"]
            | FellOffEnd => if unspecified then [] else [EvRosWarn "Optimization failed!!"]
            | Propagated _ => []
            end).
Proof.
  intros Hflag Hn.
  edestruct (OptimizationInCorridors_run cfg) as (c & o' & traj' & evs & Hrun & Hspec).
  do 4 eexists. exists evs. do 2 eexists.
  split; [exact Hrun|]. split; [exact Hspec|].
  unfold TrajTimerCallback. rewrite Hflag. simpl negb. cbv iota.
  cbv zeta.
  destruct (Z.leb_spec (Z.of_nat (length (astar_result cfg s))) 1); [lia|].
  destruct (Z.geb_spec (Z.of_nat (length (astar_result cfg s))) 10); [lia|].
  simpl orb. cbv iota.
  rewrite Hrun.
  split; [|destruct c as [b| |e]; [| |rewrite app_nil_r]; reflexivity].
  intros reply. simpl. split; intros H'; intuition discriminate.
Qed.


End TimerFacts.

(** ** The routines on the concrete scenarios *)

Section PlannerScenarios.

Import Planner.


(** A search result of ten nodes is treated as a failed search. *)
Example TrajTimerCallback_ten_nodes :
  @TrajTimerCallback nat nat unit Scenarios.never_satisfied Scenarios.stub_decomp
    (Scenarios.stub_astar (Scenarios.line_path 10)) Scenarios.demo_cfg
    (Scenarios.demo_state 0) true
  = Some (Returned tt, Scenarios.demo_state 0,
          [EvRosWarn "Time interval between two plannings"; EvSearch 10;
           EvRosWarn "A* planning failed!";
           EvVisualizeAstarPath [] 0 true; EvVisualizeAstarPath [] 1 true;
           EvVisualizeCorridors 0 true]).
Proof. reflexivity. Qed.


Example OptimizationInCorridors_cap_run :
  exists evs,
    @OptimizationInCorridors nat nat unit Scenarios.never_satisfied Scenarios.stub_decomp
      Scenarios.demo_cfg 0%nat 0%nat Scenarios.demo_corridor_msg Vector3d_Zero
    = Some (FellOffEnd, 10%nat, 10%nat, evs) /\
    count_reoptimize evs = 10%nat /\
    last_event evs = EvIsCorridorSatisfied false.
Proof. eexists. repeat split. Qed.


End PlannerScenarios.

(** * Properties of baseline.cpp *)

(** Splits a membership in a trace written as appended segments. *)
Ltac in_trace :=
  repeat match goal with
         | H : In _ (_ ++ _) |- _ => apply in_app_or in H; destruct H
         | H : In _ (_ :: _) |- _ => destruct H
         | H : In _ [] |- _ => destruct H
         end.

Ltac not_search :=
  match goal with
  | Hs : Forall is_search ?l, H : In _ ?l |- _ =>
      let b := fresh in let r := fresh in let E := fresh in
      destruct (proj1 (Forall_forall _ _) Hs _ H) as (b & r & E); discriminate E
  end.

Section PlanFacts.

Import BaselinePlanner.

Context {A M B Mp Traj HPoly : Type}.
Context {astar : RiskHybridAstar A}.
Context {mader : MADER M Traj}.
Context {bezier : BezierOpt B Traj HPoly}.
Context {corridors : Corridors Mp HPoly}.
Variable cfg_ : BaselineParameters.

Local Abbreviation Planner := (@Planner A M B Mp Traj).

Lemma search_twice_events (p : Planner) (rst : Z) (a : A) (evs : list Event) :
  search_twice p = (rst, a, evs) -> Forall is_search evs.
Proof.
  unfold search_twice.
  destruct (astar_search _ _ _ _ _ _ true) as [r1 a1].
  destruct (r1 =? 0).
  - destruct (astar_search _ _ _ _ _ _ false) as [r2 a2].
    intros H; inversion H; subst. repeat constructor; unfold is_search; eauto.
  - intros H; inversion H; subst. repeat constructor; unfold is_search; eauto.
Qed.

Lemma truncate_route_long (route : list Vector3d) :
  (4 < length route)%nat ->
  truncate_route route = firstn 4 route /\ length (truncate_route route) = 4%nat.
Proof.
  intros H. unfold truncate_route.
  destruct (Nat.ltb_spec 4 (length route)); [|lia].
  split; [reflexivity|]. rewrite length_firstn. lia.
Qed.

Lemma truncate_route_length (route : list Vector3d) :
  (length (truncate_route route) <= 4)%nat.
Proof.
  unfold truncate_route.
  destruct (Nat.ltb_spec 4 (length route)); [rewrite length_firstn|]; lia.
Qed.

(** The planning call succeeds only after both deconfliction checks
    answered [true], and fails whenever one of them answered [false]. *)
Lemma plan_checks (p : Planner) (now : Q) (ok : bool) (p' : Planner) (evs : list Event) :
  plan cfg_ p now = Some (ok, p', evs) ->
  (ok = true -> In (EvIsSafeAfterOpt true) evs /\ In (EvIsSafeAfterChk true) evs) /\
  (In (EvIsSafeAfterOpt false) evs \/ In (EvIsSafeAfterChk false) evs -> ok = false).
Proof.
  unfold plan.
  destruct (search_twice p) as [[rst a] evs0] eqn:Hs.
  apply search_twice_events in Hs.
  destruct (rst =? NO_PATH).
  - intros H; inversion H; subst; clear H. split; [discriminate|reflexivity].
  - destruct (local_goal_of _) as [local_goal|]; [|discriminate].
    destruct (optimize _) as [solved b1].
    destruct solved; simpl negb; cbv iota.
    + destruct (isSafeAfterOpt _ _) as [safe_opt m1].
      destruct safe_opt; simpl negb; cbv iota.
      * destruct (isSafeAfterChk _) as [safe_chk m2].
        destruct safe_chk; simpl negb; cbv iota;
          intros H; inversion H; subst; clear H; (split; [|intros [H|H]]);
          try discriminate; try reflexivity;
          try (intros _; rewrite !in_app_iff; simpl; auto 10; fail);
          exfalso; in_trace; try discriminate; not_search.
      * intros H; inversion H; subst; clear H. split; [discriminate|reflexivity].
    + intros H; inversion H; subst; clear H. split; [discriminate|reflexivity].
Qed.

(** What the trace of [plan] records about the two checks is what they
    answered: [isSafeAfterOpt] is called on the deconfliction object of
    the planner with the trajectory that ends up in [traj_], and
    [isSafeAfterChk] on the object the first check left. *)
Lemma plan_answers (p : Planner) (now : Q) (ok : bool) (p' : Planner) (evs : list Event) :
  plan cfg_ p now = Some (ok, p', evs) ->
  (ok = true ->
   exists m1, isSafeAfterOpt (collision_avoider_ p) (traj_ p') = (true, m1) /\
              isSafeAfterChk m1 = (true, collision_avoider_ p')) /\
  (forall b, In (EvIsSafeAfterOpt b) evs ->
             exists m1, isSafeAfterOpt (collision_avoider_ p) (traj_ p') = (b, m1)) /\
  (forall b, In (EvIsSafeAfterChk b) evs ->
             exists m1, isSafeAfterOpt (collision_avoider_ p) (traj_ p') = (true, m1) /\
                        isSafeAfterChk m1 = (b, collision_avoider_ p')).
Proof.
  unfold plan.
  destruct (search_twice p) as [[rst a] evs0] eqn:Hs.
  apply search_twice_events in Hs.
  destruct (rst =? NO_PATH).
  - intros H; inversion H; subst; clear H.
    split; [discriminate|].
    split; intros b Hin; exfalso; in_trace; try discriminate; not_search.
  - destruct (local_goal_of _) as [local_goal|]; [|discriminate].
    destruct (optimize _) as [solved b1].
    destruct solved; simpl negb; cbv iota.
    + destruct (isSafeAfterOpt _ _) as [safe_opt m1] eqn:Hopt.
      destruct safe_opt; simpl negb; cbv iota.
      * destruct (isSafeAfterChk _) as [safe_chk m2] eqn:Hchk.
        destruct safe_chk; simpl negb; cbv iota;
          intros H; inversion H; subst; clear H; simpl;
          (split; [try discriminate; intros _; eauto|]);
          (split; intros b Hin; in_trace; try discriminate; try not_search;
           match goal with E : _ = _ |- _ => inversion E; subst; eauto end).
      * intros H; inversion H; subst; clear H; simpl.
        split; [discriminate|].
        split; intros b Hin; in_trace; try discriminate; try not_search;
          match goal with E : _ = _ |- _ => inversion E; subst; eauto end.
    + intros H; inversion H; subst; clear H.
      split; [discriminate|].
      split; intros b Hin; exfalso; in_trace; try discriminate; not_search.
Qed.


End PlanFacts.

(** * Properties of plan_manager.cpp *)

Section SupervisorFacts.

Import BaselinePlanner FiniteStateMachine.

Context {A M B Mp Traj HPoly : Type}.
Context {astar : RiskHybridAstar A}.
Context {mader : MADER M Traj}.
Context {bezier : BezierOpt B Traj HPoly}.
Context {corridors : Corridors Mp HPoly}.
Variable planner_cfg : BaselineParameters.
Variable _cfgs : FSMParameters.

Local Abbreviation FSM := (@FSM A M B Mp Traj).
Local Abbreviation FsmEvent := (@FsmEvent Traj).

Lemma publish_not_planner (msg : TrajMsg) (pevs : list Event) :
  ~ In (EvTrajPub msg) (map (@EvPlanner Traj) pevs) /\
  ~ In (EvBroadcastTrajPub msg) (map (@EvPlanner Traj) pevs).
Proof.
  split; intros H; apply in_map_iff in H; destruct H as (e & E & _); discriminate E.
Qed.

Lemma planner_event_in (e : Event) (pevs : list Event) :
  In (@EvPlanner Traj e) (map (@EvPlanner Traj) pevs) <-> In e pevs.
Proof.
  split; [|apply in_map].
  intros H. apply in_map_iff in H. destruct H as (e' & E & H). inversion E; subst. exact H.
Qed.

(** The [REPLAN] case publishes exactly when the planning call succeeded
    and the goal is not reached. *)
Lemma replan_body_publishes (f : FSM) (tk : Tick) (f' : FSM) (evs : list FsmEvent) :
  replan_body planner_cfg f tk = Some (f', evs) ->
  exists ok p' pevs rest,
    plan planner_cfg (setGoal (_planner f) (_goal f)) (now tk) = Some (ok, p', pevs) /\
    evs = map (@EvPlanner Traj) pevs ++ rest /\
    (forall e, ~ In (EvPlanner e) rest) /\
    ((exists msg, In (EvTrajPub msg) rest \/ In (EvBroadcastTrajPub msg) rest) -> ok = true).
Proof.
  unfold replan_body.
  destruct (plan _ _ _) as [[[ok p'] pevs]|]; [|discriminate].
  destruct (ok && negb (isGoalReached tk (getPos p'))) eqn:Hc.
  - apply andb_true_iff in Hc. destruct Hc as [-> _].
    unfold publishTrajectory. intros H; inversion H; subst; clear H.
    do 4 eexists. split; [reflexivity|]. split; [reflexivity|].
    split; [|reflexivity].
    intros e H. simpl in H. intuition discriminate.
  - destruct (isGoalReached tk (getPos p')); intros H; inversion H; subst; clear H.
    + exists ok, p', pevs, []. rewrite app_nil_r. repeat split; auto.
      intros [msg [[]|[]]].
    + do 4 eexists. split; [reflexivity|]. split; [reflexivity|].
      split; [intros e H; simpl in H; intuition discriminate|].
      intros [msg [H|H]]; simpl in H; intuition discriminate.
Qed.

(** A tick emits nothing unless it runs the planning call; the events of
    the call come first, the planner object kept is the one the call
    left, and a message is sent only after a call that succeeded, with
    the trajectory of that planner. *)
Lemma tick_plan (f : FSM) (tk : Tick) (f' : FSM) (evs : list FsmEvent) :
  FSMCallback planner_cfg _cfgs f tk = Some (f', evs) ->
  evs = [] \/
  exists ok p' pevs rest,
    plan planner_cfg (setGoal (_planner f) (_goal f)) (now tk) = Some (ok, p', pevs) /\
    evs = map (@EvPlanner Traj) pevs ++ rest /\
    _planner f' = p' /\
    (forall e, ~ In (EvPlanner e) rest) /\
    (forall msg, In (EvTrajPub msg) rest \/ In (EvBroadcastTrajPub msg) rest ->
                 ok = true /\ msg_traj msg = traj_ p').
Proof.
  intros Hstep. unfold FSMCallback in Hstep.
  destruct (_status f).
  - inversion Hstep; auto.
  - destruct (negb (isInputLost tk) && _is_goal_received f); inversion Hstep; auto.
  - destruct (isInputLost tk); [inversion Hstep; auto|].
    simpl in Hstep. destruct (_is_exec_triggered f); inversion Hstep; auto.
  - destruct (isInputLost tk); [inversion Hstep; auto|].
    right. unfold replan_body in Hstep.
    destruct (plan _ _ _) as [[[ok p'] pevs]|]; [|discriminate].
    destruct (ok && negb (isGoalReached tk (getPos p'))) eqn:Hc.
    + apply andb_true_iff in Hc. destruct Hc as [-> _].
      unfold publishTrajectory in Hstep. inversion Hstep; subst; clear Hstep.
      do 4 eexists. split; [reflexivity|]. split; [reflexivity|]. split; [reflexivity|].
      split.
      * intros e H. simpl in H. intuition discriminate.
      * intros msg [H|H]; simpl in H;
          destruct H as [H|[H|[]]]; try discriminate H;
          inversion H; subst; simpl; auto.
    + destruct (isGoalReached tk (getPos p')); inversion Hstep; subst; clear Hstep.
      * exists ok, p', pevs, []. rewrite app_nil_r.
        split; [reflexivity|]. split; [reflexivity|]. split; [reflexivity|].
        split; [intros e []|intros msg [[]|[]]].
      * do 4 eexists. split; [reflexivity|]. split; [reflexivity|]. split; [reflexivity|].
        split; [intros e H; simpl in H; intuition discriminate|].
        intros msg [H|H]; simpl in H; intuition discriminate.
  - destruct (isInputLost tk); inversion Hstep; auto.
  - inversion Hstep; auto.
  - inversion Hstep; auto.
  - inversion Hstep; auto.
Qed.

(** C3.  The planning call returns success only when [isSafeAfterOpt], on
    the optimised trajectory it stores, and then [isSafeAfterChk]
    answered [true], and returns failure when either answered [false];
    what its trace records of the two checks is what they answered.  A
    tick of the supervisor publishes or broadcasts a trajectory only if
    both checks answered [true] on that trajectory during that tick, and
    publishes nothing when either answered [false]. *)
Theorem commit_requires_both_checks (f : FSM) (tk : Tick) (f' : FSM) (evs : list FsmEvent) :
  FSMCallback planner_cfg _cfgs f tk = Some (f', evs) ->
  (forall p t ok p' pevs,
      plan planner_cfg p t = Some (ok, p', pevs) ->
      (ok = true ->
       (exists m1, isSafeAfterOpt (collision_avoider_ p) (traj_ p') = (true, m1) /\
                   isSafeAfterChk m1 = (true, collision_avoider_ p')) /\
       In (EvIsSafeAfterOpt true) pevs /\ In (EvIsSafeAfterChk true) pevs) /\
      (In (EvIsSafeAfterOpt false) pevs \/ In (EvIsSafeAfterChk false) pevs -> ok = false) /\
      (forall b, In (EvIsSafeAfterOpt b) pevs ->
                 exists m1, isSafeAfterOpt (collision_avoider_ p) (traj_ p') = (b, m1)) /\
      (forall b, In (EvIsSafeAfterChk b) pevs ->
                 exists m1, isSafeAfterOpt (collision_avoider_ p) (traj_ p') = (true, m1) /\
                            isSafeAfterChk m1 = (b, collision_avoider_ p'))) /\
  (forall msg,
      In (EvTrajPub msg) evs \/ In (EvBroadcastTrajPub msg) evs ->
      (exists m1,
          isSafeAfterOpt (collision_avoider_ (_planner f)) (msg_traj msg) = (true, m1) /\
          isSafeAfterChk m1 = (true, collision_avoider_ (_planner f'))) /\
      In (EvPlanner (EvIsSafeAfterOpt true)) evs /\
      In (EvPlanner (EvIsSafeAfterChk true)) evs) /\
  (In (EvPlanner (EvIsSafeAfterOpt false)) evs \/
   In (EvPlanner (EvIsSafeAfterChk false)) evs ->
   forall msg, ~ In (EvTrajPub msg) evs /\ ~ In (EvBroadcastTrajPub msg) evs) /\
  (forall b,
      In (EvPlanner (EvIsSafeAfterOpt b)) evs ->
      exists m1,
        isSafeAfterOpt (collision_avoider_ (_planner f)) (getTrajectory (_planner f'))
        = (b, m1)) /\
  (forall b,
      In (EvPlanner (EvIsSafeAfterChk b)) evs ->
      exists m1,
        isSafeAfterOpt (collision_avoider_ (_planner f)) (getTrajectory (_planner f'))
        = (true, m1) /\
        isSafeAfterChk m1 = (b, collision_avoider_ (_planner f'))).
Proof.
  intros Hstep. split.
  { intros p t ok p' pevs Hplan.
    destruct (plan_checks _ _ _ _ _ _ Hplan) as [Hok Hfail].
    destruct (plan_answers _ _ _ _ _ _ Hplan) as (Hans & Hopt & Hchk).
    split; [intros E; split; [exact (Hans E)|exact (Hok E)]|].
    split; [exact Hfail|]. split; [exact Hopt|exact Hchk]. }
  destruct (tick_plan f tk f' evs Hstep)
    as [->|(ok & p' & pevs & rest & Hplan & -> & Hpl & Hrest & Hpub)].
  { split; [intros msg [[]|[]]|]. split; [intros [[]|[]]|].
    split; intros b []. }
  destruct (plan_checks _ _ _ _ _ _ Hplan) as [Hok Hfail].
  destruct (plan_answers _ _ _ _ _ _ Hplan) as (Hans & Hopt & Hchk).
  simpl collision_avoider_ in Hans, Hopt, Hchk.
  assert (Hsplit : forall msg,
             In (EvTrajPub msg) (map (@EvPlanner Traj) pevs ++ rest) \/
             In (EvBroadcastTrajPub msg) (map (@EvPlanner Traj) pevs ++ rest) ->
             In (EvTrajPub msg) rest \/ In (EvBroadcastTrajPub msg) rest).
  { intros msg Hin. destruct (publish_not_planner msg pevs) as [N1 N2].
    rewrite !in_app_iff in Hin. tauto. }
  assert (Hlabel : forall e, In (EvPlanner e) (map (@EvPlanner Traj) pevs ++ rest) ->
                             In e pevs).
  { intros e Hin. apply in_app_or in Hin.
    destruct Hin as [Hin|Hin];
      [exact (proj1 (planner_event_in e pevs) Hin)|destruct (Hrest _ Hin)]. }
  unfold getTrajectory. rewrite Hpl.
  split; [|split; [|split]].
  - intros msg Hin. destruct (Hpub msg (Hsplit msg Hin)) as [Eok Etraj].
    rewrite Etraj. split; [exact (Hans Eok)|].
    destruct (Hok Eok) as [H1 H2].
    rewrite !in_app_iff, !planner_event_in. auto.
  - intros Hin msg.
    assert (Hno : ok = false).
    { apply Hfail. destruct Hin as [H|H]; apply Hlabel in H; auto. }
    destruct (publish_not_planner msg pevs) as [N1 N2].
    rewrite !in_app_iff.
    split; intros [H|H]; try tauto;
      assert (ok = true) by (apply (Hpub msg); auto); congruence.
  - intros b Hin. apply Hlabel in Hin. exact (Hopt b Hin).
  - intros b Hin. apply Hlabel in Hin. exact (Hchk b Hin).
Qed.

(** The safety check of the supervisor always answers [true] and its
    answer is not used: from [EXEC_TRAJ] the successor is [WAIT_TARGET]
    when the input is lost, else [GOAL_REACHED] at the goal, else
    [REPLAN] when the replan period has elapsed, else [EXEC_TRAJ]; and no
    tick enters [EMERGENCY_REPLAN]. *)
Theorem exec_traj_never_emergency (f : FSM) (tk : Tick) :
  isTrajectorySafe f = true /\
  (forall is_safe, exec_traj_body _cfgs is_safe f tk = exec_traj_body _cfgs true f tk) /\
  (forall is_safe,
      _status f = EXEC_TRAJ -> isInputLost tk = false ->
      _status (exec_traj_body _cfgs is_safe f tk) = exec_traj_successor _cfgs f tk) /\
  (forall f' evs,
      _status f = EXEC_TRAJ ->
      FSMCallback planner_cfg _cfgs f tk = Some (f', evs) ->
      _status f' = exec_traj_successor _cfgs f tk /\ _status f' <> EMERGENCY_REPLAN) /\
  (forall f' evs,
      FSMCallback planner_cfg _cfgs f tk = Some (f', evs) ->
      _status f' = EMERGENCY_REPLAN -> _status f = EMERGENCY_REPLAN).
Proof.
  assert (Hbody : forall is_safe,
             _status f = EXEC_TRAJ -> isInputLost tk = false ->
             _status (exec_traj_body _cfgs is_safe f tk) = exec_traj_successor _cfgs f tk).
  { intros is_safe Hst Hin. unfold exec_traj_body, exec_traj_successor. rewrite Hin.
    destruct (checkTimeLapse tk _); simpl;
      destruct (isGoalReached tk _); simpl; auto. }
  assert (Hexec : forall f' evs,
             _status f = EXEC_TRAJ ->
             FSMCallback planner_cfg _cfgs f tk = Some (f', evs) ->
             _status f' = exec_traj_successor _cfgs f tk).
  { intros f' evs Hst Hstep. unfold FSMCallback in Hstep. rewrite Hst in Hstep.
    destruct (isInputLost tk) eqn:Hin.
    - injection Hstep as <- <-. unfold exec_traj_successor. rewrite Hin. reflexivity.
    - injection Hstep as <- <-. apply Hbody; [exact Hst|reflexivity]. }
  split; [reflexivity|]. split; [reflexivity|]. split; [exact Hbody|]. split.
  - intros f' evs Hst Hstep. rewrite (Hexec f' evs Hst Hstep). split; [reflexivity|].
    unfold exec_traj_successor.
    destruct (isInputLost tk); [discriminate|].
    destruct (isGoalReached tk _); [discriminate|].
    destruct (checkTimeLapse tk _); discriminate.
  - intros f' evs Hstep Hem.
    destruct (_status f) eqn:Hst; try reflexivity; exfalso.
    + unfold FSMCallback in Hstep. rewrite Hst in Hstep. inversion Hstep; subst. discriminate.
    + unfold FSMCallback in Hstep. rewrite Hst in Hstep.
      destruct (negb (isInputLost tk) && _is_goal_received f); inversion Hstep; subst;
        simpl in Hem; congruence.
    + unfold FSMCallback in Hstep. rewrite Hst in Hstep.
      destruct (isInputLost tk); [inversion Hstep; subst; discriminate|].
      simpl in Hstep.
      destruct (_is_exec_triggered f); inversion Hstep; subst; simpl in Hem; congruence.
    + unfold FSMCallback in Hstep. rewrite Hst in Hstep.
      destruct (isInputLost tk); [inversion Hstep; subst; discriminate|].
      unfold replan_body in Hstep.
      destruct (plan _ _ _) as [[[ok p'] pevs]|]; [|discriminate].
      destruct (ok && negb (isGoalReached tk (getPos p'))).
      * unfold publishTrajectory in Hstep. inversion Hstep; subst. discriminate.
      * destruct (isGoalReached tk (getPos p')); inversion Hstep; subst;
          simpl in Hem; congruence.
    + rewrite (Hexec f' evs eq_refl Hstep) in Hem. unfold exec_traj_successor in Hem.
      destruct (isInputLost tk); [discriminate|].
      destruct (isGoalReached tk _); [discriminate|].
      destruct (checkTimeLapse tk _); discriminate.
    + unfold FSMCallback in Hstep. rewrite Hst in Hstep. inversion Hstep; subst. discriminate.
    + unfold FSMCallback in Hstep. rewrite Hst in Hstep. inversion Hstep; subst.
      simpl in Hem; congruence.
Qed.

End SupervisorFacts.

(** ** The plan manager on the concrete scenarios *)

Section PlanManagerScenarios.

Import BaselinePlanner FiniteStateMachine.


(** C3 (witness): a replanning tick in which both checks pass publishes
    the trajectory; both checks answer [true] on the trajectory of the
    message, and both are in the trace. *)
Lemma commit_requires_both_checks_witness :
  exists f' evs,
    @FSMCallback unit unit unit unit nat unit (Scenarios.stub_search 1 1 Scenarios.demo_route)
      (Scenarios.stub_mader true true) (Scenarios.stub_bezier true) Scenarios.stub_corridors
      Scenarios.demo_params Scenarios.demo_fsm_params
      (Scenarios.demo_fsm REPLAN) Scenarios.quiet_tick = Some (f', evs) /\
    exists msg,
      In (EvTrajPub msg) evs /\
      (exists m1,
          @isSafeAfterOpt unit nat (Scenarios.stub_mader true true)
            (collision_avoider_ (_planner (Scenarios.demo_fsm REPLAN))) (msg_traj msg)
          = (true, m1) /\
          @isSafeAfterChk unit nat (Scenarios.stub_mader true true) m1
          = (true, collision_avoider_ (_planner f'))) /\
      In (EvPlanner (EvIsSafeAfterOpt true)) evs /\
      In (EvPlanner (EvIsSafeAfterChk true)) evs.
Proof.
  eexists. eexists. split; [reflexivity|].
  match goal with
  | |- exists msg, In (EvTrajPub msg) ?evs /\ _ =>
      assert (Hpub : exists msg, In (@EvTrajPub nat msg) evs)
        by (eexists; simpl; do 13 right; left; reflexivity)
  end.
  destruct Hpub as [msg Hpub].
  exists msg. split; [exact Hpub|].
  exact (proj1 (proj2 (@commit_requires_both_checks unit unit unit unit nat unit
              (Scenarios.stub_search 1 1 Scenarios.demo_route)
              (Scenarios.stub_mader true true) (Scenarios.stub_bezier true)
              Scenarios.stub_corridors Scenarios.demo_params Scenarios.demo_fsm_params
              (Scenarios.demo_fsm REPLAN) Scenarios.quiet_tick _ _ eq_refl))
          msg (or_introl Hpub)).
Defined.

(** A replanning tick in which the second check fails publishes nothing
    and stays in [REPLAN]. *)
Example replan_tick_recheck_fails :
  exists f' evs,
    @FSMCallback unit unit unit unit nat unit (Scenarios.stub_search 1 1 Scenarios.demo_route)
      (Scenarios.stub_mader true false) (Scenarios.stub_bezier true) Scenarios.stub_corridors
      Scenarios.demo_params Scenarios.demo_fsm_params
      (Scenarios.demo_fsm REPLAN) Scenarios.quiet_tick = Some (f', evs) /\
    _status f' = REPLAN /\
    In (EvPlanner (EvIsSafeAfterChk false)) evs /\
    last evs (EvFsmWarn "") = EvFsmWarn "[FSM] Replanning failed".
Proof.
  do 2 eexists. split; [reflexivity|]. split; [reflexivity|].
  split; [simpl; auto 20|reflexivity].
Qed.

Example exec_traj_tick :
  @FSMCallback unit unit unit unit nat unit (Scenarios.stub_search 1 1 Scenarios.demo_route)
    (Scenarios.stub_mader true true) (Scenarios.stub_bezier true) Scenarios.stub_corridors
    Scenarios.demo_params Scenarios.demo_fsm_params
    (Scenarios.demo_fsm EXEC_TRAJ) Scenarios.quiet_tick
  = Some (Scenarios.demo_fsm EXEC_TRAJ, []).
Proof. reflexivity. Qed.

End PlanManagerScenarios.

(** * Properties of fake_particle_risk_voxel.cpp *)

Section QueryFacts.

Import FakeParticleRiskVoxel.

Context {base : MapBase}.

(** The kernel loop answers 0 or 1 when it answers. *)
Lemma sum_kernel_values (m : Map) (pos_i : Vector3i) (t : Z) (kernel : list Vector3i) :
  forall (sum_risk : Q) (v : Z),
    sum_kernel m pos_i t kernel sum_risk = Value v -> v = 0 \/ v = 1.
Proof.
  induction kernel as [|ego_i rest IH]; intros sum_risk v; simpl.
  - intros H; inversion H; auto.
  - destruct (isInRange (ivec_add pos_i ego_i)); simpl; [|apply IH].
    destruct (read_risk m _ t) as [r|]; [|discriminate].
    destruct (Qgtb _ _); [intros H; inversion H; auto|apply IH].
Qed.

Lemma read_risk_beyond (m : Map) (idx t : Z) :
  PREDICTION_TIMES <= t -> read_risk m idx t = None.
Proof.
  intros H. unfold read_risk.
  destruct (Z.ltb_spec t PREDICTION_TIMES); [lia|].
  rewrite andb_false_r. reflexivity.
Qed.

(** Beyond the last slice the loop cannot read the array: it answers only
    when no kernel cell is in range, whatever the slice. *)
Lemma sum_kernel_beyond (m : Map) (pos_i : Vector3i) (t t' : Z) (kernel : list Vector3i) :
  PREDICTION_TIMES <= t -> PREDICTION_TIMES <= t' ->
  forall (sum_risk : Q) (v : Z),
    sum_kernel m pos_i t kernel sum_risk = Value v ->
    sum_kernel m pos_i t' kernel sum_risk = Value v.
Proof.
  intros Ht Ht'.
  induction kernel as [|ego_i rest IH]; intros sum_risk v; simpl; [auto|].
  destruct (isInRange (ivec_add pos_i ego_i)); simpl; [|apply IH].
  rewrite (read_risk_beyond m _ t Ht). discriminate.
Qed.

Lemma getClearOcccupancy_t_beyond (m : Map) (pos : Vector3d) (t t' v : Z) :
  PREDICTION_TIMES <= t -> PREDICTION_TIMES <= t' ->
  getClearOcccupancy_t m pos t = Value v -> getClearOcccupancy_t m pos t' = Value v.
Proof.
  intros Ht Ht'. unfold getClearOcccupancy_t.
  destruct (isInRange _); simpl; [|auto].
  apply sum_kernel_beyond; assumption.
Qed.

(** Replacing a slice index above [PREDICTION_TIMES] by [PREDICTION_TIMES]
    does not change whether, and what, the query answers. *)
Lemma getClearOcccupancy_t_clamped (m : Map) (pos : Vector3d) (t v : Z) :
  getClearOcccupancy_t m pos (if t >? PREDICTION_TIMES then PREDICTION_TIMES else t) = Value v
  <-> getClearOcccupancy_t m pos t = Value v.
Proof.
  destruct (Z.gtb_spec t PREDICTION_TIMES); [|reflexivity].
  split; apply getClearOcccupancy_t_beyond; lia.
Qed.

Lemma getClearOcccupancy_t_out_of_range (m : Map) (pos : Vector3d) (t : Z) :
  getClearOcccupancy_t m pos t = Value (-1) <->
  isInRange (getVoxelRelIndex (vec_sub pos (pose_ m))) = false.
Proof.
  unfold getClearOcccupancy_t.
  destruct (isInRange _); simpl; split; try reflexivity; try discriminate.
  intros H. apply sum_kernel_values in H. lia.
Qed.

(** Outside the range of the map the query at a time offset answers -1. *)
Lemma getClearOcccupancy_dt_outside (m : Map) (pos : Vector3d) (dt : Q) :
  isInRange (getVoxelRelIndex (vec_sub pos (pose_ m))) = false ->
  getClearOcccupancy_dt m pos dt = Value (-1).
Proof.
  intros H.
  unfold getClearOcccupancy_dt. destruct (slice_indices m dt) as [tc tf].
  rewrite !(proj2 (getClearOcccupancy_t_out_of_range m pos _) H). reflexivity.
Qed.

(** C6.  At a position outside the range of the map every occupancy query
    answers -1, whatever the slice or the time offset. *)
Theorem getClearOcccupancy_out_of_range (m : Map) (pos : Vector3d) (t : Z) (dt : Q) :
  isInRange (getVoxelRelIndex (vec_sub pos (pose_ m))) = false ->
  getClearOcccupancy_t m pos t = Value (-1) /\
  getClearOcccupancy m pos = Value (-1) /\
  getClearOcccupancy_dt m pos dt = Value (-1).
Proof.
  intros H. repeat split.
  - apply getClearOcccupancy_t_out_of_range. exact H.
  - apply getClearOcccupancy_t_out_of_range. exact H.
  - apply getClearOcccupancy_dt_outside. exact H.
Qed.

(** C4.  The query at a time offset answers 0 exactly when the slice
    queries at the floor and at the ceiling of [dt / time_resolution_]
    both answer 0, and answers -1 as soon as one of them answers -1. *)
Theorem getClearOcccupancy_dt_brackets (m : Map) (pos : Vector3d) (dt : Q) :
  (getClearOcccupancy_dt m pos dt = Value 0 <->
   getClearOcccupancy_t m pos (Qfloor (dt / time_resolution_ m)) = Value 0 /\
   getClearOcccupancy_t m pos (Qceiling (dt / time_resolution_ m)) = Value 0) /\
  (getClearOcccupancy_t m pos (Qfloor (dt / time_resolution_ m)) = Value (-1) \/
   getClearOcccupancy_t m pos (Qceiling (dt / time_resolution_ m)) = Value (-1) ->
   getClearOcccupancy_dt m pos dt = Value (-1)).
Proof.
  split.
  - rewrite <- (getClearOcccupancy_t_clamped m pos (Qfloor _)).
    rewrite <- (getClearOcccupancy_t_clamped m pos (Qceiling _)).
    unfold getClearOcccupancy_dt, slice_indices.
    destruct (getClearOcccupancy_t m pos (if Qceiling _ >? _ then _ else _)) as [ret0|];
      [|split; [discriminate|intros [_ H]; discriminate H]].
    destruct (getClearOcccupancy_t m pos (if Qfloor _ >? _ then _ else _)) as [ret1|];
      [|split; [discriminate|intros [H _]; discriminate H]].
    destruct (Z.eqb_spec ret0 (-1)); destruct (Z.eqb_spec ret1 (-1)); simpl;
      try (split; [discriminate|intros [H1 H0]; inversion H1; inversion H0; lia]).
    destruct (Z.eqb_spec ret0 0); destruct (Z.eqb_spec ret1 0); simpl; subst;
      try (split; [discriminate|intros [H1 H0]; inversion H1; inversion H0; lia]).
    split; auto.
  - intros H. apply getClearOcccupancy_dt_outside.
    destruct H as [H|H]; apply getClearOcccupancy_t_out_of_range in H; exact H.
Qed.

(** Beyond the last slice, a kernel cell in range makes the loop read
    outside the array. *)
Lemma sum_kernel_reads_beyond (m : Map) (pos_i : Vector3i) (t : Z) (kernel : list Vector3i) :
  PREDICTION_TIMES <= t ->
  (exists ego_i, In ego_i kernel /\ isInRange (ivec_add pos_i ego_i) = true) ->
  forall sum_risk : Q,
  exists idx, sum_kernel m pos_i t kernel sum_risk = OutOfBounds idx t.
Proof.
  intros Ht. induction kernel as [|ego rest IH]; intros (ego_i & Hin & Hr) sum_risk.
  - destruct Hin.
  - simpl. destruct (isInRange (ivec_add pos_i ego)) eqn:E; simpl.
    + rewrite (read_risk_beyond m _ t Ht). eauto.
    + apply IH. destruct Hin as [->|Hin]; [congruence|eauto].
Qed.

Lemma slice_indices_beyond (m : Map) (dt : Q) :
  (inject_Z (PREDICTION_TIMES - 1) < dt / time_resolution_ m)%Q ->
  fst (slice_indices m dt) = PREDICTION_TIMES.
Proof.
  intros H. unfold slice_indices. simpl.
  assert (Hc : PREDICTION_TIMES - 1 < Qceiling (dt / time_resolution_ m)).
  { rewrite Zlt_Qlt. eapply Qlt_le_trans; [exact H|apply Qle_ceiling]. }
  destruct (Z.gtb_spec (Qceiling (dt / time_resolution_ m)) PREDICTION_TIMES); lia.
Qed.

(** C5 (evaluated on the code).  For a time offset beyond the last slice,
    [dt > (PREDICTION_TIMES - 1) * time_resolution_], the slice index
    computed from [ceil] is [PREDICTION_TIMES], one past the last slice of
    [risk_maps_], and at a position in range with a kernel cell in range
    the query reads the array there. *)
Theorem getClearOcccupancy_dt_reads_past_last_slice (m : Map) (pos : Vector3d) (dt : Q) :
  1 <= PREDICTION_TIMES ->
  (0 < time_resolution_ m)%Q ->
  (inject_Z (PREDICTION_TIMES - 1) * time_resolution_ m < dt)%Q ->
  isInRange (getVoxelRelIndex (vec_sub pos (pose_ m))) = true ->
  (exists ego_i,
      In ego_i (inflate_kernel_ m) /\
      isInRange (ivec_add (getVoxelRelIndex (vec_sub pos (pose_ m))) ego_i) = true) ->
  (0 <= dt)%Q /\
  fst (slice_indices m dt) = PREDICTION_TIMES /\
  ~ (0 <= PREDICTION_TIMES <= PREDICTION_TIMES - 1) /\
  (forall idx, read_risk m idx PREDICTION_TIMES = None) /\
  exists idx, getClearOcccupancy_dt m pos dt = OutOfBounds idx PREDICTION_TIMES.
Proof.
  intros Hpt Hres Hdt Hin Hcell.
  assert (Hq : (inject_Z (PREDICTION_TIMES - 1) < dt / time_resolution_ m)%Q)
    by (apply Qlt_shift_div_l; assumption).
  split.
  { apply Qlt_le_weak.
    apply Qle_lt_trans with (inject_Z (PREDICTION_TIMES - 1) * time_resolution_ m)%Q;
      [|exact Hdt].
    apply Qmult_le_0_compat; [|apply Qlt_le_weak; exact Hres].
    change 0%Q with (inject_Z 0). rewrite <- Zle_Qle. lia. }
  split; [apply slice_indices_beyond; exact Hq|].
  split; [lia|].
  split; [intros idx; apply read_risk_beyond; lia|].
  pose proof (slice_indices_beyond m dt Hq) as Hs.
  unfold getClearOcccupancy_dt. destruct (slice_indices m dt) as [tc tf].
  simpl in Hs. subst tc.
  unfold getClearOcccupancy_t at 1. rewrite Hin. simpl negb. cbv iota.
  destruct (sum_kernel_reads_beyond m _ PREDICTION_TIMES (inflate_kernel_ m)
              (Z.le_refl _) Hcell 0%Q) as [idx Hidx].
  rewrite Hidx. eauto.
Qed.

End QueryFacts.

(** ** The queries on the concrete map *)

Section QueryScenarios.

Import FakeParticleRiskVoxel.

(** C6 (witness): the point (5, 0, 0) is outside the 2 m cube. *)
Lemma getClearOcccupancy_out_of_range_witness :
  @getClearOcccupancy_dt Scenarios.small_grid Scenarios.small_map Scenarios.outside_point (3 # 10)
  = Value (-1).
Proof.
  exact (proj2 (proj2 (@getClearOcccupancy_out_of_range Scenarios.small_grid
                         Scenarios.small_map Scenarios.outside_point 0 (3 # 10) eq_refl))).
Defined.

(** C5 (witness): three slices of 0.2 s, the last at 0.4 s, and a query
    at 0.5 s. *)
Lemma getClearOcccupancy_dt_reads_past_last_slice_witness :
  fst (@slice_indices Scenarios.small_grid Scenarios.small_map (5 # 10)) = 3 /\
  exists idx,
    @getClearOcccupancy_dt Scenarios.small_grid Scenarios.small_map Scenarios.inside_point
      (5 # 10) = OutOfBounds idx 3.
Proof.
  destruct (@getClearOcccupancy_dt_reads_past_last_slice Scenarios.small_grid
              Scenarios.small_map Scenarios.inside_point (5 # 10))
    as (_ & Hs & _ & _ & Hr).
  - simpl. lia.
  - reflexivity.
  - reflexivity.
  - reflexivity.
  - exists (mkVector3i 0 0 0). split; [left; reflexivity|reflexivity].
  - split; assumption.
Defined.

(** The slices around 0.3 s are slices 1 and 2; voxel 0 is occupied in
    slice 1, so the query answers 1.  At 0.4 s only slice 2 is consulted
    and it is free.  Around 0.5 s the slices are 2 and 3, and slice 3
    does not exist. *)
Example getClearOcccupancy_dt_small_map :
  @getClearOcccupancy_dt Scenarios.small_grid Scenarios.small_map Scenarios.inside_point (3 # 10)
  = Value 1 /\
  @getClearOcccupancy_dt Scenarios.small_grid Scenarios.small_map Scenarios.inside_point (4 # 10)
  = Value 0 /\
  @getClearOcccupancy_dt Scenarios.small_grid Scenarios.small_map Scenarios.inside_point (5 # 10)
  = OutOfBounds 0 3.
Proof. repeat split. Qed.

End QueryScenarios.

(** * Properties of visualizer.hpp *)

Section RationalRounding.

Lemma Qfloor_between (q : Q) (n : Z) :
  Qfloor q = n -> (inject_Z n <= q < inject_Z n + 1)%Q.
Proof.
  intros <-. split; [apply Qfloor_le|].
  pose proof (Qlt_floor q) as H. rewrite inject_Z_plus in H. exact H.
Qed.

Lemma Qfloor_unique (q : Q) (n : Z) :
  (inject_Z n <= q < inject_Z n + 1)%Q -> Qfloor q = n.
Proof.
  intros [Hl Hu].
  pose proof (Qfloor_le q) as H1. pose proof (Qlt_floor q) as H2.
  rewrite inject_Z_plus in H2. change (inject_Z 1) with 1%Q in H2.
  assert (Ha : (inject_Z n < inject_Z (Qfloor q + 1))%Q)
    by (rewrite inject_Z_plus; change (inject_Z 1) with 1%Q; lra).
  assert (Hb : (inject_Z (Qfloor q) < inject_Z (n + 1))%Q)
    by (rewrite inject_Z_plus; change (inject_Z 1) with 1%Q; lra).
  rewrite <- Zlt_Qlt in Ha, Hb. lia.
Qed.

Lemma Qtrunc_nonneg (q : Q) : (0 <= q)%Q -> Planner.Qtrunc q = Qfloor q.
Proof.
  destruct q as [n d]. unfold Qle, Planner.Qtrunc, Qfloor. simpl. intros H.
  apply Z.quot_div_nonneg; lia.
Qed.

End RationalRounding.

Section ColourMaps.

Import Visualizer.

(** Closes a goal on one branch of a colour map, given the bounds of the
    scaled input. *)
Ltac colour_branch E :=
  simpl; unfold inject_Z in E;
  split; [try lra|intros [H|H]; first [reflexivity|lra]].

(** X1.  [jetColorMap] yields a colour in the unit cube for every input,
    and pure red for every input below 0 or not below 1. *)
Theorem jetColorMap_unit_cube (a : Q) :
  in_unit_cube (jetColorMap a) /\
  ((a < 0 \/ 1 <= a)%Q -> jetColorMap a = mkVector3d 1 0 0).
Proof.
  unfold jetColorMap, in_unit_cube.
  destruct (Qfloor (a * 4)) as [|p|p] eqn:E; apply Qfloor_between in E.
  - colour_branch E.
  - destruct p as [[p|p|]|[p|p|]|]; colour_branch E.
  - colour_branch E.
Qed.

(** X2.  [hotColorMap] yields a colour in the unit cube for every input,
    and pure red for every input below 0 or not below 1. *)
Theorem hotColorMap_unit_cube (a : Q) :
  in_unit_cube (hotColorMap a) /\
  ((a < 0 \/ 1 <= a)%Q -> hotColorMap a = mkVector3d 1 0 0).
Proof.
  unfold hotColorMap, in_unit_cube.
  destruct (Qfloor (a * 3)) as [|p|p] eqn:E; apply Qfloor_between in E.
  - colour_branch E.
  - destruct p as [[p|p|]|[p|p|]|]; colour_branch E.
  - colour_branch E.
Qed.

End ColourMaps.

(** * Properties of risk_voxel.h *)

Section VoxelArithmetic.

Lemma Qltb_true (a b : Q) : Qltb a b = true <-> (a < b)%Q.
Proof.
  unfold Qltb. destruct (Qlt_le_dec a b) as [H|H]; split; intros H'; auto; try discriminate.
  lra.
Qed.

Lemma Qgtb_true (a b : Q) : Qgtb a b = true <-> (b < a)%Q.
Proof. unfold Qgtb. apply Qltb_true. Qed.

(** The voxel coordinate of an offset [a] from the lower face of a map
    of [N] voxels of size [res]. *)
Lemma Qtrunc_voxel (a res : Q) (N : Z) :
  (0 < res)%Q -> (0 <= a)%Q -> (a < inject_Z N * res)%Q ->
  0 <= Planner.Qtrunc (a / res) < N /\
  (inject_Z (Planner.Qtrunc (a / res)) * res <= a)%Q /\
  (a < (inject_Z (Planner.Qtrunc (a / res)) + 1) * res)%Q.
Proof.
  intros Hres Ha Hn.
  assert (Hq0 : (0 <= a / res)%Q) by (apply Qle_shift_div_l; lra).
  assert (HqN : (a / res < inject_Z N)%Q) by (apply Qlt_shift_div_r; lra).
  rewrite (Qtrunc_nonneg _ Hq0).
  destruct (Qfloor_between (a / res) _ eq_refl) as [Hl Hu].
  assert (Ha' : (a == a / res * res)%Q) by (field; lra).
  split; [split|split].
  - assert (H : (inject_Z 0 <= a / res)%Q) by exact Hq0.
    apply Qfloor_resp_le in H. rewrite Qfloor_Z in H. exact H.
  - rewrite Zlt_Qlt. lra.
  - rewrite Ha' at 2. apply Qmult_le_compat_r; lra.
  - rewrite Ha' at 1. apply Qmult_lt_compat_r; lra.
Qed.

(** Decoding a row-major index on nonnegative operands. *)
Lemma row_major_decode (L W x y z : Z) :
  0 <= x < L -> 0 <= y < W -> 0 <= z ->
  let index := z * L * W + y * L + x in
  Z.rem index L = x /\ Z.rem (Z.quot index L) W = y /\ Z.quot index (L * W) = z.
Proof.
  intros Hx Hy Hz index.
  assert (HzL : 0 <= z * L) by nia.
  assert (HzLW : 0 <= z * L * W) by nia.
  assert (HyL : 0 <= y * L) by nia.
  assert (HzW : 0 <= z * W) by nia.
  assert (Hi : 0 <= index) by (unfold index; lia).
  assert (Hdiv : index / L = z * W + y).
  { unfold index. replace (z * L * W + y * L + x) with (x + (z * W + y) * L) by ring.
    rewrite Z.div_add by lia. rewrite Z.div_small by lia. lia. }
  rewrite Z.rem_mod_nonneg by lia.
  rewrite (Z.quot_div_nonneg index L) by lia.
  rewrite Hdiv.
  rewrite Z.rem_mod_nonneg by nia.
  rewrite Z.quot_div_nonneg by nia.
  split; [|split].
  - unfold index. replace (z * L * W + y * L + x) with (x + (z * W + y) * L) by ring.
    rewrite Z.mod_add by lia. apply Z.mod_small. lia.
  - replace (z * W + y) with (y + z * W) by ring.
    rewrite Z.mod_add by lia. apply Z.mod_small. lia.
  - rewrite <- Z.div_div by lia. rewrite Hdiv.
    replace (z * W + y) with (y + z * W) by ring.
    rewrite Z.div_add by lia. rewrite Z.div_small by lia. lia.
Qed.

Lemma row_major_bound (L W H x y z : Z) :
  0 <= x < L -> 0 <= y < W -> 0 <= z < H ->
  0 <= z * L * W + y * L + x < L * W * H.
Proof.
  intros Hx Hy Hz.
  assert (HLW : 0 < L * W) by nia.
  assert (H1 : 0 <= z * (L * W)) by (apply Z.mul_nonneg_nonneg; lia).
  assert (H2 : z * (L * W) <= (H - 1) * (L * W))
    by (apply Z.mul_le_mono_nonneg_r; lia).
  assert (H3 : 0 <= y * L) by (apply Z.mul_nonneg_nonneg; lia).
  assert (H4 : y * L <= (W - 1) * L) by (apply Z.mul_le_mono_nonneg_r; lia).
  nia.
Qed.

End VoxelArithmetic.

Section RiskVoxelFacts.

Import RiskVoxel.

Context {size : MapSize}.

Lemma isInRange_true (m : Fields) (p : Vector3d) :
  isInRange m p = true ->
  (- local_update_range_x_ m < vec_x p < local_update_range_x_ m)%Q /\
  (- local_update_range_y_ m < vec_y p < local_update_range_y_ m)%Q /\
  (- local_update_range_z_ m < vec_z p < local_update_range_z_ m)%Q.
Proof.
  unfold isInRange. rewrite !andb_true_iff, !Qgtb_true, !Qltb_true. tauto.
Qed.

(** The three voxel coordinates of a point in range. *)
Lemma coordinates_in_range (m : Fields) (p : Vector3d) :
  range_fits_grid m -> isInRange m p = true ->
  let x := Planner.Qtrunc ((vec_x p + local_update_range_x_ m) / resolution_ m) in
  let y := Planner.Qtrunc ((vec_y p + local_update_range_y_ m) / resolution_ m) in
  let z := Planner.Qtrunc ((vec_z p + local_update_range_z_ m) / resolution_ m) in
  (0 <= x < MAP_LENGTH_VOXEL_NUM /\ 0 <= y < MAP_WIDTH_VOXEL_NUM /\
   0 <= z < MAP_HEIGHT_VOXEL_NUM) /\
  in_voxel (mkVector3d (inject_Z x * resolution_ m - local_update_range_x_ m)
                       (inject_Z y * resolution_ m - local_update_range_y_ m)
                       (inject_Z z * resolution_ m - local_update_range_z_ m))
           (resolution_ m) p.
Proof.
  intros (Hres & HL & HW & HH & Hx & Hy & Hz) Hin.
  destruct (isInRange_true m p Hin) as (Px & Py & Pz).
  destruct (Qtrunc_voxel (vec_x p + local_update_range_x_ m) (resolution_ m)
              MAP_LENGTH_VOXEL_NUM Hres) as (Bx & Lx & Ux); [lra|lra|].
  destruct (Qtrunc_voxel (vec_y p + local_update_range_y_ m) (resolution_ m)
              MAP_WIDTH_VOXEL_NUM Hres) as (By & Ly & Uy); [lra|lra|].
  destruct (Qtrunc_voxel (vec_z p + local_update_range_z_ m) (resolution_ m)
              MAP_HEIGHT_VOXEL_NUM Hres) as (Bz & Lz & Uz); [lra|lra|].
  cbv zeta. split; [auto|].
  unfold in_voxel. cbn [vec_x vec_y vec_z]. repeat split; lra.
Qed.



End RiskVoxelFacts.

Section RiskVoxelScenarios.

Import RiskVoxel.

Lemma grid_4_4_2_fits : @range_fits_grid MoreScenarios.grid_4_4_2 MoreScenarios.voxel_fields.
Proof.
  unfold range_fits_grid. repeat split; try reflexivity; unfold Qle; simpl; lia.
Qed.



End RiskVoxelScenarios.

(** * Properties of the map index of multi_planning.cpp *)

Section MapIndexFacts.

Import PlannerNode.

Context {macros : MapMacros}.

(** Moving a point by [k] voxels adds [k] to its voxel coordinate. *)
Lemma Qtrunc_voxel_shift (a : Q) (k : Z) :
  (0 < VOXEL_RESOLUTION)%Q -> (0 <= a)%Q -> 0 <= k ->
  Planner.Qtrunc ((a + inject_Z k * VOXEL_RESOLUTION) / VOXEL_RESOLUTION)
  = Planner.Qtrunc (a / VOXEL_RESOLUTION) + k.
Proof.
  intros resolution_positive Ha Hk.
  assert (Hq0 : (0 <= a / VOXEL_RESOLUTION)%Q) by (apply Qle_shift_div_l; lra).
  assert (Hk0 : (0 <= inject_Z k)%Q)
    by (change 0%Q with (inject_Z 0); rewrite <- Zle_Qle; exact Hk).
  assert (Hq : ((a + inject_Z k * VOXEL_RESOLUTION) / VOXEL_RESOLUTION
                == a / VOXEL_RESOLUTION + inject_Z k)%Q) by (field; lra).
  rewrite !Qtrunc_nonneg; [|exact Hq0|rewrite Hq; lra].
  rewrite Hq. apply Qfloor_unique.
  destruct (Qfloor_between (a / VOXEL_RESOLUTION) _ eq_refl) as [Hl Hu].
  rewrite inject_Z_plus. lra.
Qed.

Lemma spatial_coordinates_in_box (p c : Vector3d) :
  (0 < VOXEL_RESOLUTION)%Q ->
  in_map_box constructor_map c p ->
  let '(x, y, z) := spatial_coordinates constructor_map p c in
  0 <= x < MAP_LENGTH_VOXEL_NUM /\ 0 <= y < MAP_WIDTH_VOXEL_NUM /\
  0 <= z < MAP_HEIGHT_VOXEL_NUM.
Proof.
  intros resolution_positive (Hx & Hy & Hz).
  unfold spatial_coordinates, constructor_map in *.
  cbn [_map_half_length _map_half_width _map_half_height] in *.
  split; [|split]; apply Qtrunc_voxel; try exact resolution_positive;
    set (l := (inject_Z MAP_LENGTH_VOXEL_NUM * VOXEL_RESOLUTION)%Q) in *;
    set (w := (inject_Z MAP_WIDTH_VOXEL_NUM * VOXEL_RESOLUTION)%Q) in *;
    set (h := (inject_Z MAP_HEIGHT_VOXEL_NUM * VOXEL_RESOLUTION)%Q) in *;
    clearbody l w h; unfold Qdiv in *; change (/ 2)%Q with (1 # 2)%Q in *; lra.
Qed.



End MapIndexFacts.

Section MapIndexScenarios.

Import PlannerNode.



End MapIndexScenarios.

(** * Properties of the inflation kernel *)

Section KernelFacts.

Import FakeMapUpdate.

Lemma int_range_In (lo hi k : Z) : In k (int_range lo hi) <-> lo <= k <= hi.
Proof.
  unfold int_range. rewrite in_map_iff. split.
  - intros (n & <- & Hn). apply in_seq in Hn. lia.
  - intros H. exists (Z.to_nat (k - lo)). split; [lia|]. apply in_seq. lia.
Qed.

Lemma int_range_length (lo hi : Z) :
  length (int_range lo hi) = Z.to_nat (hi - lo + 1).
Proof. unfold int_range. rewrite length_map, length_seq. reflexivity. Qed.

Lemma int_range_NoDup (lo hi : Z) : NoDup (int_range lo hi).
Proof.
  unfold int_range. apply NoDup_map_NoDup_ForallPairs; [|apply seq_NoDup].
  intros a b _ _ H. lia.
Qed.

Lemma flat_map_length_const {T U : Type} (f : T -> list U) (l : list T) (n : nat) :
  (forall x, In x l -> length (f x) = n) -> length (flat_map f l) = (length l * n)%nat.
Proof.
  induction l as [|x l IH]; intros H; simpl; [reflexivity|].
  rewrite length_app, H, IH; [reflexivity| |left; reflexivity].
  intros y Hy. apply H. right. exact Hy.
Qed.

Lemma flat_map_NoDup {T U : Type} (f : T -> list U) (l : list T) :
  NoDup l ->
  (forall x, In x l -> NoDup (f x)) ->
  (forall x y u, In x l -> In y l -> In u (f x) -> In u (f y) -> x = y) ->
  NoDup (flat_map f l).
Proof.
  induction 1 as [|x l Hx Hl IH]; intros Hf Hdis; simpl; [constructor|].
  apply NoDup_app.
  - apply Hf. left. reflexivity.
  - apply IH; [intros y Hy; apply Hf; right; exact Hy|].
    intros a b u Ha Hb. apply Hdis; right; assumption.
  - intros u Hu Hin. apply in_flat_map in Hin. destruct Hin as (y & Hy & Huy).
    assert (x = y) by (apply (Hdis x y u); [left; reflexivity|right; exact Hy|exact Hu|exact Huy]).
    subst. exact (Hx Hy).
Qed.

Lemma kernel_loops_cube (s : Z) :
  (forall v, In v (kernel_loops s) <->
             - s <= ivec_x v <= s /\ - s <= ivec_y v <= s /\ - s <= ivec_z v <= s) /\
  NoDup (kernel_loops s) /\
  length (kernel_loops s) = Z.to_nat ((2 * s + 1) * (2 * s + 1) * (2 * s + 1)).
Proof.
  split; [|split].
  - intros [x y z]. unfold kernel_loops. rewrite in_flat_map. simpl. split.
    + intros (x' & Hx & H). apply in_flat_map in H. destruct H as (y' & Hy & H).
      apply in_map_iff in H. destruct H as (z' & E & Hz). inversion E; subst.
      rewrite int_range_In in Hx, Hy, Hz. auto.
    + intros (Hx & Hy & Hz). exists x. rewrite int_range_In. split; [exact Hx|].
      apply in_flat_map. exists y. rewrite int_range_In. split; [exact Hy|].
      apply in_map. apply int_range_In. exact Hz.
  - unfold kernel_loops. apply flat_map_NoDup; [apply int_range_NoDup| |].
    + intros x _. apply flat_map_NoDup; [apply int_range_NoDup| |].
      * intros y _. apply NoDup_map_NoDup_ForallPairs; [|apply int_range_NoDup].
        intros a b _ _ E. inversion E. reflexivity.
      * intros a b u _ _ Ha Hb. apply in_map_iff in Ha, Hb.
        destruct Ha as (? & <- & _). destruct Hb as (? & E & _). inversion E. reflexivity.
    + intros a b u _ _ Ha Hb. apply in_flat_map in Ha, Hb.
      destruct Ha as (? & _ & Ha). destruct Hb as (? & _ & Hb).
      apply in_map_iff in Ha, Hb.
      destruct Ha as (? & <- & _). destruct Hb as (? & E & _). inversion E. reflexivity.
  - unfold kernel_loops.
    rewrite (flat_map_length_const _ _ (length (int_range (- s) s) * length (int_range (- s) s))).
    + rewrite int_range_length.
      replace (s - - s + 1) with (2 * s + 1) by lia.
      destruct (Z.le_gt_cases 0 (2 * s + 1)) as [H|H].
      * rewrite !Z2Nat.inj_mul by nia. lia.
      * replace (Z.to_nat (2 * s + 1)) with O by lia.
        replace (Z.to_nat ((2 * s + 1) * (2 * s + 1) * (2 * s + 1))) with O by nia.
        reflexivity.
    + intros x _. rewrite (flat_map_length_const _ _ (length (int_range (- s) s))).
      * reflexivity.
      * intros y _. apply length_map.
Qed.


End KernelFacts.

(** * Properties of the occupancy query with an inflation kernel *)

Section KernelQueryFacts.

Import FakeParticleRiskVoxel.

Context {base : MapBase}.

Lemma Qgtb_comp (a a' b : Q) : (a == a')%Q -> Qgtb a b = Qgtb a' b.
Proof.
  intros E. destruct (Qgtb a b) eqn:H1; destruct (Qgtb a' b) eqn:H2; try reflexivity.
  - apply Qgtb_true in H1. assert (H : Qgtb a' b = true) by (apply Qgtb_true; lra).
    congruence.
  - apply Qgtb_true in H2. assert (H : Qgtb a b = true) by (apply Qgtb_true; lra).
    congruence.
Qed.

Lemma Qgtb_false (a b : Q) : Qgtb a b = false <-> (a <= b)%Q.
Proof.
  split; intros H.
  - destruct (Qlt_le_dec b a) as [Hlt|Hle]; [|exact Hle].
    apply Qgtb_true in Hlt. congruence.
  - destruct (Qgtb a b) eqn:E; [|reflexivity]. apply Qgtb_true in E. lra.
Qed.

Lemma read_risk_in_bounds (m : Map) (idx t : Z) :
  0 <= idx < VOXEL_NUM -> 0 <= t < PREDICTION_TIMES ->
  read_risk m idx t = Some (risk_maps_ m idx t).
Proof.
  intros Hi Ht. unfold read_risk.
  destruct (Z.leb_spec 0 idx); [|lia]. destruct (Z.ltb_spec idx VOXEL_NUM); [|lia].
  destruct (Z.leb_spec 0 t); [|lia]. destruct (Z.ltb_spec t PREDICTION_TIMES); [|lia].
  reflexivity.
Qed.

Lemma kernel_risk_nonneg (m : Map) (pos_i : Vector3i) (t : Z) (kernel : list Vector3i) :
  cells_readable m pos_i t kernel -> (0 <= kernel_risk m pos_i t kernel)%Q.
Proof.
  induction kernel as [|ego_i rest IH]; intros Hc; simpl; [lra|].
  assert (Hrest : cells_readable m pos_i t rest)
    by (intros e He; apply Hc; right; exact He).
  destruct (isInRange (ivec_add pos_i ego_i)) eqn:E; [|auto].
  destruct (Hc ego_i (or_introl eq_refl) E) as [_ Hr]. specialize (IH Hrest). lra.
Qed.

(** The loop, started with a sum not above the threshold, answers 1
    exactly when the sum plus the total risk exceeds the threshold. *)
Lemma sum_kernel_total (m : Map) (pos_i : Vector3i) (t : Z) (kernel : list Vector3i) :
  0 <= t < PREDICTION_TIMES ->
  cells_readable m pos_i t kernel ->
  forall sum_risk : Q,
    (sum_risk <= risk_threshold_ m)%Q ->
    sum_kernel m pos_i t kernel sum_risk
    = Value (if Qgtb (sum_risk + kernel_risk m pos_i t kernel) (risk_threshold_ m)
             then 1 else 0).
Proof.
  intros Ht. induction kernel as [|ego_i rest IH]; intros Hc sum_risk Hs; simpl.
  - assert (E : Qgtb (sum_risk + 0) (risk_threshold_ m) = false)
      by (apply Qgtb_false; lra).
    rewrite E. reflexivity.
  - assert (Hrest : cells_readable m pos_i t rest)
      by (intros e He; apply Hc; right; exact He).
    destruct (isInRange (ivec_add pos_i ego_i)) eqn:E; simpl; [|apply IH; assumption].
    destruct (Hc ego_i (or_introl eq_refl) E) as [Hidx Hr].
    rewrite (read_risk_in_bounds m _ t Hidx Ht).
    pose proof (kernel_risk_nonneg m pos_i t rest Hrest) as Hnn.
    destruct (Qgtb (sum_risk + risk_maps_ m (getVoxelIndex (ivec_add pos_i ego_i)) t)
                   (risk_threshold_ m)) eqn:Hgt.
    + apply Qgtb_true in Hgt.
      assert (E' : Qgtb (sum_risk
                         + (risk_maps_ m (getVoxelIndex (ivec_add pos_i ego_i)) t
                            + kernel_risk m pos_i t rest)) (risk_threshold_ m) = true)
        by (apply Qgtb_true; lra).
      rewrite E'. reflexivity.
    + apply Qgtb_false in Hgt. rewrite (IH Hrest _ Hgt).
      rewrite (Qgtb_comp _ (sum_risk
                            + (risk_maps_ m (getVoxelIndex (ivec_add pos_i ego_i)) t
                               + kernel_risk m pos_i t rest))); [reflexivity|ring].
Qed.

(** X9.  At a position in range and a slice inside the array, with
    nonnegative risks and a nonnegative threshold, the query answers 1
    exactly when the total risk of the kernel cells in range exceeds the
    threshold, and 0 otherwise. *)
Theorem getClearOcccupancy_t_total_risk (m : Map) (pos : Vector3d) (t : Z) :
  0 <= t < PREDICTION_TIMES ->
  (0 <= risk_threshold_ m)%Q ->
  isInRange (getVoxelRelIndex (vec_sub pos (pose_ m))) = true ->
  cells_readable m (getVoxelRelIndex (vec_sub pos (pose_ m))) t (inflate_kernel_ m) ->
  getClearOcccupancy_t m pos t
  = Value (if Qgtb (kernel_risk m (getVoxelRelIndex (vec_sub pos (pose_ m))) t
                      (inflate_kernel_ m)) (risk_threshold_ m)
           then 1 else 0).
Proof.
  intros Ht Hthr Hin Hc. unfold getClearOcccupancy_t. rewrite Hin. simpl negb. cbv iota.
  rewrite (sum_kernel_total m _ t _ Ht Hc 0%Q Hthr).
  rewrite (Qgtb_comp _ (kernel_risk m (getVoxelRelIndex (vec_sub pos (pose_ m))) t
                          (inflate_kernel_ m))); [reflexivity|ring].
Qed.

End KernelQueryFacts.

Section KernelQueryScenarios.

Import FakeParticleRiskVoxel.

(** X9 (witness): voxel 0 of the small map at slice 1, where its risk is
    1 and the threshold 0.5. *)
Lemma getClearOcccupancy_t_total_risk_witness :
  @getClearOcccupancy_t Scenarios.small_grid Scenarios.small_map Scenarios.inside_point 1
  = Value 1.
Proof.
  apply (@getClearOcccupancy_t_total_risk Scenarios.small_grid Scenarios.small_map
           Scenarios.inside_point 1).
  - simpl. lia.
  - unfold Qle. simpl. lia.
  - reflexivity.
  - intros ego_i [<-|[]] _. split; [simpl; lia|]. unfold Qle. simpl. lia.
Defined.

End KernelQueryScenarios.

(** * Properties of obstacle insertion and of the ground-truth callback *)

Section InsertionFacts.

Import FakeParticleRiskVoxel FakeMapUpdate.

Context {base : MapBase}.
Context {helpers : PointHelpers}.

(** X10.  When the slice is inside the array and every point in range
    has its index inside the array, [addObstaclesToRiskMap] succeeds; it
    sets to 1 exactly the cells of that slice hit by a point in range,
    and leaves every other cell and every other member as it was. *)
Theorem addObstaclesToRiskMap_marks (m : Map) (pts : list Vector3d) (t_index : Z) :
  0 <= t_index < PREDICTION_TIMES ->
  (forall pt, In pt pts -> isInRange_f pt = true -> 0 <= getVoxelIndex_f pt < VOXEL_NUM) ->
  exists m',
    addObstaclesToRiskMap m pts t_index = Some m' /\
    (forall i k, risk_maps_ m' i k
                 = if (k =? t_index) && hits pts i then 1%Q else risk_maps_ m i k) /\
    pose_ m' = pose_ m /\ inflate_kernel_ m' = inflate_kernel_ m /\
    risk_threshold_ m' = risk_threshold_ m /\ time_resolution_ m' = time_resolution_ m.
Proof.
  intros Ht. revert m. induction pts as [|pt rest IH]; intros m Hidx; simpl.
  - exists m. repeat split. intros i k. rewrite andb_false_r. reflexivity.
  - assert (Hrest : forall q, In q rest -> isInRange_f q = true ->
                              0 <= getVoxelIndex_f q < VOXEL_NUM)
      by (intros q Hq; apply Hidx; right; exact Hq).
    destruct (isInRange_f pt) eqn:E; simpl.
    + specialize (Hidx pt (or_introl eq_refl) E).
      unfold write_risk.
      destruct (Z.leb_spec 0 (getVoxelIndex_f pt)); [|lia].
      destruct (Z.ltb_spec (getVoxelIndex_f pt) VOXEL_NUM); [|lia].
      destruct (Z.leb_spec 0 t_index); [|lia].
      destruct (Z.ltb_spec t_index PREDICTION_TIMES); [|lia].
      simpl.
      destruct (IH (with_risk_maps m
                      (fun i k => if (i =? getVoxelIndex_f pt) && (k =? t_index)
                                  then 1%Q else risk_maps_ m i k)) Hrest)
        as (m' & Hrun & Hcells & Hp & Hk & Hth & Htr).
      exists m'. split; [exact Hrun|]. split; [|auto].
      intros i k. rewrite Hcells. simpl.
      destruct (Z.eqb_spec k t_index); simpl.
      * destruct (hits rest i); [destruct (getVoxelIndex_f pt =? i); reflexivity|].
        rewrite (Z.eqb_sym i). destruct (getVoxelIndex_f pt =? i); reflexivity.
      * rewrite andb_false_r. reflexivity.
    + destruct (IH m Hrest) as (m' & Hrun & Hcells & Hrest').
      exists m'. split; [exact Hrun|]. split; [|exact Hrest'].
      intros i k. rewrite Hcells. reflexivity.
Qed.

End InsertionFacts.

Section GroundTruthFacts.

Import FakeMapUpdate.

Lemma set_nth_None {T : Type} (l : list T) (i : nat) (c : T) :
  set_nth l i c = None <-> (length l <= i)%nat.
Proof.
  revert i. induction l as [|x l IH]; intros i; simpl.
  - split; [lia|reflexivity].
  - destruct i as [|i]; [split; [discriminate|lia]|].
    specialize (IH i). destruct (set_nth l i c); split; intros H; try discriminate.
    + assert (H0 : (length l <= i)%nat) by lia. apply IH in H0. discriminate.
    + apply IH in H. lia.
    + reflexivity.
Qed.

Lemma set_nth_Some {T : Type} (l l' : list T) (i : nat) (c : T) :
  set_nth l i c = Some l' ->
  length l' = length l /\ nth_error l' i = Some c /\
  forall j, j <> i -> nth_error l' j = nth_error l j.
Proof.
  revert i l'. induction l as [|x l IH]; intros i l'; simpl; [discriminate|].
  destruct i as [|i].
  - intros H; inversion H; subst. repeat split. intros [|j] Hj; [lia|reflexivity].
  - destruct (set_nth l i c) as [r|] eqn:E; [|discriminate].
    intros H; inversion H; subst. destruct (IH i r E) as (Hl & Hn & Ho).
    simpl. repeat split; [lia|exact Hn|].
    intros [|j] Hj; [reflexivity|]. simpl. apply Ho. lia.
Qed.

Lemma store_markers_None (markers : list Marker) :
  forall cyls,
    store_markers cyls markers = None <->
    exists mk, In mk markers /\ bad_marker (length cyls) mk.
Proof.
  induction markers as [|mk rest IH]; intros cyls; simpl.
  - split; [discriminate|intros (? & [] & _)].
  - destruct (marker_points mk) as [|p0 [|p1 ps]] eqn:Ep.
    + split; [|reflexivity]. intros _. exists mk. split; [auto|].
      unfold bad_marker. rewrite Ep. simpl. lia.
    + split; [|reflexivity]. intros _. exists mk. split; [auto|].
      unfold bad_marker. rewrite Ep. simpl. lia.
    + destruct (Z.ltb_spec (marker_id mk) 0) as [Hneg|Hpos].
      * split; [|reflexivity]. intros _. exists mk. split; [auto|]. left. exact Hneg.
      * destruct (set_nth cyls (Z.to_nat (marker_id mk)) (cylinder_of mk p0 p1))
          as [cyls'|] eqn:Es.
        -- destruct (set_nth_Some _ _ _ _ Es) as (Hl & _).
           rewrite IH, Hl. split.
           ++ intros (b & Hb & Hbad). exists b. auto.
           ++ intros (b & [<-|Hb] & Hbad); [|exists b; auto].
              exfalso. assert (Hn : set_nth cyls (Z.to_nat (marker_id mk))
                                      (cylinder_of mk p0 p1) <> None) by congruence.
              apply Hn. apply set_nth_None.
              destruct Hbad as [H|[H|H]]; [lia|lia|rewrite Ep in H; simpl in H; lia].
        -- split; [|reflexivity]. intros _. exists mk. split; [auto|].
           apply set_nth_None in Es. right. left. lia.
Qed.

Lemma store_markers_Some (markers : list Marker) :
  forall cyls cyls',
    store_markers cyls markers = Some cyls' ->
    length cyls' = length cyls /\
    (forall j, ~ In (Z.of_nat j) (map marker_id markers) ->
               nth_error cyls' j = nth_error cyls j) /\
    (NoDup (map marker_id markers) ->
     forall mk, In mk markers ->
       exists p0 p1 ps, marker_points mk = p0 :: p1 :: ps /\
         nth_error cyls' (Z.to_nat (marker_id mk)) = Some (cylinder_of mk p0 p1)).
Proof.
  induction markers as [|mk rest IH]; intros cyls cyls'; simpl.
  - intros H; inversion H; subst. repeat split. intros _ ? [].
  - destruct (marker_points mk) as [|p0 [|p1 ps]] eqn:Ep; try discriminate.
    destruct (Z.ltb_spec (marker_id mk) 0) as [Hneg|Hpos]; [discriminate|].
    destruct (set_nth cyls (Z.to_nat (marker_id mk)) (cylinder_of mk p0 p1))
      as [cyls1|] eqn:Es; [|discriminate].
    intros Hrun. destruct (set_nth_Some _ _ _ _ Es) as (Hl & Hn & Ho).
    destruct (IH _ _ Hrun) as (Hl' & Hkeep & Hstored).
    split; [lia|]. split.
    + intros j Hj. rewrite Hkeep by tauto. apply Ho. intros ->. apply Hj. left. lia.
    + intros Hnd mk' [<-|Hin].
      * exists p0, p1, ps. split; [exact Ep|].
        inversion Hnd as [|? ? Hnot Hnd']; subst.
        rewrite Hkeep; [exact Hn|]. rewrite Z2Nat.id by lia. exact Hnot.
      * inversion Hnd as [|? ? Hnot Hnd']; subst. apply Hstored; assumption.
Qed.

(** X11.  The callback fails, by an access outside [gt_cylinders_] or
    outside the points of a marker, exactly when some marker has an id
    outside [0, n) for [n] the number of markers, or fewer than two
    points.  Otherwise the new vector has [n] elements and, when the ids
    are pairwise different, each marker is stored at the position of its
    id, with the velocity taken as the difference of its first two
    points. *)
Theorem groundTruthStateCallback_stores (markers : list Marker) :
  (groundTruthStateCallback markers = None <->
   exists mk, In mk markers /\ bad_marker (length markers) mk) /\
  (forall cyls,
      groundTruthStateCallback markers = Some cyls ->
      length cyls = length markers /\
      (NoDup (map marker_id markers) ->
       forall mk, In mk markers ->
         exists p0 p1 ps, marker_points mk = p0 :: p1 :: ps /\
           nth_error cyls (Z.to_nat (marker_id mk)) = Some (cylinder_of mk p0 p1))).
Proof.
  unfold groundTruthStateCallback. split.
  - rewrite store_markers_None, repeat_length. reflexivity.
  - intros cyls Hrun. destruct (store_markers_Some _ _ _ Hrun) as (Hl & _ & Hs).
    rewrite repeat_length in Hl. auto.
Qed.

End GroundTruthFacts.

Section InsertionScenarios.

Import FakeParticleRiskVoxel FakeMapUpdate.

(** X10 (witness): two points, one in range, added to slice 2 of the
    small map. *)
Lemma addObstaclesToRiskMap_marks_witness :
  exists m',
    @addObstaclesToRiskMap Scenarios.small_grid MoreScenarios.small_grid_points
      Scenarios.small_map [Scenarios.inside_point; Scenarios.outside_point] 2 = Some m' /\
    risk_maps_ m' 0 2 = 1%Q /\ risk_maps_ m' 0 1 = 1%Q /\ risk_maps_ m' 3 2 = 0%Q.
Proof.
  destruct (@addObstaclesToRiskMap_marks Scenarios.small_grid MoreScenarios.small_grid_points
              Scenarios.small_map [Scenarios.inside_point; Scenarios.outside_point] 2)
    as (m' & Hrun & Hcells & _).
  - simpl. lia.
  - intros pt [<-|[<-|[]]] H; [|discriminate H].
    vm_compute. split; [discriminate|reflexivity].
  - exists m'. split; [exact Hrun|]. rewrite !Hcells. repeat split.
Defined.

(** The two demonstration markers are stored at positions 1 and 0. *)
Example groundTruthStateCallback_demo :
  groundTruthStateCallback MoreScenarios.demo_markers
  = Some [mkCylinder 2 5 5 1 2 0 (0 - 0) ((1 # 2) - 0) 1 0 0 0;
          mkCylinder 3 2 3 0 (3 # 10) 2 (1 - 0) (0 - 0) 1 0 0 0].
Proof. reflexivity. Qed.

End InsertionScenarios.

(** * Properties of the planner node as a whole *)

Section NodeFacts.

Import Planner PlannerNode.

Context {macros : MapMacros}.
Context {Opt Traj Polys : Type}.
Context {solver : CorridorMiniSnap Opt Traj Polys}.
Context {decomp : DecompUtils Polys}.
Context {astar : AstarPlanner}.
Variable cfg : PlannerConfig.

Local Abbreviation Object := (@Object Opt Traj).

Lemma count_up_In (n k : Z) : In k (count_up n) <-> 0 <= k < n.
Proof.
  unfold count_up. rewrite in_map_iff. split.
  - intros (m & <- & Hm). apply in_seq in Hm. lia.
  - intros H. exists (Z.to_nat k). split; [lia|]. apply in_seq. lia.
Qed.

Lemma copy_row_spec (msg : Float32MultiArray) (i : Z) (js : list Z) :
  (forall j, In j js -> read_cell msg i j <> None) ->
  forall fr, exists fr',
    copy_row msg i js fr = Some fr' /\
    (forall b, In b js -> Some (fr' i b) = read_cell msg i b) /\
    (forall a b, ~ (a = i /\ In b js) -> fr' a b = fr a b).
Proof.
  induction js as [|j js IH]; intros Hread fr; simpl.
  - exists fr. repeat split. intros b [].
  - destruct (read_cell msg i j) as [v|] eqn:E;
      [|exfalso; apply (Hread j); [left; reflexivity|exact E]].
    destruct (IH (fun b Hb => Hread b (or_intror Hb))
                 (fun a b => if (a =? i) && (b =? j) then v else fr a b))
      as (fr' & Hrun & Hin & Hout).
    exists fr'. split; [exact Hrun|]. split.
    + intros b [<-|Hb]; [|apply Hin; exact Hb].
      destruct (in_dec Z.eq_dec j js) as [Hj|Hj]; [apply Hin; exact Hj|].
      rewrite Hout by tauto. rewrite !Z.eqb_refl. simpl. symmetry. exact E.
    + intros a b Hab. rewrite Hout by tauto.
      destruct (Z.eqb_spec a i); destruct (Z.eqb_spec b j); simpl; try reflexivity.
      exfalso. apply Hab. subst. auto.
Qed.

Lemma copy_rows_spec (msg : Float32MultiArray) (rows js : list Z) :
  (forall i j, In i rows -> In j js -> read_cell msg i j <> None) ->
  forall fr, exists fr',
    copy_rows msg rows js fr = Some fr' /\
    (forall a b, In a rows -> In b js -> Some (fr' a b) = read_cell msg a b) /\
    (forall a b, ~ (In a rows /\ In b js) -> fr' a b = fr a b).
Proof.
  induction rows as [|i rows IH]; intros Hread fr; simpl.
  - exists fr. repeat split. intros a b [].
  - destruct (copy_row_spec msg i js (fun j Hj => Hread i j (or_introl eq_refl) Hj) fr)
      as (fr1 & Hrun1 & Hin1 & Hout1).
    rewrite Hrun1.
    destruct (IH (fun a b Ha Hb => Hread a b (or_intror Ha) Hb) fr1)
      as (fr' & Hrun & Hin & Hout).
    exists fr'. split; [exact Hrun|]. split.
    + intros a b [<-|Ha] Hb; [|apply Hin; assumption].
      destruct (in_dec Z.eq_dec i rows) as [Hi|Hi]; [apply Hin; assumption|].
      rewrite Hout by tauto. apply Hin1. exact Hb.
    + intros a b Hab. simpl in Hab. rewrite Hout by tauto. apply Hout1.
      intros [-> Hb]. apply Hab. auto.
Qed.

Lemma read_data_inside (msg : Float32MultiArray) (k : Z) :
  0 <= k < Z.of_nat (length (data msg)) -> read_data msg k <> None.
Proof.
  intros H. unfold read_data. destruct (Z.ltb_spec k 0); [lia|].
  intros E. apply nth_error_None in E. lia.
Qed.

(** X12.  For a message that fits, [FutureRiskCallback] copies cell
    [i * stride + j] of the data into [_future_risk[i][j]] for every
    voxel [i] and slice [j], takes the map centre from the three values
    behind the tensor, and leaves the odometry untouched.  It ends with
    [_is_future_risk_locked] set and does not change
    [_is_future_risk_updated]. *)
Theorem FutureRiskCallback_copies (o : Object) (msg : Float32MultiArray) :
  message_fits msg ->
  exists o',
    FutureRiskCallback o msg = Some o' /\
    (forall i j, 0 <= i < VOXEL_NUM -> 0 <= j < RISK_MAP_NUMBER ->
                 Some (_future_risk o' i j) = read_cell msg i j) /\
    (forall i j, ~ (0 <= i < VOXEL_NUM /\ 0 <= j < RISK_MAP_NUMBER) ->
                 _future_risk o' i j = _future_risk o i j) /\
    (Some (vec_x (_map_center (core o'))) = read_data msg (VOXEL_NUM * RISK_MAP_NUMBER) /\
     Some (vec_y (_map_center (core o'))) = read_data msg (VOXEL_NUM * RISK_MAP_NUMBER + 1) /\
     Some (vec_z (_map_center (core o'))) = read_data msg (VOXEL_NUM * RISK_MAP_NUMBER + 2)) /\
    odom (core o') = odom (core o) /\
    _is_future_risk_locked o' = true /\
    _is_future_risk_updated (core o') = _is_future_risk_updated (core o).
Proof.
  intros (stride & Hdim & Hcells & Hnn & Hlen).
  unfold FutureRiskCallback.
  destruct (copy_rows_spec msg (count_up VOXEL_NUM) (count_up RISK_MAP_NUMBER)) with
    (fr := _future_risk o) as (fr & Hrun & Hin & Hout).
  { intros i j Hi Hj. apply count_up_In in Hi, Hj.
    unfold read_cell. rewrite Hdim. apply read_data_inside. apply Hcells; assumption. }
  rewrite Hrun.
  destruct (read_data msg (VOXEL_NUM * RISK_MAP_NUMBER)) as [cx|] eqn:Ex;
    [|exfalso; revert Ex; apply read_data_inside; lia].
  destruct (read_data msg (VOXEL_NUM * RISK_MAP_NUMBER + 1)) as [cy|] eqn:Ey;
    [|exfalso; revert Ey; apply read_data_inside; lia].
  destruct (read_data msg (VOXEL_NUM * RISK_MAP_NUMBER + 2)) as [cz|] eqn:Ez;
    [|exfalso; revert Ez; apply read_data_inside; lia].
  eexists. split; [reflexivity|]. simpl. repeat split.
  - intros i j Hi Hj. apply Hin; apply count_up_In; assumption.
  - intros i j Hij. apply Hout. rewrite !count_up_In. exact Hij.
Qed.

Lemma dispatch_keeps_flag (o o' : Object) (input : Input) (evs : list Event) :
  _is_future_risk_updated (core o) = false ->
  dispatch cfg o input = Some (o', evs) ->
  _is_future_risk_updated (core o') = false /\
  (forall e, In e evs -> e = EvRosWarn "Time interval between two plannings").
Proof.
  intros Hflag. destruct input as [msg|msg|msg n1 n2|u]; simpl.
  - unfold FutureRiskCallback.
    destruct (copy_rows _ _ _ _); [|discriminate].
    destruct (read_data _ _); [|discriminate].
    destruct (read_data _ _); [|discriminate].
    destruct (read_data _ _); [|discriminate].
    intros H; inversion H; subst. simpl. split; [exact Hflag|intros e []].
  - intros H; inversion H; subst. unfold PoseCallback.
    destruct (_is_state_locked o); simpl; (split; [exact Hflag|intros e []]).
  - intros H; inversion H; subst. simpl. split; [exact Hflag|intros e []].
  - unfold TrajTimerCallback. rewrite Hflag. simpl.
    intros H; inversion H; subst. simpl. split; [exact Hflag|].
    intros e [<-|[]]. reflexivity.
Qed.

(** X13.  Started from the constructed planner, no sequence of risk,
    pose and velocity messages and timer events makes the timer callback
    plan: [_is_future_risk_updated] stays false, so every timer event
    returns before the search and emits nothing but its first log line. *)
Theorem planning_never_starts (is_rviz_map_center_locked : bool) (fresh : Opt)
    (memory : Object) (inputs : list Input) (o' : Object) (evs : list Event) :
  spin cfg (Planner_new is_rviz_map_center_locked fresh memory) inputs = Some (o', evs) ->
  _is_future_risk_updated (core o') = false /\
  (forall e, In e evs -> e = EvRosWarn "Time interval between two plannings") /\
  (forall n, ~ In (EvSearch n) evs).
Proof.
  assert (Hgen : forall inputs o o' evs,
             _is_future_risk_updated (core o) = false ->
             spin cfg o inputs = Some (o', evs) ->
             _is_future_risk_updated (core o') = false /\
             (forall e, In e evs -> e = EvRosWarn "Time interval between two plannings")).
  { clear. induction inputs as [|input rest IH]; intros o o' evs Hflag; simpl.
    - intros H; inversion H; subst. split; [exact Hflag|intros e []].
    - destruct (dispatch cfg o input) as [[o1 evs1]|] eqn:Ed; [|discriminate].
      destruct (spin cfg o1 rest) as [[o2 evs2]|] eqn:Es; [|discriminate].
      intros H; inversion H; subst.
      destruct (dispatch_keeps_flag _ _ _ _ Hflag Ed) as [Hf1 He1].
      destruct (IH _ _ _ Hf1 Es) as [Hf2 He2].
      split; [exact Hf2|]. intros e He. apply in_app_or in He. destruct He; auto. }
  intros Hspin.
  destruct (Hgen inputs (Planner_new is_rviz_map_center_locked fresh memory) o' evs
              eq_refl Hspin) as [Hf He].
  split; [exact Hf|]. split; [exact He|].
  intros n Hn. apply He in Hn. discriminate Hn.
Qed.

End NodeFacts.

Section StartNodeFacts.

Import Planner.

Context {Opt Traj : Type}.
Context {astar : AstarPlanner}.

Lemma truncate_velocity_bound (vmax v : Q) :
  (0 <= vmax)%Q ->
  (Qabs (truncate_velocity vmax v) <= vmax)%Q /\
  ((Qabs v <= vmax)%Q -> truncate_velocity vmax v = v) /\
  ((vmax < v)%Q -> (truncate_velocity vmax v == vmax)%Q) /\
  ((v < - vmax)%Q -> (truncate_velocity vmax v == - vmax)%Q).
Proof.
  intros Hmax. unfold truncate_velocity.
  destruct (Qgtb (Qabs v) vmax) eqn:E.
  - apply Qgtb_true in E.
    destruct (Qlt_le_dec v 0) as [Hneg|Hpos].
    + assert (Ha : (Qabs v == - v)%Q) by (apply Qabs_neg; lra).
      assert (Hv : (vmax * v / Qabs v == - vmax)%Q) by (rewrite Ha; field; lra).
      rewrite Ha in E.
      split; [rewrite Hv; apply Qabs_Qle_condition; lra|].
      split; [intros H; rewrite Ha in H; lra|].
      split; [intros H; lra|intros _; exact Hv].
    + assert (Ha : (Qabs v == v)%Q) by (apply Qabs_pos; exact Hpos).
      rewrite Ha in E.
      assert (Hv : (vmax * v / Qabs v == vmax)%Q) by (rewrite Ha; field; lra).
      split; [rewrite Hv; apply Qabs_Qle_condition; lra|].
      split; [intros H; rewrite Ha in H; lra|].
      split; [intros _; exact Hv|intros H; lra].
  - apply Qgtb_false in E.
    split; [exact E|]. split; [reflexivity|].
    apply Qabs_Qle_condition in E.
    split; intros H; lra.
Qed.

(** X14.  With nonnegative search limits, the start node handed to the
    search has each velocity component within its limit: each of the
    three components is replaced by the limit with the sign of the
    component when it is beyond the limit, and passed unchanged when it
    is within the limit.  The position is the odometry position relative
    to the map centre. *)
Theorem start_node_velocity_truncated (s : @State Opt Traj) :
  (0 <= v_max_xy)%Q -> (0 <= v_max_z)%Q ->
  ((Qabs (node_vx (make_start_node s)) <= v_max_xy)%Q /\
   ((v_max_xy < vec_x (_odom_vel (odom s)))%Q ->
    (node_vx (make_start_node s) == v_max_xy)%Q) /\
   ((vec_x (_odom_vel (odom s)) < - v_max_xy)%Q ->
    (node_vx (make_start_node s) == - v_max_xy)%Q) /\
   ((Qabs (vec_x (_odom_vel (odom s))) <= v_max_xy)%Q ->
    node_vx (make_start_node s) = vec_x (_odom_vel (odom s)))) /\
  ((Qabs (node_vy (make_start_node s)) <= v_max_xy)%Q /\
   ((v_max_xy < vec_y (_odom_vel (odom s)))%Q ->
    (node_vy (make_start_node s) == v_max_xy)%Q) /\
   ((vec_y (_odom_vel (odom s)) < - v_max_xy)%Q ->
    (node_vy (make_start_node s) == - v_max_xy)%Q) /\
   ((Qabs (vec_y (_odom_vel (odom s))) <= v_max_xy)%Q ->
    node_vy (make_start_node s) = vec_y (_odom_vel (odom s)))) /\
  ((Qabs (node_vz (make_start_node s)) <= v_max_z)%Q /\
   ((v_max_z < vec_z (_odom_vel (odom s)))%Q ->
    (node_vz (make_start_node s) == v_max_z)%Q) /\
   ((vec_z (_odom_vel (odom s)) < - v_max_z)%Q ->
    (node_vz (make_start_node s) == - v_max_z)%Q) /\
   ((Qabs (vec_z (_odom_vel (odom s))) <= v_max_z)%Q ->
    node_vz (make_start_node s) = vec_z (_odom_vel (odom s)))) /\
  node_pos (make_start_node s) = vec_sub (_odom_pos (odom s)) (_map_center s).
Proof.
  intros Hxy Hz. unfold make_start_node. cbn [node_vx node_vy node_vz node_pos vec_x vec_y vec_z].
  destruct (truncate_velocity_bound v_max_xy (vec_x (_odom_vel (odom s))) Hxy)
    as (Bx & Ux & Px & Nx).
  destruct (truncate_velocity_bound v_max_xy (vec_y (_odom_vel (odom s))) Hxy)
    as (By & Uy & Py & Ny).
  destruct (truncate_velocity_bound v_max_z (vec_z (_odom_vel (odom s))) Hz)
    as (Bz & Uz & Pz & Nz).
  split; [auto|]. split; [auto|]. split; [auto|]. reflexivity.
Qed.

End StartNodeFacts.

Section NodeScenarios.

Import Planner PlannerNode.

(** X14 (witness): odometry velocity (5, -3, 0.5) with limits 2 and 1:
    the start node gets (2, -2, 0.5). *)
Lemma start_node_velocity_truncated_witness :
  (node_vx (@make_start_node nat nat (Scenarios.stub_astar []) MoreScenarios.fast_state) == 2)%Q /\
  (node_vy (@make_start_node nat nat (Scenarios.stub_astar []) MoreScenarios.fast_state) == - (2))%Q /\
  node_vz (@make_start_node nat nat (Scenarios.stub_astar []) MoreScenarios.fast_state) = (1 # 2)%Q.
Proof.
  destruct (@start_node_velocity_truncated nat nat (Scenarios.stub_astar [])
              MoreScenarios.fast_state)
    as ((_ & Px & _) & (_ & _ & Ny & _) & (_ & _ & _ & Uz) & _).
  - unfold Qle. simpl. lia.
  - unfold Qle. simpl. lia.
  - split; [apply Px; reflexivity|]. split; [apply Ny; reflexivity|].
    apply Uz. unfold Qle. simpl. lia.
Defined.

(** X12 (witness): a cell and the centre of the small message. *)
Lemma FutureRiskCallback_copies_witness :
  exists o',
    @FutureRiskCallback MoreScenarios.tiny_macros nat nat MoreScenarios.raw_object
      MoreScenarios.tiny_risk_message = Some o' /\
    Some (_future_risk o' 1 0) = Some (1 # 4)%Q /\
    Some (vec_x (_map_center (core o'))) = Some 7%Q.
Proof.
  destruct (@FutureRiskCallback_copies MoreScenarios.tiny_macros nat nat
              MoreScenarios.raw_object MoreScenarios.tiny_risk_message)
    as (o' & Hrun & Hcells & _ & (Hx & _) & _).
  - exists 2. split; [reflexivity|]. simpl. repeat split; lia.
  - exists o'. split; [exact Hrun|]. split.
    + exact (Hcells 1 0 ltac:(simpl; lia) ltac:(simpl; lia)).
    + exact Hx.
Defined.

(** X13 (witness): five inputs to the constructed planner. *)
Lemma planning_never_starts_witness :
  exists o' evs,
    @spin MoreScenarios.tiny_macros nat nat unit Scenarios.never_satisfied
      Scenarios.stub_decomp (Scenarios.stub_astar (Scenarios.line_path 3)) Scenarios.demo_cfg
      (@Planner_new MoreScenarios.tiny_macros nat nat false 0%nat MoreScenarios.raw_object)
      MoreScenarios.demo_inputs = Some (o', evs) /\
    forall n, ~ In (EvSearch n) evs.
Proof.
  destruct (@spin MoreScenarios.tiny_macros nat nat unit Scenarios.never_satisfied
              Scenarios.stub_decomp (Scenarios.stub_astar (Scenarios.line_path 3))
              Scenarios.demo_cfg
              (@Planner_new MoreScenarios.tiny_macros nat nat false 0%nat
                 MoreScenarios.raw_object)
              MoreScenarios.demo_inputs) as [[o' evs]|] eqn:E.
  - exists o', evs. split; [reflexivity|].
    exact (proj2 (proj2 (@planning_never_starts MoreScenarios.tiny_macros nat nat unit
                           Scenarios.never_satisfied Scenarios.stub_decomp
                           (Scenarios.stub_astar (Scenarios.line_path 3))
                           Scenarios.demo_cfg false 0%nat MoreScenarios.raw_object
                           MoreScenarios.demo_inputs o' evs E))).
  - vm_compute in E. discriminate E.
Defined.

End NodeScenarios.

(** * Properties of the plan manager as a whole *)

Section PlanManagerNodeFacts.

Import BaselinePlanner FiniteStateMachine PlanManagerNode.

Context {A M B Mp Traj HPoly : Type}.
Context {astar : RiskHybridAstar A}.
Context {mader : MADER M Traj}.
Context {bezier : BezierOpt B Traj HPoly}.
Context {corridors : Corridors Mp HPoly}.
Variable planner_cfg : BaselineParameters.
Variable _cfgs : FSMParameters.

Local Abbreviation Planner := (@Planner A M B Mp Traj).
Local Abbreviation FSM := (@FSM A M B Mp Traj).
Local Abbreviation FsmEvent := (@FsmEvent Traj).

(** Splits the result of a tick into its cases. *)
Ltac tick_cases Hstep :=
  unfold FSMCallback, replan_body, exec_traj_body, publishTrajectory in Hstep;
  repeat match type of Hstep with
         | context [match _status ?f with _ => _ end] => destruct (_status f) eqn:?
         | context [if isInputLost ?tk then _ else _] => destruct (isInputLost tk) eqn:?
         | context [if negb (isInputLost ?tk) && ?b then _ else _] =>
             destruct (isInputLost tk) eqn:?; destruct b eqn:?; simpl in Hstep
         | context [plan ?c ?p ?t] => destruct (plan c p t) as [[[? ?] ?]|] eqn:?
         | context [if ?b && negb ?c then _ else _] =>
             destruct b eqn:?; destruct c eqn:?; simpl in Hstep
         | context [if checkTimeLapse ?tk ?d then _ else _] =>
             destruct (checkTimeLapse tk d) eqn:?; simpl in Hstep
         | context [if isGoalReached ?tk ?p then _ else _] =>
             destruct (isGoalReached tk p) eqn:?; simpl in Hstep
         | context [if false && true then _ else _] =>
             cbn [andb] in Hstep; cbv beta iota zeta in Hstep
         | context [if _is_exec_triggered ?f then _ else _] =>
             destruct (_is_exec_triggered f) eqn:?; simpl in Hstep
         end;
  try discriminate Hstep;
  try (injection Hstep as <- <-).

Lemma run_invariant (memory : FSM) (drone_id : Z) (goal : Vector3d) (planner : Planner) :
  fsm_invariant (run memory drone_id goal planner).
Proof.
  unfold fsm_invariant, run; simpl.
  split; [auto|]. split; [intros [H|[H|H]]; discriminate H|discriminate].
Qed.

Lemma TriggerCallback_invariant (f : FSM) (position : Vector3d) :
  fsm_invariant f -> fsm_invariant (fst (TriggerCallback f position)).
Proof.
  intros (Hst & Hgoal & Hfront). unfold TriggerCallback.
  destruct (_is_exec_triggered f); [simpl; repeat split; assumption|].
  simpl. destruct (_is_goal_received f) eqn:Hrecv; simpl.
  - unfold fsm_invariant; simpl. repeat split; auto.
  - destruct (_waypoints f) as [|front rest] eqn:Hq; unfold fsm_invariant; simpl;
      repeat split; auto.
Qed.

Lemma FSMCallback_invariant (f : FSM) (tk : Tick) (f' : FSM) (evs : list FsmEvent) :
  fsm_invariant f ->
  FSMCallback planner_cfg _cfgs f tk = Some (f', evs) ->
  fsm_invariant f'.
Proof.
  intros (Hst & Hgoal & Hfront) Hstep.
  tick_cases Hstep; unfold fsm_invariant; simpl;
    repeat match goal with
           | H : _status f = _ |- _ => rewrite H in *
           end;
    try (destruct Hst as [Hst|[Hst|[Hst|[Hst|Hst]]]]; discriminate Hst);
    (split; [auto 6|]); (split; [|try discriminate; auto]);
    try (intros _; auto; fail);
    try (intros [H|[H|H]]; discriminate H);
    try congruence.
Qed.

Lemma dispatch_invariant (f : FSM) (input : Input) (f1 : FSM) (evs1 : list FsmEvent) :
  fsm_invariant f ->
  dispatch planner_cfg _cfgs f input = Some (f1, evs1) ->
  fsm_invariant f1.
Proof.
  intros Hinv Hd. destruct input as [tk|position]; simpl in Hd.
  - exact (FSMCallback_invariant f tk f1 evs1 Hinv Hd).
  - apply (f_equal (option_map fst)) in Hd. simpl in Hd. injection Hd as <-.
    apply TriggerCallback_invariant. exact Hinv.
Qed.

Lemma spin_invariant (inputs : list Input) :
  forall (f f' : FSM) (evs : list FsmEvent),
    fsm_invariant f ->
    spin planner_cfg _cfgs f inputs = Some (f', evs) ->
    fsm_invariant f'.
Proof.
  induction inputs as [|input rest IH]; intros f f' evs Hinv Hrun; simpl in Hrun.
  - injection Hrun as <- <-. exact Hinv.
  - destruct (dispatch planner_cfg _cfgs f input) as [[f1 evs1]|] eqn:Hd; [|discriminate].
    destruct (spin planner_cfg _cfgs f1 rest) as [[f2 evs2]|] eqn:Hs; [|discriminate].
    injection Hrun as <- <-.
    exact (IH f1 f2 evs2 (dispatch_invariant f input f1 evs1 Hinv Hd) Hs).
Qed.

(** X16.  Started by [run], the supervisor is never in [NEW_PLAN],
    [EMERGENCY_REPLAN] or [EXIT], whatever timer ticks and triggers it
    receives: from [WAIT_TARGET] it goes to [REPLAN] directly. *)
Theorem supervisor_reachable_states (memory : FSM) (drone_id : Z) (goal : Vector3d)
    (planner : Planner) (inputs : list Input) (f' : FSM) (evs : list FsmEvent) :
  spin planner_cfg _cfgs (run memory drone_id goal planner) inputs = Some (f', evs) ->
  _status f' <> NEW_PLAN /\ _status f' <> EMERGENCY_REPLAN /\ _status f' <> EXIT.
Proof.
  intros Hrun.
  destruct (spin_invariant inputs _ f' evs (run_invariant memory drone_id goal planner) Hrun)
    as (Hst & _).
  repeat split; intros E; rewrite E in Hst;
    destruct Hst as [H|[H|[H|[H|H]]]]; discriminate H.
Qed.

(** X17.  Started by [run], whenever the supervisor is in [REPLAN],
    [EXEC_TRAJ] or [GOAL_REACHED] a goal has been received and it is the
    front of the queue of way points; so the [pop] of [GOAL_REACHED] is
    never applied to an empty queue and removes the goal just reached. *)
Theorem pursued_goal_is_queue_front (memory : FSM) (drone_id : Z) (goal : Vector3d)
    (planner : Planner) (inputs : list Input) (f' : FSM) (evs : list FsmEvent) :
  spin planner_cfg _cfgs (run memory drone_id goal planner) inputs = Some (f', evs) ->
  _status f' = REPLAN \/ _status f' = EXEC_TRAJ \/ _status f' = GOAL_REACHED ->
  _is_goal_received f' = true /\
  exists rest, _waypoints f' = _goal f' :: rest.
Proof.
  intros Hrun Hst.
  destruct (spin_invariant inputs _ f' evs (run_invariant memory drone_id goal planner) Hrun)
    as (_ & Hgoal & Hfront).
  specialize (Hgoal Hst). split; [exact Hgoal|].
  specialize (Hfront Hgoal).
  destruct (_waypoints f') as [|front rest]; [discriminate Hfront|].
  exists rest. simpl in Hfront. injection Hfront as ->. reflexivity.
Qed.

Lemma published_ids_planner (pevs : list Event) :
  published_ids (map (@EvPlanner Traj) pevs) = [] /\
  broadcast_ids (map (@EvPlanner Traj) pevs) = [].
Proof. induction pevs as [|e pevs IH]; simpl; auto. Qed.

Lemma published_ids_app (a b : list FsmEvent) :
  published_ids (a ++ b) = published_ids a ++ published_ids b /\
  broadcast_ids (a ++ b) = broadcast_ids a ++ broadcast_ids b.
Proof. unfold published_ids, broadcast_ids. rewrite !flat_map_app. auto. Qed.

Lemma dispatch_ids (f : FSM) (input : Input) (f1 : FSM) (evs1 : list FsmEvent) :
  dispatch planner_cfg _cfgs f input = Some (f1, evs1) ->
  (_traj_idx f1 = _traj_idx f /\ published_ids evs1 = [] /\ broadcast_ids evs1 = []) \/
  (_traj_idx f1 = _traj_idx f + 1 /\
   published_ids evs1 = [_traj_idx f + 1] /\ broadcast_ids evs1 = [_traj_idx f + 1]).
Proof.
  intros Hd. destruct input as [tk|position]; simpl in Hd.
  - tick_cases Hd;
      rewrite ?(proj1 (published_ids_app _ _)), ?(proj2 (published_ids_app _ _)),
        ?(proj1 (published_ids_planner _)), ?(proj2 (published_ids_planner _));
      simpl; auto.
  - unfold TriggerCallback in Hd.
    destruct (_is_exec_triggered f); [injection Hd as <- <-; left; auto|].
    simpl in Hd. destruct (_is_goal_received f); simpl in Hd;
      [|destruct (_waypoints f)]; injection Hd as <- <-; left; auto.
Qed.

Lemma spin_ids (inputs : list Input) :
  forall (f f' : FSM) (evs : list FsmEvent),
    spin planner_cfg _cfgs f inputs = Some (f', evs) ->
    exists n : nat,
      (n <= length inputs)%nat /\
      _traj_idx f' = _traj_idx f + Z.of_nat n /\
      published_ids evs = map (fun k => _traj_idx f + Z.of_nat k) (seq 1 n) /\
      broadcast_ids evs = map (fun k => _traj_idx f + Z.of_nat k) (seq 1 n).
Proof.
  induction inputs as [|input rest IH]; intros f f' evs Hrun; simpl in Hrun.
  - injection Hrun as <- <-. exists 0%nat. simpl. repeat split; lia.
  - destruct (dispatch planner_cfg _cfgs f input) as [[f1 evs1]|] eqn:Hd; [|discriminate].
    destruct (spin planner_cfg _cfgs f1 rest) as [[f2 evs2]|] eqn:Hs; [|discriminate].
    injection Hrun as <- <-.
    destruct (IH f1 f2 evs2 Hs) as (n & Hn & Hidx & Hpub & Hbc).
    rewrite (proj1 (published_ids_app _ _)), (proj2 (published_ids_app _ _)).
    destruct (dispatch_ids f input f1 evs1 Hd) as [(E & P & Q)|(E & P & Q)];
      rewrite P, Q, Hpub, Hbc, E.
    + exists n. simpl. repeat split; try lia; reflexivity.
    + exists (S n). simpl length.
      split; [lia|]. split; [rewrite Hidx, E; lia|].
      assert (Hshift : map (fun k => _traj_idx f + 1 + Z.of_nat k) (seq 1 n)
                       = map (fun k => _traj_idx f + Z.of_nat k) (seq 2 n)).
      { rewrite <- (seq_shift n 1), map_map. apply map_ext. intros k. lia. }
      rewrite Hshift. split; reflexivity.
Qed.

(** X18.  Started by [run], the messages published on [trajectory] carry
    the ids 1, 2, ..., n in this order, the messages on [/broadcast_traj]
    carry the same ids, [_traj_idx] is n afterwards, and n is at most the
    number of callbacks that ran. *)
Theorem trajectory_ids_consecutive (memory : FSM) (drone_id : Z) (goal : Vector3d)
    (planner : Planner) (inputs : list Input) (f' : FSM) (evs : list FsmEvent) :
  spin planner_cfg _cfgs (run memory drone_id goal planner) inputs = Some (f', evs) ->
  exists n : nat,
    (n <= length inputs)%nat /\
    _traj_idx f' = Z.of_nat n /\
    published_ids evs = map Z.of_nat (seq 1 n) /\
    broadcast_ids evs = map Z.of_nat (seq 1 n).
Proof.
  intros Hrun.
  destruct (spin_ids inputs _ f' evs Hrun) as (n & Hn & Hidx & Hpub & Hbc).
  exists n. simpl in Hidx, Hpub, Hbc. repeat split; assumption.
Qed.

Lemma spin_first_goal (goal : Vector3d) (inputs : list Input) :
  forall (f f' : FSM) (evs : list FsmEvent),
    _goal f = goal /\ _waypoints f = [goal] /\ _status f <> GOAL_REACHED ->
    goal_never_reached inputs ->
    spin planner_cfg _cfgs f inputs = Some (f', evs) ->
    _goal f' = goal /\ _waypoints f' = [goal] /\ _status f' <> GOAL_REACHED.
Proof.
  induction inputs as [|input rest IH]; intros f f' evs Hinv Hnever Hrun; simpl in Hrun.
  - injection Hrun as <- <-. exact Hinv.
  - destruct (dispatch planner_cfg _cfgs f input) as [[f1 evs1]|] eqn:Hd; [|discriminate].
    destruct (spin planner_cfg _cfgs f1 rest) as [[f2 evs2]|] eqn:Hs; [|discriminate].
    injection Hrun as <- <-.
    apply (IH f1 f2 evs2); [|intros tk Hin; apply Hnever; right; exact Hin|exact Hs].
    destruct Hinv as (Hg & Hq & Hst).
    destruct input as [tk|position]; simpl in Hd.
    + pose proof (Hnever tk (or_introl eq_refl)) as Hno.
      tick_cases Hd; simpl; rewrite ?Hno in *; try discriminate;
        repeat split; auto; try discriminate; congruence.
    + unfold TriggerCallback in Hd.
      destruct (_is_exec_triggered f); [injection Hd as <- <-; auto|].
      simpl in Hd. rewrite Hq in Hd.
      destruct (_is_goal_received f); simpl in Hd; injection Hd as <- <-; simpl; auto.
Qed.

(** X19.  When the queue of way points is empty before [run] and no tick
    sees the goal reached, the goal pursued is the one [run] read from
    the parameters and the queue holds only this goal: the position
    carried by a trigger message is not used. *)
Theorem first_goal_from_parameters (memory : FSM) (drone_id : Z) (goal : Vector3d)
    (planner : Planner) (inputs : list Input) (f' : FSM) (evs : list FsmEvent) :
  _waypoints memory = [] ->
  goal_never_reached inputs ->
  spin planner_cfg _cfgs (run memory drone_id goal planner) inputs = Some (f', evs) ->
  _goal f' = goal /\ _waypoints f' = [goal] /\ _status f' <> GOAL_REACHED.
Proof.
  intros Hq Hnever Hrun.
  apply (spin_first_goal goal inputs (run memory drone_id goal planner) f' evs);
    [|exact Hnever|exact Hrun].
  unfold run; simpl. rewrite Hq. repeat split. discriminate.
Qed.

(** X20.  A tick during which the input is lost neither plans nor
    publishes: it returns without any call, leaves the planner, the goal
    and the trajectory counter as they are, and puts the supervisor in
    [WAIT_TARGET] from every state but [EMERGENCY_REPLAN] and [EXIT]. *)
Theorem input_lost_tick_is_quiet (f : FSM) (tk : Tick) :
  isInputLost tk = true ->
  exists f',
    FSMCallback planner_cfg _cfgs f tk = Some (f', []) /\
    _planner f' = _planner f /\ _goal f' = _goal f /\ _traj_idx f' = _traj_idx f /\
    (_status f <> EMERGENCY_REPLAN -> _status f <> EXIT -> _status f' = WAIT_TARGET).
Proof.
  intros Hlost. unfold FSMCallback. rewrite Hlost.
  destruct (_status f) eqn:Hst; simpl;
    eexists; (split; [reflexivity|]); simpl; repeat split; auto; congruence.
Qed.

(** X21.  A tick publishes a trajectory exactly when it is taken in
    [REPLAN] with the input present, the planning call succeeded and the
    goal is not reached after it.  The message then has the drone's id,
    the next trajectory id, the start time and the trajectory of the
    planner, it is also broadcast, and the supervisor goes to
    [EXEC_TRAJ]. *)
Theorem tick_publishes_iff (f : FSM) (tk : Tick) (f' : FSM) (evs : list FsmEvent) :
  FSMCallback planner_cfg _cfgs f tk = Some (f', evs) ->
  ((exists msg, In (EvTrajPub msg) evs) <->
   (_status f = REPLAN /\ isInputLost tk = false /\
    exists p' pevs,
      plan planner_cfg (setGoal (_planner f) (_goal f)) (now tk) = Some (true, p', pevs) /\
      isGoalReached tk (getPos p') = false)) /\
  (forall msg,
      In (EvTrajPub msg) evs ->
      _status f' = EXEC_TRAJ /\
      drone_id msg = _drone_id f /\
      traj_id msg = _traj_idx f + 1 /\
      start_time msg = getTrajStartTime (_planner f') /\
      msg_traj msg = getTrajectory (_planner f') /\
      In (EvBroadcastTrajPub msg) evs).
Proof.
  intros Hstep.
  assert (Hnone : forall pevs rest msg,
             In (EvTrajPub msg) (map (@EvPlanner Traj) pevs ++ rest) ->
             In (EvTrajPub msg) rest).
  { intros pevs rest msg H. apply in_app_or in H. destruct H as [H|H]; [|exact H].
    destruct (proj1 (publish_not_planner msg pevs) H). }
  tick_cases Hstep.
  all: split; [split; [intros [msg H]|intros (E1 & E2 & p' & pevs & Hp & Hg)]|intros msg H].
  all: try (exfalso; congruence).
  all: try (exfalso; simpl in H; intuition discriminate).
  all: try (exfalso; apply Hnone in H; simpl in H; intuition discriminate).
  all: try (exfalso; rewrite <- (app_nil_r (map _ _)) in H; apply Hnone in H; destruct H).
  - split; [reflexivity|]. split; [reflexivity|]. exists p, l. auto.
  - eexists. apply in_or_app. right. left. reflexivity.
  - apply Hnone in H. destruct H as [H|[H|[]]]; [|discriminate H].
    injection H as <-. simpl. repeat split.
    apply in_or_app. right. right. left. reflexivity.
Qed.

End PlanManagerNodeFacts.

Section PlanManagerNodeScenarios.

Import BaselinePlanner FiniteStateMachine PlanManagerNode.

Local Abbreviation demo_spin :=
  (@spin unit unit unit unit nat unit (Scenarios.stub_search 1 1 Scenarios.demo_route)
     (Scenarios.stub_mader true true) (Scenarios.stub_bezier true) Scenarios.stub_corridors
     Scenarios.demo_params Scenarios.demo_fsm_params).

Local Abbreviation demo_run :=
  (@run unit unit unit unit nat MoreScenarios.raw_fsm 2 (mkVector3d 5 0 1)
     Scenarios.demo_planner).

(** X16 (witness): the whole mission. *)
Lemma supervisor_reachable_states_witness :
  exists f' evs,
    demo_spin demo_run MoreScenarios.mission_inputs = Some (f', evs) /\
    _status f' <> NEW_PLAN /\ _status f' <> EMERGENCY_REPLAN /\ _status f' <> EXIT.
Proof.
  destruct (demo_spin demo_run MoreScenarios.mission_inputs) as [[f' evs]|] eqn:E.
  - exists f', evs. split; [reflexivity|].
    exact (@supervisor_reachable_states unit unit unit unit nat unit
             (Scenarios.stub_search 1 1 Scenarios.demo_route)
             (Scenarios.stub_mader true true) (Scenarios.stub_bezier true)
             Scenarios.stub_corridors Scenarios.demo_params Scenarios.demo_fsm_params
             MoreScenarios.raw_fsm 2 (mkVector3d 5 0 1) Scenarios.demo_planner
             MoreScenarios.mission_inputs f' evs E).
  - vm_compute in E. discriminate E.
Defined.

(** X17 (witness): at the end of the mission the supervisor is in
    [GOAL_REACHED] and the goal is the front of the queue. *)
Lemma pursued_goal_is_queue_front_witness :
  exists f' evs,
    demo_spin demo_run MoreScenarios.mission_inputs = Some (f', evs) /\
    _status f' = GOAL_REACHED /\
    _is_goal_received f' = true /\
    exists rest, _waypoints f' = _goal f' :: rest.
Proof.
  assert (Hst : option_map (fun r => _status (fst r))
                  (demo_spin demo_run MoreScenarios.mission_inputs) = Some GOAL_REACHED)
    by (vm_compute; reflexivity).
  destruct (demo_spin demo_run MoreScenarios.mission_inputs) as [[f' evs]|] eqn:E;
    [|discriminate Hst].
  simpl in Hst. injection Hst as Hst.
  exists f', evs. split; [reflexivity|]. split; [exact Hst|].
  exact (@pursued_goal_is_queue_front unit unit unit unit nat unit
           (Scenarios.stub_search 1 1 Scenarios.demo_route)
           (Scenarios.stub_mader true true) (Scenarios.stub_bezier true)
           Scenarios.stub_corridors Scenarios.demo_params Scenarios.demo_fsm_params
           MoreScenarios.raw_fsm 2 (mkVector3d 5 0 1) Scenarios.demo_planner
           MoreScenarios.mission_inputs f' evs E
           (or_intror (or_intror Hst))).
Defined.

(** X18 (witness): the mission publishes trajectories 1 and 2. *)
Lemma trajectory_ids_consecutive_witness :
  exists f' evs,
    demo_spin demo_run MoreScenarios.mission_inputs = Some (f', evs) /\
    published_ids evs = [1; 2] /\
    exists n : nat,
      (n <= length MoreScenarios.mission_inputs)%nat /\
      _traj_idx f' = Z.of_nat n /\
      published_ids evs = map Z.of_nat (seq 1 n) /\
      broadcast_ids evs = map Z.of_nat (seq 1 n).
Proof.
  assert (Hids : option_map (fun r => published_ids (snd r))
                   (demo_spin demo_run MoreScenarios.mission_inputs) = Some [1; 2])
    by (vm_compute; reflexivity).
  destruct (demo_spin demo_run MoreScenarios.mission_inputs) as [[f' evs]|] eqn:E;
    [|discriminate Hids].
  simpl in Hids. injection Hids as Hids.
  exists f', evs. split; [reflexivity|]. split; [exact Hids|].
  exact (@trajectory_ids_consecutive unit unit unit unit nat unit
           (Scenarios.stub_search 1 1 Scenarios.demo_route)
           (Scenarios.stub_mader true true) (Scenarios.stub_bezier true)
           Scenarios.stub_corridors Scenarios.demo_params Scenarios.demo_fsm_params
           MoreScenarios.raw_fsm 2 (mkVector3d 5 0 1) Scenarios.demo_planner
           MoreScenarios.mission_inputs f' evs E).
Defined.

Lemma outbound_goal_never_reached : goal_never_reached MoreScenarios.outbound_inputs.
Proof.
  intros tk Hin p. simpl in Hin.
  repeat match goal with
         | H : _ \/ _ |- _ => destruct H as [H|H]
         end;
    try (inversion Hin; reflexivity); try discriminate Hin; destruct Hin.
Defined.

(** X19 (witness): the trigger carries the position (8, 8, 8); the goal
    pursued is the one of the parameters. *)
Lemma first_goal_from_parameters_witness :
  exists f' evs,
    demo_spin demo_run MoreScenarios.outbound_inputs = Some (f', evs) /\
    _is_goal_received f' = true /\
    _goal f' = mkVector3d 5 0 1 /\ _waypoints f' = [mkVector3d 5 0 1] /\
    _status f' <> GOAL_REACHED.
Proof.
  assert (Hrecv : option_map (fun r => _is_goal_received (fst r))
                    (demo_spin demo_run MoreScenarios.outbound_inputs) = Some true)
    by (vm_compute; reflexivity).
  destruct (demo_spin demo_run MoreScenarios.outbound_inputs) as [[f' evs]|] eqn:E;
    [|discriminate Hrecv].
  simpl in Hrecv. injection Hrecv as Hrecv.
  exists f', evs. split; [reflexivity|]. split; [exact Hrecv|].
  exact (@first_goal_from_parameters unit unit unit unit nat unit
           (Scenarios.stub_search 1 1 Scenarios.demo_route)
           (Scenarios.stub_mader true true) (Scenarios.stub_bezier true)
           Scenarios.stub_corridors Scenarios.demo_params Scenarios.demo_fsm_params
           MoreScenarios.raw_fsm 2 (mkVector3d 5 0 1) Scenarios.demo_planner
           MoreScenarios.outbound_inputs f' evs eq_refl outbound_goal_never_reached E).
Defined.

(** X20 (witness): the input is lost while replanning. *)
Lemma input_lost_tick_is_quiet_witness :
  exists f',
    @FSMCallback unit unit unit unit nat unit (Scenarios.stub_search 1 1 Scenarios.demo_route)
      (Scenarios.stub_mader true true) (Scenarios.stub_bezier true) Scenarios.stub_corridors
      Scenarios.demo_params Scenarios.demo_fsm_params
      (Scenarios.demo_fsm REPLAN) MoreScenarios.lost_tick = Some (f', []) /\
    _status f' = WAIT_TARGET.
Proof.
  destruct (@input_lost_tick_is_quiet unit unit unit unit nat unit
              (Scenarios.stub_search 1 1 Scenarios.demo_route)
              (Scenarios.stub_mader true true) (Scenarios.stub_bezier true)
              Scenarios.stub_corridors Scenarios.demo_params Scenarios.demo_fsm_params
              (Scenarios.demo_fsm REPLAN) MoreScenarios.lost_tick eq_refl)
    as (f' & Hstep & _ & _ & _ & Hst).
  exists f'. split; [exact Hstep|].
  apply Hst; discriminate.
Defined.

(** X21 (witness): a replanning tick with a successful plan publishes
    trajectory 1. *)
Lemma tick_publishes_iff_witness :
  exists f' evs,
    @FSMCallback unit unit unit unit nat unit (Scenarios.stub_search 1 1 Scenarios.demo_route)
      (Scenarios.stub_mader true true) (Scenarios.stub_bezier true) Scenarios.stub_corridors
      Scenarios.demo_params Scenarios.demo_fsm_params
      (Scenarios.demo_fsm REPLAN) Scenarios.quiet_tick = Some (f', evs) /\
    forall msg, In (EvTrajPub msg) evs -> _status f' = EXEC_TRAJ /\ traj_id msg = 1.
Proof.
  eexists. eexists. split; [reflexivity|].
  intros msg H.
  destruct (proj2 (@tick_publishes_iff unit unit unit unit nat unit
              (Scenarios.stub_search 1 1 Scenarios.demo_route)
              (Scenarios.stub_mader true true) (Scenarios.stub_bezier true)
              Scenarios.stub_corridors Scenarios.demo_params Scenarios.demo_fsm_params
              (Scenarios.demo_fsm REPLAN) Scenarios.quiet_tick _ _ eq_refl) msg H)
    as (Hst & _ & Hid & _).
  split; [exact Hst|exact Hid].
Defined.

End PlanManagerNodeScenarios.

(** * More properties of the optimisation routine and of [plan] *)

Section OptimizationReturnFacts.

Import Planner.

Context {Opt Traj Polys : Type}.
Context {solver : CorridorMiniSnap Opt Traj Polys}.
Context {decomp : DecompUtils Polys}.
Variable cfg : PlannerConfig.


End OptimizationReturnFacts.

Section PlanStateFacts.

Import BaselinePlanner.

Context {A M B Mp Traj HPoly : Type}.
Context {astar : RiskHybridAstar A}.
Context {mader : MADER M Traj}.
Context {bezier : BezierOpt B Traj HPoly}.
Context {corridors : Corridors Mp HPoly}.
Variable cfg_ : BaselineParameters.

Local Abbreviation Planner := (@Planner A M B Mp Traj).

Lemma searches_app (a b : list Event) : searches (a ++ b) = searches a ++ searches b.
Proof. unfold searches. apply flat_map_app. Qed.

Lemma search_twice_searches (p : Planner) (rst : Z) (a : A) (evs : list Event) :
  search_twice p = (rst, a, evs) ->
  evs = map (fun s => EvSearch (fst s) (snd s)) (searches evs) /\
  exists r1,
    (r1 <> 0 /\ rst = r1 /\ searches evs = [(true, r1)]) \/
    (r1 = 0 /\ searches evs = [(true, 0); (false, rst)]).
Proof.
  unfold search_twice.
  destruct (astar_search _ _ _ _ _ _ true) as [r1 a1].
  destruct (Z.eqb_spec r1 0) as [->|Hr1].
  - destruct (astar_search _ _ _ _ _ _ false) as [r2 a2].
    intros H; inversion H; subst. split; [reflexivity|]. exists 0. right. auto.
  - intros H; inversion H; subst. split; [reflexivity|]. exists rst. left. auto.
Qed.

Lemma local_goal_of_None (route : list Vector3d) :
  local_goal_of route = None <-> route = [].
Proof.
  unfold local_goal_of. rewrite nth_error_None.
  destruct route as [|x route]; simpl; split; intros H; try reflexivity; try lia; discriminate H.
Qed.

Lemma truncate_route_nil (route : list Vector3d) : truncate_route route = [] <-> route = [].
Proof.
  unfold truncate_route.
  destruct (Nat.ltb_spec 4 (length route)) as [H|H]; [|tauto].
  destruct route as [|x route]; [simpl in H; lia|].
  simpl. split; discriminate.
Qed.

(** Runs [plan] through its branches. *)
Ltac plan_cases H :=
  unfold plan in H;
  repeat match type of H with
         | context [search_twice ?p] => destruct (search_twice p) as [[? ?] ?] eqn:?
         | context [if ?r =? NO_PATH then _ else _] => destruct (Z.eqb_spec r NO_PATH)
         | context [match local_goal_of ?r with _ => _ end] =>
             destruct (local_goal_of r) eqn:?
         | context [optimize ?b] => destruct (optimize b) as [[|] ?] eqn:?;
                                    simpl negb in H; cbv iota in H
         | context [isSafeAfterOpt ?m ?t] =>
             destruct (isSafeAfterOpt m t) as [[|] ?] eqn:?; simpl negb in H; cbv iota in H
         | context [isSafeAfterChk ?m] =>
             destruct (isSafeAfterChk m) as [[|] ?] eqn:?; simpl negb in H; cbv iota in H
         end;
  try discriminate H.

(** X22.  [plan] stores the optimised trajectory in [traj_] as soon as the
    optimiser succeeded, before the deconfliction checks: after a call
    that one of the checks made fail, [traj_] holds the rejected
    trajectory.  [traj_start_time_] is written only by a call that
    succeeds; position, velocity, acceleration and goal are not written. *)
Theorem plan_stores_candidate (p : Planner) (now : Q) (ok : bool) (p' : Planner)
    (evs : list Event) :
  plan cfg_ p now = Some (ok, p', evs) ->
  (In (EvOptimize true) evs -> traj_ p' = getOptBezier (traj_optimizer_ p')) /\
  (~ In (EvOptimize true) evs -> ok = false /\ traj_ p' = traj_ p) /\
  (ok = true -> traj_start_time_ p' = now) /\
  (ok = false -> traj_start_time_ p' = traj_start_time_ p) /\
  odom_pos_ p' = odom_pos_ p /\ odom_vel_ p' = odom_vel_ p /\
  odom_acc_ p' = odom_acc_ p /\ goal_pos_ p' = goal_pos_ p.
Proof.
  intros H. plan_cases H.
  all: match goal with
       | Hs : search_twice _ = _ |- _ => apply search_twice_events in Hs
       end.
  all: injection H as <- <- <-; simpl.
  all: repeat split; try reflexivity; try discriminate; auto.
  all: try (intros Hin; exfalso; in_trace; try discriminate; not_search).
  all: try (intros Hno; exfalso; apply Hno; rewrite !in_app_iff; simpl; auto 15).
  all: exfalso;
       match goal with
       | Hno : ~ In _ _ |- _ => apply Hno; rewrite !in_app_iff; simpl; auto 15
       end.
Qed.

(** X23.  [plan] indexes an empty route, [route[route.size() - 1]],
    exactly when the search did not answer [NO_PATH] and [getPath]
    returned no point; in every other case it returns. *)
Theorem plan_undefined_iff (p : Planner) (now : Q) (rst : Z) (a : A) (evs0 : list Event) :
  search_twice p = (rst, a, evs0) ->
  (plan cfg_ p now = None <->
   rst <> NO_PATH /\ getPath a (a_star_search_time_step cfg_) = []).
Proof.
  intros Hs. unfold plan. rewrite Hs.
  destruct (Z.eqb_spec rst NO_PATH) as [E|E].
  - split; [discriminate|intros [H _]; contradiction].
  - destruct (local_goal_of _) as [local_goal|] eqn:Hl.
    + assert (Hne : getPath a (a_star_search_time_step cfg_) <> []).
      { intros Hnil. rewrite Hnil in Hl. discriminate Hl. }
      destruct (optimize _) as [[|] b1]; simpl negb; cbv iota.
      1: destruct (isSafeAfterOpt _ _) as [[|] m1]; simpl negb; cbv iota.
      1: destruct (isSafeAfterChk _) as [[|] m2]; simpl negb; cbv iota.
      all: split; [discriminate|intros [_ H]; contradiction].
    + apply (proj1 (local_goal_of_None _)) in Hl.
      apply (proj1 (truncate_route_nil _)) in Hl.
      split; [intros _; split; assumption|reflexivity].
Qed.


End PlanStateFacts.

Section PlanStateScenarios.

Import BaselinePlanner.

(** X22 (witness): the first check rejects the optimised trajectory 7;
    the call fails and leaves 7 in [traj_], with the old start time. *)
Lemma plan_stores_candidate_witness :
  exists p' evs,
    @plan unit unit unit unit nat unit (Scenarios.stub_search 1 1 Scenarios.demo_route)
      (Scenarios.stub_mader false true) (Scenarios.stub_bezier true) Scenarios.stub_corridors
      Scenarios.demo_params Scenarios.demo_planner 3 = Some (false, p', evs) /\
    traj_ Scenarios.demo_planner = 0%nat /\
    traj_ p' = 7%nat /\
    traj_start_time_ p' = traj_start_time_ Scenarios.demo_planner.
Proof.
  eexists. eexists. split; [reflexivity|]. split; [reflexivity|].
  destruct (@plan_stores_candidate unit unit unit unit nat unit
              (Scenarios.stub_search 1 1 Scenarios.demo_route)
              (Scenarios.stub_mader false true) (Scenarios.stub_bezier true)
              Scenarios.stub_corridors Scenarios.demo_params Scenarios.demo_planner 3
              false _ _ eq_refl) as (Hstore & _ & _ & Htime & _).
  split; [apply Hstore; simpl; auto 15|apply Htime; reflexivity].
Defined.

(** X23 (witness): the search answers code 1 and [getPath] returns no
    point. *)
Lemma plan_undefined_iff_witness :
  @plan unit unit unit unit nat unit (Scenarios.stub_search 1 1 [])
    (Scenarios.stub_mader true true) (Scenarios.stub_bezier true) Scenarios.stub_corridors
    Scenarios.demo_params Scenarios.demo_planner 3 = None.
Proof.
  apply (proj2 (@plan_undefined_iff unit unit unit unit nat unit
                  (Scenarios.stub_search 1 1 [])
                  (Scenarios.stub_mader true true) (Scenarios.stub_bezier true)
                  Scenarios.stub_corridors Scenarios.demo_params Scenarios.demo_planner 3
                  1 tt [EvSearch true 1] eq_refl)).
  split; [intros H; vm_compute in H; discriminate H|reflexivity].
Defined.


End PlanStateScenarios.

(** * Properties of test_dsp_map_node.cpp *)

Section PointBufferFacts.

Import TestDspMapNode.

Variable R : Vector3d -> Vector3d.

Lemma store_in_bounds (buf : Z -> Q) (i : Z) (v : Q) :
  0 <= i < VALID_CLOUDS_SIZE ->
  store buf i v = Some (fun j => if j =? i then v else buf j).
Proof.
  intros H. unfold store.
  destruct (Z.leb_spec 0 i); [|lia]. destruct (Z.ltb_spec i VALID_CLOUDS_SIZE); [|lia].
  reflexivity.
Qed.

Lemma filter_loop_spec (points : list Vector3d) :
  forall (buf : Z -> Q) (n0 : Z),
    0 <= n0 < 5000 ->
    exists buf' n,
      filter_loop R points buf n0 = Some (buf', n) /\
      n = Z.min 5000 (n0 + Z.of_nat (length (valid_points R points))) /\
      (forall k p_w,
          nth_error (valid_points R points) k = Some p_w ->
          n0 + Z.of_nat k < 5000 ->
          buf' ((n0 + Z.of_nat k) * 3 + 0) = vec_x p_w /\
          buf' ((n0 + Z.of_nat k) * 3 + 1) = vec_y p_w /\
          buf' ((n0 + Z.of_nat k) * 3 + 2) = vec_z p_w) /\
      (forall i, i < n0 * 3 \/ n * 3 <= i -> buf' i = buf i).
Proof.
  induction points as [|p rest IH]; intros buf n0 Hn0.
  - exists buf, n0. simpl.
    split; [reflexivity|]. split; [lia|].
    split; [intros k p_w H; destruct k; discriminate H|reflexivity].
  - unfold valid_points in *. simpl.
    destruct (inRange (R p)) eqn:Hin; [|exact (IH buf n0 Hn0)].
    assert (Hsize : VALID_CLOUDS_SIZE = 15000) by reflexivity.
    rewrite !store_in_bounds by lia.
    set (b2 := fun j : Z =>
                 if j =? n0 * 3 + 2 then vec_z (R p)
                 else if j =? n0 * 3 + 1 then vec_y (R p)
                      else if j =? n0 * 3 + 0 then vec_x (R p) else buf j).
    assert (Hb2x : b2 (n0 * 3 + 0) = vec_x (R p)).
    { unfold b2. destruct (Z.eqb_spec (n0 * 3 + 0) (n0 * 3 + 2)); [lia|].
      destruct (Z.eqb_spec (n0 * 3 + 0) (n0 * 3 + 1)); [lia|].
      rewrite Z.eqb_refl. reflexivity. }
    assert (Hb2y : b2 (n0 * 3 + 1) = vec_y (R p)).
    { unfold b2. destruct (Z.eqb_spec (n0 * 3 + 1) (n0 * 3 + 2)); [lia|].
      rewrite Z.eqb_refl. reflexivity. }
    assert (Hb2z : b2 (n0 * 3 + 2) = vec_z (R p)).
    { unfold b2. rewrite Z.eqb_refl. reflexivity. }
    assert (Hb2o : forall i, i < n0 * 3 \/ (n0 + 1) * 3 <= i -> b2 i = buf i).
    { intros i Hi. unfold b2.
      destruct (Z.eqb_spec i (n0 * 3 + 2)); [lia|].
      destruct (Z.eqb_spec i (n0 * 3 + 1)); [lia|].
      destruct (Z.eqb_spec i (n0 * 3 + 0)); [lia|]. reflexivity. }
    clearbody b2. simpl length.
    destruct (Z.geb_spec (n0 + 1) 5000) as [Hfull|Hmore].
    + exists b2, (n0 + 1). split; [reflexivity|]. split; [lia|]. split.
      * intros k p_w Hk Hlt. assert (k = 0%nat) by lia. subst k.
        simpl in Hk. injection Hk as <-.
        replace (n0 + Z.of_nat 0) with n0 by lia. auto.
      * exact Hb2o.
    + destruct (IH b2 (n0 + 1)) as (buf' & n & Hrun & Hn & Hcells & Hout); [lia|].
      exists buf', n. split; [exact Hrun|]. split; [lia|]. split.
      * intros k p_w Hk Hlt. destruct k as [|k'].
        -- simpl in Hk. injection Hk as <-.
           replace (n0 + Z.of_nat 0) with n0 by lia.
           rewrite !Hout by lia. auto.
        -- simpl in Hk.
           replace (n0 + Z.of_nat (S k')) with (n0 + 1 + Z.of_nat k') by lia.
           apply Hcells; [exact Hk|lia].
      * intros i Hi. rewrite Hout by lia. apply Hb2o. lia.
Qed.

(** X25.  The loop of [cloudOdomCallback] never writes outside
    [valid_clouds_]: it stores the first 5000 points of the filtered
    cloud that are in range after the rotation (all of them when there
    are fewer), in their order, three floats per point from the start of
    the array; [n_valid] is their number, and the cells from
    [3 * n_valid] on keep what they held before the callback. *)
Theorem cloudOdomCallback_fills_buffer (cloud_filtered : list Vector3d)
    (valid_clouds_ : Z -> Q) :
  exists buf' n_valid,
    cloudOdomCallback R cloud_filtered valid_clouds_ = Some (buf', n_valid) /\
    n_valid = Z.min 5000 (Z.of_nat (length (valid_points R cloud_filtered))) /\
    (forall k p_w,
        nth_error (valid_points R cloud_filtered) k = Some p_w ->
        Z.of_nat k < 5000 ->
        buf' (Z.of_nat k * 3 + 0) = vec_x p_w /\
        buf' (Z.of_nat k * 3 + 1) = vec_y p_w /\
        buf' (Z.of_nat k * 3 + 2) = vec_z p_w) /\
    (forall i, n_valid * 3 <= i -> buf' i = valid_clouds_ i).
Proof.
  destruct (filter_loop_spec cloud_filtered valid_clouds_ 0)
    as (buf' & n & Hrun & Hn & Hcells & Hout); [lia|].
  exists buf', n. split; [exact Hrun|]. split; [lia|]. split.
  - intros k p_w Hk Hlt. exact (Hcells k p_w Hk Hlt).
  - intros i Hi. apply Hout. right. exact Hi.
Qed.

End PointBufferFacts.
